(** * staging-coordinator: the release-approval core, embedded and verified

    The development follows the TypeScript sources:
    - [utils/result.ts], [utils/errors.ts]  : [Result], [Error];
    - [lib/types.ts]                        : [Schedule];
    - [utils/date.ts]                       : module [DateUtils];
    - [lib/schedule.ts]                     : modules [JsDate], [Regex], [ScheduleParser];
    - [lib/slack.ts], [lib/sheets.ts]       : the client interfaces of module [ReleaseChecker],
                                              and the clients themselves in modules
                                              [SlackWebClient] and [SheetsClient];
    - [services/release-checker.ts]         : module [ReleaseChecker];
    - [cli/index.ts]                        : module [Cli];
    - [utils/logger.ts]                     : module [Logger].

    Conventions.  A JavaScript [Date] is its time value, a [Z] number of
    milliseconds since the epoch (an invalid [Date] is never built by this
    code and is not modelled).  A string is a [string] holding the UTF-8
    encoding of the JavaScript string, which is taken to be well formed
    (no lone surrogate): equality, concatenation and [includes] are those
    of the bytes, while [length], [\s] and [trim] go by the characters
    encoded (see module [JsString]).  A number is a double ([number] in
    module [ReleaseChecker]).  Functions returning [Result<T>] return
    [Result T]. *)

From Stdlib Require Import ZArith List String Ascii Bool Lia QArith Qround Qreduction.
From Stdlib Require Import DecimalString.
Import ListNotations.

Local Open Scope list_scope.
Local Open Scope string_scope.
Local Open Scope Z_scope.

(* ------------------------------------------------------------------ *)
(** ** utils/errors.ts and utils/result.ts *)

Inductive ErrorName := PlainError | NetworkError | ValidationError.

(** [new Error(message)], [new NetworkError(message, { cause })] and
    [new ValidationError(message, { field })]. *)
Inductive Error :=
| MkError (name : ErrorName) (message : string) (field : option string)
| MkErrorCause (name : ErrorName) (message : string) (cause : Error).

Definition error_message (e : Error) : string :=
  match e with MkError _ m _ | MkErrorCause _ m _ => m end.
Definition error_name (e : Error) : ErrorName :=
  match e with MkError n _ _ | MkErrorCause n _ _ => n end.
Definition error_cause (e : Error) : option Error :=
  match e with MkError _ _ _ => None | MkErrorCause _ _ c => Some c end.

Definition newError (message : string) : Error := MkError PlainError message None.

Inductive Result (T : Type) :=
| Ok (value : T)
| Err (error : Error).
Arguments Ok {T} value.
Arguments Err {T} error.

Definition isOk {T} (r : Result T) : bool :=
  match r with Ok _ => true | Err _ => false end.
Definition isErr {T} (r : Result T) : bool := negb (isOk r).

(* ------------------------------------------------------------------ *)
(** ** lib/types.ts *)

Definition Date := Z.

Record Schedule := mkSchedule {
  productName : string;
  environmentName : string;
  startDateTime : Date;
  endDateTime : Date;
  personInChargeId : string;
  personInChargeName : string;
  remarks : string
}.

(* ------------------------------------------------------------------ *)
(** ** The JavaScript [Date] object, as far as [lib/schedule.ts] uses it

    The day and time arithmetic of ECMAScript (section "Time Values and
    Time Range"): [new Date(y, m, d, h, min, s)] and the getters
    [getFullYear], [getMonth], [getDate], [getHours], [getMinutes],
    [getSeconds].  The time zone of the host is given by its [LocalTZA],
    the offset of local time from UTC, which may change with the instant
    (daylight saving, changes of rule); time values stay far inside the
    range of [TimeClip]. *)

Module JsDate.

Definition msPerSecond : Z := 1000.
Definition msPerMinute : Z := 60000.
Definition msPerHour : Z := 3600000.
Definition msPerDay : Z := 86400000.

Definition Day (t : Z) : Z := t / msPerDay.
Definition TimeWithinDay (t : Z) : Z := t mod msPerDay.

Definition isLeapYear (y : Z) : bool :=
  (y mod 4 =? 0) && (negb (y mod 100 =? 0) || (y mod 400 =? 0)).

Definition DaysInYear (y : Z) : Z := if isLeapYear y then 366 else 365.

Definition DayFromYear (y : Z) : Z :=
  365 * (y - 1970) + (y - 1969) / 4 - (y - 1901) / 100 + (y - 1601) / 400.

Definition TimeFromYear (y : Z) : Z := msPerDay * DayFromYear y.

(** The largest [y] with [TimeFromYear y <= t]: an estimate from the mean
    length of a year, corrected by at most one (see [YearFromTime_spec]). *)
Definition YearFromTime (t : Z) : Z :=
  let d := Day t in
  let y0 := 1970 + (d * 400) / 146097 in
  if d <? DayFromYear y0 then y0 - 1
  else if d <? DayFromYear (y0 + 1) then y0
  else y0 + 1.

Definition InLeapYear (t : Z) : Z := if isLeapYear (YearFromTime t) then 1 else 0.

Definition DayWithinYear (t : Z) : Z := Day t - DayFromYear (YearFromTime t).

(** Day number within the year of the first day of month [m] (0-based),
    [leap] being 0 or 1. *)
Definition monthStart (m leap : Z) : Z :=
  if m <=? 0 then 0
  else if m =? 1 then 31
  else if m =? 2 then 59 + leap
  else if m =? 3 then 90 + leap
  else if m =? 4 then 120 + leap
  else if m =? 5 then 151 + leap
  else if m =? 6 then 181 + leap
  else if m =? 7 then 212 + leap
  else if m =? 8 then 243 + leap
  else if m =? 9 then 273 + leap
  else if m =? 10 then 304 + leap
  else if m =? 11 then 334 + leap
  else 365 + leap.

Definition monthOfDay (d leap : Z) : Z :=
  if d <? 31 then 0
  else if d <? 59 + leap then 1
  else if d <? 90 + leap then 2
  else if d <? 120 + leap then 3
  else if d <? 151 + leap then 4
  else if d <? 181 + leap then 5
  else if d <? 212 + leap then 6
  else if d <? 243 + leap then 7
  else if d <? 273 + leap then 8
  else if d <? 304 + leap then 9
  else if d <? 334 + leap then 10
  else 11.

Definition MonthFromTime (t : Z) : Z := monthOfDay (DayWithinYear t) (InLeapYear t).

Definition DateFromTime (t : Z) : Z :=
  DayWithinYear t - monthStart (MonthFromTime t) (InLeapYear t) + 1.

Definition HourFromTime (t : Z) : Z := (t / msPerHour) mod 24.
Definition MinFromTime (t : Z) : Z := (t / msPerMinute) mod 60.
Definition SecFromTime (t : Z) : Z := (t / msPerSecond) mod 60.

Definition MakeTime (hour min sec ms : Z) : Z :=
  hour * msPerHour + min * msPerMinute + sec * msPerSecond + ms.

Definition MakeDay (year month date : Z) : Z :=
  let ym := year + month / 12 in
  let mn := month mod 12 in
  DayFromYear ym + monthStart mn (if isLeapYear ym then 1 else 0) + date - 1.

Definition MakeDate (day time : Z) : Z := day * msPerDay + time.

(** [LocalTZA(t, isUTC)] of ECMAScript, a datum of the host: the offset
    of local time from UTC in milliseconds, at the UTC instant [t] when
    [isUTC] is [true], and at the local time value [t] when it is [false]
    (a local time that a change of offset skips or repeats is read with
    the offset before the change). *)
Definition LocalTZA : Type := Z -> bool -> Z.

(** A host whose local time is always [offset] milliseconds ahead of UTC. *)
Definition fixedOffset (offset : Z) : LocalTZA := fun _ _ => offset.

Section LocalTime.
Variable tza : LocalTZA.

Definition LocalTime (t : Z) : Z := t + tza t true.
Definition UTC (t : Z) : Z := t - tza t false.

  (** [new Date(year, month, date, hours, minutes, seconds)]: a year from
      0 to 99 stands for 1900 + year. *)
Definition newDate (year month date hours minutes seconds : Z) : Date :=
    let yr := if (0 <=? year) && (year <=? 99) then 1900 + year else year in
    UTC (MakeDate (MakeDay yr month date) (MakeTime hours minutes seconds 0)).

Definition getFullYear (d : Date) : Z := YearFromTime (LocalTime d).
Definition getMonth (d : Date) : Z := MonthFromTime (LocalTime d).
Definition getDate (d : Date) : Z := DateFromTime (LocalTime d).
Definition getHours (d : Date) : Z := HourFromTime (LocalTime d).
Definition getMinutes (d : Date) : Z := MinFromTime (LocalTime d).
Definition getSeconds (d : Date) : Z := SecFromTime (LocalTime d).
End LocalTime.

(** Days of month [m] (1 to 12) of year [y]. *)
Definition daysInMonth (y m : Z) : Z :=
  if m =? 2 then (if isLeapYear y then 29 else 28)
  else if (m =? 4) || (m =? 6) || (m =? 9) || (m =? 11) then 30
  else 31.


(** A calendar-valid civil time: month 1 to 12, a day of that month, and a
    time of day. *)
Definition validCivil (y mo d h mi s : Z) : Prop :=
  1 <= mo <= 12 /\ 1 <= d <= daysInMonth y mo /\
  0 <= h <= 23 /\ 0 <= mi <= 59 /\ 0 <= s <= 59.

End JsDate.

(* ------------------------------------------------------------------ *)
(** ** Characters, [length], [parseInt], [trim] and number printing

    A [string] holds the UTF-8 encoding of the JavaScript string: the
    characters of one byte are those of ASCII, and the white space of
    JavaScript outside ASCII takes two or three bytes. *)

Module JsString.

Definition isDigit (c : ascii) : bool :=
  let n := nat_of_ascii c in (48 <=? n)%nat && (n <=? 57)%nat.

(** The number of UTF-16 code units that begin at byte [b] of a UTF-8
    text: one for a character of one, two or three bytes, two for a
    character of four bytes (a surrogate pair), none for a continuation
    byte. *)
Definition codeUnits (b : ascii) : nat :=
  let n := nat_of_ascii b in
  if (n <? 128)%nat then 1%nat
  else if (n <? 192)%nat then 0%nat
  else if (n <? 240)%nat then 1%nat
  else 2%nat.

(** [s.length] *)
Fixpoint jsLength (s : string) : nat :=
  match s with
  | EmptyString => 0%nat
  | String b r => (codeUnits b + jsLength r)%nat
  end.

(** White space and line terminators, which [\s] matches and [trim]
    removes, by the bytes of their encodings: TAB, LF, VT, FF, CR and
    SPACE take one byte; U+00A0 takes two; U+1680, U+2000 to U+200A,
    U+2028, U+2029, U+202F, U+205F, U+3000 and U+FEFF take three. *)
Definition isSpace1 (a : ascii) : bool :=
  let n := nat_of_ascii a in
  ((9 <=? n)%nat && (n <=? 13)%nat) || (n =? 32)%nat.

Definition isSpace2 (a b : ascii) : bool :=
  (nat_of_ascii a =? 194)%nat && (nat_of_ascii b =? 160)%nat.

Definition isSpace3 (a b c : ascii) : bool :=
  let x := nat_of_ascii a in
  let y := nat_of_ascii b in
  let z := nat_of_ascii c in
  ((x =? 225)%nat && (y =? 154)%nat && (z =? 128)%nat) ||
  ((x =? 226)%nat && (y =? 128)%nat &&
   (((128 <=? z)%nat && (z <=? 138)%nat) || (z =? 168)%nat || (z =? 169)%nat ||
    (z =? 175)%nat)) ||
  ((x =? 226)%nat && (y =? 129)%nat && (z =? 159)%nat) ||
  ((x =? 227)%nat && (y =? 128)%nat && (z =? 128)%nat) ||
  ((x =? 239)%nat && (y =? 187)%nat && (z =? 191)%nat).

(** The white-space character at the head of [s], if there is one, and
    what follows it. *)
Definition splitSpace (s : list ascii) : option (list ascii * list ascii) :=
  match s with
  | a :: r =>
      if isSpace1 a then Some ([a], r)
      else
        match r with
        | b :: r2 =>
            if isSpace2 a b then Some ([a; b], r2)
            else
              match r2 with
              | c :: r3 => if isSpace3 a b c then Some ([a; b; c], r3) else None
              | [] => None
              end
        | [] => None
        end
  | [] => None
  end.

Definition digitValue (c : ascii) : Z := Z.of_nat (nat_of_ascii c) - 48.

(** [Number.parseInt(s, 10)] on a string of decimal digits. *)
Definition parseInt (s : list ascii) : Z :=
  fold_left (fun acc c => 10 * acc + digitValue c) s 0.

(** [s] without the white space at its head. *)
Fixpoint dropSpaces (s : list ascii) : list ascii :=
  match s with
  | a :: r =>
      if isSpace1 a then dropSpaces r
      else
        match r with
        | b :: r2 =>
            if isSpace2 a b then dropSpaces r2
            else
              match r2 with
              | c :: r3 => if isSpace3 a b c then dropSpaces r3 else s
              | [] => s
              end
        | [] => s
        end
  | [] => []
  end.

(** The same on a reversed text, whose characters come last byte first:
    [rev (dropSpacesRev (rev s))] is [s] without the white space at its
    end. *)
Fixpoint dropSpacesRev (s : list ascii) : list ascii :=
  match s with
  | a :: r =>
      if isSpace1 a then dropSpacesRev r
      else
        match r with
        | b :: r2 =>
            if isSpace2 b a then dropSpacesRev r2
            else
              match r2 with
              | c :: r3 => if isSpace3 c b a then dropSpacesRev r3 else s
              | [] => s
              end
        | [] => s
        end
  | [] => []
  end.

Definition trim (s : string) : string :=
  string_of_list_ascii
    (rev (dropSpacesRev (rev (dropSpaces (list_ascii_of_string s))))).

(** [ws] is made of white-space characters only. *)
Definition whiteSpace (ws : list ascii) : Prop := dropSpaces ws = [].

(** Decimal printing of an integer, as a template literal prints it. *)
Definition showZ (n : Z) : string := NilEmpty.string_of_int (Z.to_int n).

Definition nl : string := String (ascii_of_nat 10) "".

Fixpoint join (sep : string) (l : list string) : string :=
  match l with
  | [] => ""
  | [x] => x
  | x :: r => x ++ sep ++ join sep r
  end.

(** [hay.includes(needle)] *)
Fixpoint includes (hay needle : string) : bool :=
  String.prefix needle hay ||
  match hay with
  | EmptyString => false
  | String _ r => includes r needle
  end.

End JsString.

(* ------------------------------------------------------------------ *)
(** ** Regular expressions: backtracking matchers

    A matcher maps the rest of the input to the list of its ways to match
    a prefix of it, in the order in which a backtracking engine tries
    them; each comes with the value captured and the input left. *)

Module Regex.
Import JsString.
Local Open Scope list_scope.

Definition Matcher (A : Type) : Type := list ascii -> list (A * list ascii).

Definition ret {A} (a : A) : Matcher A := fun s => [(a, s)].

Definition bind {A B} (m : Matcher A) (f : A -> Matcher B) : Matcher B :=
  fun s => flat_map (fun x => f (fst x) (snd x)) (m s).

Definition alt {A} (m1 m2 : Matcher A) : Matcher A := fun s => m1 s ++ m2 s.

(** One character of a class. *)
Definition class (p : ascii -> bool) : Matcher ascii :=
  fun s => match s with
           | c :: r => if p c then [(c, r)] else []
           | [] => []
           end.

(** A literal character. *)
Definition chr (c : ascii) : Matcher ascii := class (Ascii.eqb c).

(** [p{n}] *)
Fixpoint exactly (n : nat) (p : ascii -> bool) : Matcher (list ascii) :=
  match n with
  | O => ret []
  | S n' => bind (class p) (fun c => bind (exactly n' p) (fun cs => ret (c :: cs)))
  end.

(** [p{0,n}], greedy: one more character is tried first. *)
Fixpoint upto (n : nat) (p : ascii -> bool) : Matcher (list ascii) :=
  match n with
  | O => ret []
  | S n' => alt (bind (class p) (fun c => bind (upto n' p) (fun cs => ret (c :: cs))))
                (ret [])
  end.

(** [p{lo,hi}], greedy. *)
Definition range (lo hi : nat) (p : ascii -> bool) : Matcher (list ascii) :=
  bind (exactly lo p) (fun a => bind (upto (hi - lo) p) (fun b => ret (a ++ b))).

(** [\s]: one white-space character, captured with the bytes of its
    encoding. *)
Definition space : Matcher (list ascii) :=
  fun s => match splitSpace s with
           | Some x => [x]
           | None => []
           end.

(** [m{0,n}] for a matcher [m] of one character, greedy. *)
Fixpoint uptoOf (n : nat) (m : Matcher (list ascii)) : Matcher (list ascii) :=
  match n with
  | O => ret []
  | S n' => alt (bind m (fun c => bind (uptoOf n' m) (fun cs => ret (c ++ cs))))
                (ret [])
  end.

(** [m+], greedy; the fuel is the length of the input. *)
Definition plus (m : Matcher (list ascii)) : Matcher (list ascii) :=
  fun s => bind m (fun c => bind (uptoOf (List.length s) m) (fun cs => ret (c ++ cs))) s.

(** [(?:r)?], greedy. *)
Definition opt {A} (m : Matcher A) : Matcher (option A) :=
  alt (bind m (fun a => ret (Some a))) (ret None).

(** [$] without the multiline flag. *)
Definition eos : Matcher unit :=
  fun s => match s with [] => [(tt, [])] | _ :: _ => [] end.

(** [str.match(/^.../)]: the first way to match from the start. *)
Definition matchStart {A} (m : Matcher A) (s : string) : option A :=
  match m (list_ascii_of_string s) with
  | [] => None
  | x :: _ => Some (fst x)
  end.


(** [r] does not go on with a character of class [p]. *)
Definition stops (p : ascii -> bool) (r : list ascii) : Prop :=
  match r with
  | [] => True
  | c :: _ => p c = false
  end.

End Regex.

(* ------------------------------------------------------------------ *)
(** ** lib/schedule.ts *)

Module ScheduleParser.
Import JsString Regex.

(** The capture groups of the date-time pattern. *)
Record Captures := mkCaptures {
  cYear : list ascii;
  cMonth : list ascii;
  cDay : list ascii;
  cHour : list ascii;
  cMinute : list ascii;
  cSecond : option (list ascii)
}.

(** [/^(\d{4})\/(\d{1,2})\/(\d{1,2})\s+(\d{1,2}):(\d{1,2})(?::(\d{1,2}))?$/] *)
Definition dateTimeRegex : Matcher Captures :=
  bind (exactly 4 isDigit) (fun year =>
  bind (chr "/") (fun _ =>
  bind (range 1 2 isDigit) (fun month =>
  bind (chr "/") (fun _ =>
  bind (range 1 2 isDigit) (fun day =>
  bind (plus space) (fun _ =>
  bind (range 1 2 isDigit) (fun hour =>
  bind (chr ":") (fun _ =>
  bind (range 1 2 isDigit) (fun minute =>
  bind (opt (bind (chr ":") (fun _ => range 1 2 isDigit))) (fun second =>
  bind eos (fun _ =>
  ret (mkCaptures year month day hour minute second)))))))))))).

Section Parser.
  (** The time zone of the host. *)
Variable tza : JsDate.LocalTZA.

Definition parseDateTime (dateTimeStr : string) : Result Date :=
    if (dateTimeStr =? "")%string || (trim dateTimeStr =? "")%string then
      Err (newError "Invalid datetime format: empty string")
    else
      match matchStart dateTimeRegex dateTimeStr with
      | None => Err (newError ("Invalid datetime format: " ++ dateTimeStr))
      | Some m =>
          let year := parseInt (cYear m) in
          let month := parseInt (cMonth m) in
          let day := parseInt (cDay m) in
          let hour := parseInt (cHour m) in
          let minute := parseInt (cMinute m) in
          let expectedSecond :=
            match cSecond m with Some second => parseInt second | None => 0 end in
          let date := JsDate.newDate tza year (month - 1) day hour minute expectedSecond in
          if negb (JsDate.getFullYear tza date =? year) ||
             negb (JsDate.getMonth tza date =? month - 1) ||
             negb (JsDate.getDate tza date =? day) ||
             negb (JsDate.getHours tza date =? hour) ||
             negb (JsDate.getMinutes tza date =? minute) ||
             negb (JsDate.getSeconds tza date =? expectedSecond)
          then Err (newError ("Invalid datetime format: " ++ dateTimeStr))
          else Ok date
      end.

  (** [userId.length >= 3] (a [string] is never [null] or [undefined]). *)
Definition isValidSlackUserId (userId : string) : bool :=
    (3 <=? jsLength userId)%nat.

Definition validateScheduleRow (row : list string) : Result Schedule :=
    match row with
    | productName :: environmentName :: startDateTimeStr :: endDateTimeStr ::
      personInChargeId :: personInChargeName :: remarks :: _ =>
        match parseDateTime startDateTimeStr with
        | Err e => Err (newError ("Invalid start datetime: " ++ error_message e))
        | Ok startDateTime =>
            match parseDateTime endDateTimeStr with
            | Err e => Err (newError ("Invalid end datetime: " ++ error_message e))
            | Ok endDateTime =>
                if negb (isValidSlackUserId personInChargeId) then
                  Err (newError ("Invalid person in charge ID: " ++ personInChargeId))
                else
                  Ok (mkSchedule productName environmentName startDateTime endDateTime
                                 personInChargeId personInChargeName remarks)
            end
        end
    | _ =>
        Err (newError ("Invalid row data: insufficient columns (expected 7, got "
                       ++ showZ (Z.of_nat (List.length row)) ++ ")"))
    end.
End Parser.


(** *** Vocabulary for the statements about [parseDateTime] *)

Definition secondTail (second : option (list ascii)) : list ascii :=
  match second with
  | Some s => ":"%char :: s
  | None => []
  end.

(** The text made of the captured fields [f], with the white space [ws]
    between date and time. *)
Definition render (f : Captures) (ws : list ascii) : list ascii :=
  (cYear f ++ "/"%char :: cMonth f ++ "/"%char :: cDay f ++ ws ++
   cHour f ++ ":"%char :: cMinute f ++ secondTail (cSecond f))%list.

Definition digits (lo hi : nat) (cs : list ascii) : Prop :=
  (lo <= List.length cs <= hi)%nat /\ forallb isDigit cs = true.

Definition wellFormed (f : Captures) (ws : list ascii) : Prop :=
  digits 4 4 (cYear f) /\ digits 1 2 (cMonth f) /\ digits 1 2 (cDay f) /\
  (ws <> [] /\ whiteSpace ws) /\
  digits 1 2 (cHour f) /\ digits 1 2 (cMinute f) /\
  match cSecond f with Some s => digits 1 2 s | None => True end.

Definition secondValue (f : Captures) : Z :=
  match cSecond f with Some s => parseInt s | None => 0 end.

(** Year, month (1 to 12), day, hour, minute, second: as the digits of the
    input say, and as the getters of a [Date] say. *)
Definition valuesOf (f : Captures) : Z * Z * Z * Z * Z * Z :=
  (parseInt (cYear f), parseInt (cMonth f), parseInt (cDay f),
   parseInt (cHour f), parseInt (cMinute f), secondValue f).

Definition componentsOf (tza : JsDate.LocalTZA) (d : Date) : Z * Z * Z * Z * Z * Z :=
  (JsDate.getFullYear tza d, JsDate.getMonth tza d + 1, JsDate.getDate tza d,
   JsDate.getHours tza d, JsDate.getMinutes tza d, JsDate.getSeconds tza d).

Definition calendarValid (f : Captures) : Prop :=
  JsDate.validCivil (parseInt (cYear f)) (parseInt (cMonth f)) (parseInt (cDay f))
                    (parseInt (cHour f)) (parseInt (cMinute f)) (secondValue f).

(** The local time value that the fields denote. *)
Definition civilTime (f : Captures) : Z :=
  JsDate.MakeDate
    (JsDate.MakeDay (parseInt (cYear f)) (parseInt (cMonth f) - 1) (parseInt (cDay f)))
    (JsDate.MakeTime (parseInt (cHour f)) (parseInt (cMinute f)) (secondValue f) 0).

(** The local time [t] exists on the host: the instant that stands for it
    reads back as [t] to the second.  (With offsets of whole seconds, as
    every time zone has, it reads back as [t] itself; a local time skipped
    by a change of offset, as at the start of daylight saving time, reads
    back as a later one.) *)
Definition localTimeExists (tza : JsDate.LocalTZA) (t : Z) : Prop :=
  t <= JsDate.LocalTime tza (JsDate.UTC tza t) < t + 1000.

(** The pattern as the specification words it, [YYYY/MM/DD HH:MM] or
    [YYYY/MM/DD HH:MM:SS] with one space between date and time; it is
    compared with [dateTimeRegex], which is the pattern of the source. *)
Definition specDateTimePattern : Matcher Captures :=
  bind (exactly 4 isDigit) (fun year =>
  bind (chr "/") (fun _ =>
  bind (range 1 2 isDigit) (fun month =>
  bind (chr "/") (fun _ =>
  bind (range 1 2 isDigit) (fun day =>
  bind (chr " ") (fun _ =>
  bind (range 1 2 isDigit) (fun hour =>
  bind (chr ":") (fun _ =>
  bind (range 1 2 isDigit) (fun minute =>
  bind (opt (bind (chr ":") (fun _ => range 1 2 isDigit))) (fun second =>
  bind eos (fun _ =>
  ret (mkCaptures year month day hour minute second)))))))))))).

Definition matchesSpecPattern (s : string) : bool :=
  match matchStart specDateTimePattern s with
  | Some _ => true
  | None => false
  end.

End ScheduleParser.

(* ------------------------------------------------------------------ *)
(** ** utils/date.ts *)

Module DateUtils.

(** [current >= start && current < end] *)
Definition isWithinTimeRange (current start end_ : Date) : bool :=
  (current >=? start) && (current <? end_).

Definition findActiveSchedules (schedules : list Schedule) (currentTime : Date) : list Schedule :=
  filter (fun schedule =>
            isWithinTimeRange currentTime (startDateTime schedule) (endDateTime schedule))
         schedules.

(** The body of the inner loop of [findOverlappingSchedules], at indices
    [i] and [j]: what it pushes on [overlaps]. *)
Definition overlapStep (schedules : list Schedule) (i j : nat) : list (list Schedule) :=
  match nth_error schedules i, nth_error schedules j with
  | Some schedule1, Some schedule2 =>
      if negb (environmentName schedule1 =? environmentName schedule2)%string then []
      else
        let overlap :=
          (startDateTime schedule1 <? endDateTime schedule2) &&
          (startDateTime schedule2 <? endDateTime schedule1) in
        if overlap then [[schedule1; schedule2]] else []
  | _, _ => []
  end.

(** [for (let i = 0; i < n; i++) for (let j = i + 1; j < n; j++) ...] *)
Definition findOverlappingSchedules (schedules : list Schedule) : list (list Schedule) :=
  let n := List.length schedules in
  flat_map (fun i => flat_map (fun j => overlapStep schedules i j)
                              (seq (i + 1) (n - (i + 1))%nat))
           (seq 0 n).

Inductive ScheduleStatus := NOT_STARTED | ACTIVE | COMPLETED.

Definition getScheduleStatus (schedule : Schedule) (currentTime : Date) : ScheduleStatus :=
  if currentTime <? startDateTime schedule then NOT_STARTED
  else if currentTime >=? endDateTime schedule then COMPLETED
  else ACTIVE.

(** The overlap test on two schedules, as a proposition. *)
Definition overlapping (a b : Schedule) : Prop :=
  environmentName a = environmentName b /\
  startDateTime a < endDateTime b /\
  startDateTime b < endDateTime a.


(** *** Vocabulary for the statements about [findOverlappingSchedules] *)

(** Whether the inner loop pushes a pair at indices [i] and [j]. *)
Definition overlapAt (schedules : list Schedule) (i j : nat) : bool :=
  match overlapStep schedules i j with
  | [] => false
  | _ :: _ => true
  end.

(** The index pairs at which a pair is pushed, in the order of the loops. *)
Definition overlapIndices (schedules : list Schedule) : list (nat * nat) :=
  let n := List.length schedules in
  flat_map (fun i => flat_map (fun j => if overlapAt schedules i j then [(i, j)] else [])
                              (seq (i + 1) (n - (i + 1))%nat))
           (seq 0 n).

(** [p] is the two-element array of the schedules at the indices [ij]. *)
Definition pairAt (schedules : list Schedule) (ij : nat * nat) (p : list Schedule) : Prop :=
  exists a b, nth_error schedules (fst ij) = Some a /\
              nth_error schedules (snd ij) = Some b /\ p = [a; b].

End DateUtils.

(* ------------------------------------------------------------------ *)
(** ** lib/slack.ts, lib/sheets.ts and services/release-checker.ts

    The clients are taken by their interfaces [SheetsClient] and
    [SlackClient]: every method resolves to a [Result] (the two
    implementations of the repository turn every exception of the
    underlying API into an [Err]).  Under these interfaces no statement
    inside the [try] block of [checkRelease] throws, which leaves its
    [catch] clause without effect.  Calls to [logger] only write to the
    console and are left out. *)

Module ReleaseChecker.
Import JsString DateUtils.

(** A JavaScript number, that is a double: a finite one by its value,
    [NaN], or an infinity.  (The two zeros are not told apart: nothing
    in this code does.)  The finite doubles are the rationals that
    [roundDouble] leaves unchanged. *)
Inductive number :=
| Num (q : Q)
| NaN
| Infinity (negative : bool).

(** The double of an integer: itself, as for every integer below 2^53 in
    absolute value; the times and the constants of this code are such. *)
Definition numZ (z : Z) : number := Num (inject_Z z).

(** [2 ^ k] for an integer [k] of either sign. *)
Definition pow2 (k : Z) : Q :=
  if 0 <=? k then inject_Z (2 ^ k) else 1 # Z.to_pos (2 ^ (- k)).

(** [a / d < 2 ^ k], for positive [a] and [d]. *)
Definition belowPow2 (a d k : Z) : bool :=
  if 0 <=? k then a <? d * 2 ^ k else a * 2 ^ (- k) <? d.

(** The double nearest to [a / d] (positive [a] and [d]) with the sign
    given, ties going to the even significand (IEEE 754 binary64,
    round to nearest): [e] is the exponent of [a / d], [2 ^ p] the unit
    in the last place of the doubles of that exponent (the smallest
    positive double is [2 ^ -1074]), [m'] the significand rounded; what
    reaches [2 ^ 1024] becomes an infinity. *)
Definition roundMagnitude (negative : bool) (a d : Z) : number :=
  let e0 := Z.log2 a - Z.log2 d in
  let e := if belowPow2 a d e0 then e0 - 1 else e0 in
  let p := Z.max (e - 52) (-1074) in
  let num := if p <? 0 then a * 2 ^ (- p) else a in
  let den := if p <? 0 then d else d * 2 ^ p in
  let m := num / den in
  let r := num mod den in
  let m' := if 2 * r <? den then m
            else if den <? 2 * r then m + 1
            else if Z.even m then m else m + 1 in
  if (1024 <=? e) || ((e =? 1023) && (m' =? 2 ^ 53)) then Infinity negative
  else Num (Qred (inject_Z (if negative then - m' else m') * pow2 p)).

(** The double that an operation gives whose exact result is [q]. *)
Definition roundDouble (q : Q) : number :=
  match Qnum q with
  | Z0 => Num 0
  | Zpos a => roundMagnitude false (Zpos a) (Zpos (Qden q))
  | Zneg a => roundMagnitude true (Zpos a) (Zpos (Qden q))
  end.

(** [a * b] *)
Definition mulNumber (a b : number) : number :=
  match a, b with
  | Num x, Num y => roundDouble (x * y)
  | Infinity s, Infinity t => Infinity (xorb s t)
  | Infinity s, Num y | Num y, Infinity s =>
      if Qeq_bool y 0 then NaN else Infinity (xorb s (Qle_bool y 0))
  | _, _ => NaN
  end.

(** [a < b]: false as soon as one side is [NaN]. *)
Definition ltNumber (a b : number) : bool :=
  match a, b with
  | Num x, Num y => negb (Qle_bool y x)
  | Num _, Infinity negative => negb negative
  | Infinity negative, Num _ => negative
  | Infinity s, Infinity t => s && negb t
  | _, _ => false
  end.

Definition truthyNumber (n : number) : bool :=
  match n with
  | Num q => negb (Qeq_bool q 0)
  | NaN => false
  | Infinity _ => true
  end.

Definition truthyString (s : string) : bool := negb (s =? "")%string.

(** [x || d] on an optional number and on an optional string. *)
Definition orNumber (x : option number) (d : number) : number :=
  match x with
  | Some n => if truthyNumber n then n else d
  | None => d
  end.

Definition orString (x : option string) (d : string) : string :=
  match x with
  | Some s => if truthyString s then s else d
  | None => d
  end.

Record MessageInfo := mkMessageInfo {
  channel : string;
  timestamp : string
}.

Record Reaction := mkReaction {
  name : string;
  count : Z;
  users : list string
}.

Record UserInfo := mkUserInfo {
  userId : string;
  userName : string
}.

Record ReleaseCheckConfig := mkConfig {
  configProductName : string;
  configEnvironmentName : string;
  requesterUserId : option string;
  waitMinutes : option number;
  approveReaction : option string;
  rejectReaction : option string;
  timezone : option string
}.

Inductive Status := approved | rejected | timeout | no_schedule.

Record ReleaseCheckResult := mkReleaseCheckResult {
  status : Status;
  message : string;
  approvers : option (list string);
  schedules : option (list Schedule)
}.

(** [status] of an [ApprovalResult] is never [no_schedule]. *)
Record ApprovalResult := mkApprovalResult {
  approvalStatus : Status;
  approvalApprovers : option (list string)
}.

(** *** The world outside: clock, clients, and what has been asked of them *)

Inductive Call :=
| FetchSchedules (response : Result (list Schedule))
| PostMessage (channelId text : string) (mentions : list string) (response : Result MessageInfo)
| GetReactions (channelId messageTimestamp : string) (response : Result (list Reaction))
| PostThreadMessage (channelId threadTs text : string) (response : Result MessageInfo)
| GetUserInfo (user : string) (response : Result UserInfo)
| SetTimeout (ms : Z).

Record Event := mkEvent {
  issuedAt : Z;
  call : Call
}.

(** [clock] is what [Date.now()] reads; [events] lists the awaited calls,
    oldest first. *)
Record World := mkWorld {
  clock : Z;
  events : list Event
}.

(** The behaviour of the host and of the two clients: each answer may
    depend on the arguments, on the time and on everything that was asked
    before.  [utcOffset tz t] is the offset in minutes of zone [tz] at
    instant [t], [None] for a zone the host does not know; [latency] is
    the time an awaited call takes to resolve, and by how much a timer
    fires late.  The clients are those of the two interfaces whose
    promises resolve, with a [Result]: so do the two clients of the
    repository, whose methods catch what their API throws (see
    [Clients.services]). *)
Record Env := mkEnv {
  utcOffset : string -> Z -> option Z;
  numberToString : number -> string;
  fetchSchedules : World -> Result (list Schedule);
  postMessage : string -> string -> list string -> World -> Result MessageInfo;
  getReactions : string -> string -> World -> Result (list Reaction);
  postThreadMessage : string -> string -> string -> World -> Result MessageInfo;
  getUserInfo : string -> World -> Result UserInfo;
  latency : World -> N
}.

(** Computations on the world; [None] when the fuel of the polling loop
    runs out. *)
Definition M (A : Type) : Type := World -> option (A * World).

Definition mret {A} (a : A) : M A := fun w => Some (a, w).

Definition mbind {A B} (m : M A) (f : A -> M B) : M B :=
  fun w => match m w with
           | Some (a, w') => f a w'
           | None => None
           end.

Notation "x <- m ;; k" := (mbind m (fun x => k))
  (at level 61, m at next level, right associativity).
Notation "m ;;; k" := (mbind m (fun _ => k))
  (at level 61, right associativity).

Section Run.
Variable env : Env.

  (** [Date.now()] *)
Definition dateNow : M Z := fun w => Some (clock w, w).

  (** [await client.method(...)]: the answer is taken from [env], the call
      is recorded, the clock moves on. *)
Definition await {A} (respond : World -> A) (record : A -> Call) : M A :=
    fun w =>
      let r := respond w in
      Some (r, mkWorld (clock w + Z.of_N (latency env w))
                       (events w ++ [mkEvent (clock w) (record r)])%list).

  (** [await new Promise((resolve) => setTimeout(resolve, ms))] *)
Definition sleep (ms : Z) : M unit :=
    fun w =>
      Some (tt, mkWorld (clock w + Z.max 0 ms + Z.of_N (latency env w))
                        (events w ++ [mkEvent (clock w) (SetTimeout ms)])%list).

  (** utils/date.ts, [getCurrentDateTime]: the current instant shifted by
      the offset of the zone; [dayjs.tz] throws on an unknown zone. *)
Definition getCurrentDateTime (timezoneStr : string) : M (Result Date) :=
    now <- dateNow ;;
    match utcOffset env timezoneStr now with
    | Some offsetMinutes => mret (Ok (now + offsetMinutes * 60000))
    | None =>
        mret (Err (MkError ValidationError ("Invalid timezone: " ++ timezoneStr)
                           (Some "timezone")))
    end.

Definition findRelevantSchedules (schedules : list Schedule)
      (productName_ environmentName_ : string) (currentTime : Date) : list Schedule :=
    let relevantSchedules :=
      filter (fun schedule =>
                (productName schedule =? productName_)%string &&
                (environmentName schedule =? environmentName_)%string)
             schedules in
    findActiveSchedules relevantSchedules currentTime.

  (** [[...new Set(xs)]]: the first occurrence of each element is kept. *)
Fixpoint uniqueFrom (seen xs : list string) : list string :=
    match xs with
    | [] => []
    | x :: r =>
        if existsb (String.eqb x) seen then uniqueFrom seen r
        else x :: uniqueFrom (x :: seen) r
    end.
Definition unique (xs : list string) : list string := uniqueFrom [] xs.

Definition approvalMessage (schedules : list Schedule) (config : ReleaseCheckConfig) : string :=
    let scheduleList :=
      join nl (map (fun s => "• " ++ productName s ++ " (" ++ personInChargeName s ++ ")")
                   schedules) in
    let requesterLine :=
      match requesterUserId config with
      | Some r => if truthyString r then "👤 *Requested by:* <@" ++ r ++ ">" ++ nl else ""
      | None => ""
      end in
    "🚀 *Release Request*" ++ nl ++
    nl ++
    "📦 *Product:* " ++ configProductName config ++ nl ++
    "🌍 *Environment:* " ++ configEnvironmentName config ++ nl ++
    requesterLine ++ nl ++
    "📅 *Active Schedules:*" ++ nl ++
    scheduleList ++ nl ++
    nl ++
    "━━━━━━━━━━━━━━━━━━━━━━━━━━" ++ nl ++
    "✅ React with :" ++ orString (approveReaction config) "ok" ++ ": to *approve*" ++ nl ++
    "❌ React with :" ++ orString (rejectReaction config) "-1" ++ ": to *reject*" ++ nl ++
    "⏰ Timeout: " ++ numberToString env (orNumber (waitMinutes config) (numZ 20)) ++ " minutes".

Definition requestApproval (schedules : list Schedule) (config : ReleaseCheckConfig)
      (channelId : string) : M (Result MessageInfo) :=
    let personIds := unique (map personInChargeId schedules) in
    let message := approvalMessage schedules config in
    await (postMessage env channelId message personIds)
          (PostMessage channelId message personIds).

  (** [xs.filter((userId) => !excludeUserIds.includes(userId))] *)
Definition notExcluded (excludeUserIds : list string) (xs : list string) : list string :=
    filter (fun userId => negb (existsb (String.eqb userId) excludeUserIds)) xs.

Section Polling.
Variables (channelId messageTimestamp : string) (excludeUserIds : list string).
Variables (approveReaction_ rejectReaction_ : string).
Variables (pollIntervalMs startTime : Z) (timeoutMs : number).

    (** What follows a successful [getReactions] in the body of the
        [while] loop, up to the final sleep: [Some r] stands for
        [return r], [None] for reaching the sleep. *)
Definition decide (reactions : list Reaction) : M (option ApprovalResult) :=
      let rejections := filter (fun r => (name r =? rejectReaction_)%string) reactions in
      let rejectors := notExcluded excludeUserIds (flat_map users rejections) in
      let approvals := filter (fun r => (name r =? approveReaction_)%string) reactions in
      let approvers_ := notExcluded excludeUserIds (flat_map users approvals) in
      match (if (0 <? List.length rejections)%nat then rejectors else []) with
      | firstRejector :: _ =>
          userInfoResult <- await (getUserInfo env firstRejector) (GetUserInfo firstRejector) ;;
          let userName_ :=
            match userInfoResult with Ok u => userName u | Err _ => "Unknown User" end in
          let text := "❌ <@" ++ firstRejector ++ "> (" ++ userName_ ++ ") が拒否しました" in
          _ <- await (postThreadMessage env channelId messageTimestamp text)
                     (PostThreadMessage channelId messageTimestamp text) ;;
          mret (Some (mkApprovalResult rejected (Some rejectors)))
      | [] =>
          match (if (0 <? List.length approvals)%nat then approvers_ else []) with
          | firstApprover :: _ =>
              userInfoResult <- await (getUserInfo env firstApprover) (GetUserInfo firstApprover) ;;
              let userName_ :=
                match userInfoResult with Ok u => userName u | Err _ => "Unknown User" end in
              let text := "✅ <@" ++ firstApprover ++ "> (" ++ userName_ ++ ") が承認しました" in
              _ <- await (postThreadMessage env channelId messageTimestamp text)
                         (PostThreadMessage channelId messageTimestamp text) ;;
              mret (Some (mkApprovalResult approved (Some approvers_)))
          | [] => mret None
          end
      end.

    (** [while (Date.now() - startTime < timeoutMs) { ... }] followed by
        [return { status: 'timeout' }]; one unit of fuel per test of the
        loop condition. *)
Fixpoint pollLoop (fuel : nat) : M ApprovalResult :=
      match fuel with
      | O => fun _ => None
      | S fuel' =>
          now <- dateNow ;;
          if ltNumber (numZ (now - startTime)) timeoutMs then
            reactionsResult <- await (getReactions env channelId messageTimestamp)
                                     (GetReactions channelId messageTimestamp) ;;
            match reactionsResult with
            | Err _ => sleep pollIntervalMs ;;; pollLoop fuel'
            | Ok reactions =>
                decision <- decide reactions ;;
                match decision with
                | Some result => mret result
                | None => sleep pollIntervalMs ;;; pollLoop fuel'
                end
            end
          else mret (mkApprovalResult timeout None)
      end.
End Polling.

Definition defaultPollIntervalMs : Z := 15 * 1000.

Definition waitForApproval (fuel : nat) (channelId messageTimestamp : string)
      (excludeUserIds : list string) (approveReaction_ rejectReaction_ : string)
      (waitMinutes_ : number) (pollIntervalMs : Z) : M ApprovalResult :=
    let timeoutMs := mulNumber (mulNumber waitMinutes_ (numZ 60)) (numZ 1000) in
    startTime <- dateNow ;;
    pollLoop channelId messageTimestamp excludeUserIds approveReaction_ rejectReaction_
             pollIntervalMs startTime timeoutMs fuel.

  (** [approvalResult.approvers?.join(', ') || 'unknown'] *)
Definition approverNames (a : option (list string)) : string :=
    orString (option_map (join ", ") a) "unknown".

  (** [checkRelease]: with clients whose promises resolve nothing in the
      body throws, so the [catch] clause, which answers an exception with
      the [NetworkError] "Unexpected error", is not entered; it has no
      counterpart here. *)
Definition checkRelease (fuel : nat) (config : ReleaseCheckConfig) (channelId : string)
      : M (Result ReleaseCheckResult) :=
    let timezone_ := orString (timezone config) "Asia/Tokyo" in
    let waitMinutes_ := orNumber (waitMinutes config) (numZ 20) in
    let approveReaction_ := orString (approveReaction config) "ok" in
    let rejectReaction_ := orString (rejectReaction config) "-1" in
    currentTimeResult <- getCurrentDateTime timezone_ ;;
    match currentTimeResult with
    | Err e => mret (Err e)
    | Ok currentTime =>
        schedulesResult <- await (fetchSchedules env) FetchSchedules ;;
        match schedulesResult with
        | Err e =>
            let notice :=
              "⚠️ Error occurred while checking schedules: " ++ error_message e ++ nl ++
              "Proceeding with release for availability." in
            _ <- await (postMessage env channelId notice []) (PostMessage channelId notice []) ;;
            mret (Ok (mkReleaseCheckResult approved
                        "Release approved - proceeding due to error (availability-first policy)"
                        None None))
        | Ok allSchedules =>
            let relevantSchedules :=
              findRelevantSchedules allSchedules (configProductName config)
                                    (configEnvironmentName config) currentTime in
            if (List.length relevantSchedules =? 0)%nat then
              mret (Ok (mkReleaseCheckResult no_schedule
                          ("No active schedules found for " ++ configProductName config ++
                           " in " ++ configEnvironmentName config ++
                           " environment. Release approved.")
                          None (Some [])))
            else
              messageResult <- requestApproval relevantSchedules config channelId ;;
              match messageResult with
              | Err e =>
                  mret (Err (MkErrorCause NetworkError
                               "Failed to post approval request to Slack" e))
              | Ok messageInfo =>
                  let excludeUserIds :=
                    match requesterUserId config with
                    | Some r => if truthyString r then [r] else []
                    | None => []
                    end in
                  approvalResult <- waitForApproval fuel channelId (timestamp messageInfo)
                                      excludeUserIds approveReaction_ rejectReaction_
                                      waitMinutes_ defaultPollIntervalMs ;;
                  let resultMessage :=
                    match approvalStatus approvalResult with
                    | approved =>
                        "Release approved by: " ++ approverNames (approvalApprovers approvalResult)
                    | rejected =>
                        "Release rejected by: " ++ approverNames (approvalApprovers approvalResult)
                    | _ =>
                        "Release request timed out after " ++ numberToString env waitMinutes_ ++
                        " minutes. No response received."
                    end in
                  mret (Ok (mkReleaseCheckResult (approvalStatus approvalResult) resultMessage
                              (approvalApprovers approvalResult) (Some relevantSchedules)))
              end
        end
    end.
End Run.

(** The events a run added to the world. *)
Definition newEvents (w w' : World) : list Event :=
  skipn (List.length (events w)) (events w').

Definition isPost (c : Call) : bool :=
  match c with
  | PostMessage _ _ _ _ | PostThreadMessage _ _ _ _ => true
  | _ => false
  end.

(** A counted decisive reaction: named [token], with at least one user
    outside [excludeUserIds]. *)
Definition counted (excludeUserIds : list string) (token : string) (r : Reaction) : Prop :=
  name r = token /\ exists u, In u (users r) /\ ~ In u excludeUserIds.

Definition decisive (excludeUserIds : list string) (approveToken rejectToken : string)
    (reactions : list Reaction) : Prop :=
  exists r, In r reactions /\
            (counted excludeUserIds rejectToken r \/ counted excludeUserIds approveToken r).


(** *** Vocabulary for the statements about the release check *)

(** The world once a call awaited in [w] has resolved, and once a timer
    set in [w] has fired. *)
Definition after (env : Env) (w : World) (c : Call) : World :=
  mkWorld (clock w + Z.of_N (latency env w)) (events w ++ [mkEvent (clock w) c])%list.

Definition afterSleep (env : Env) (w : World) (ms : Z) : World :=
  mkWorld (clock w + Z.max 0 ms + Z.of_N (latency env w))
          (events w ++ [mkEvent (clock w) (SetTimeout ms)])%list.

(** Some reaction named [token] has a user outside [excludeUserIds]. *)
Definition countedBy (excludeUserIds : list string) (token : string)
    (reactions : list Reaction) : Prop :=
  exists r, In r reactions /\ counted excludeUserIds token r.

(** The users outside [excludeUserIds] of the reactions named [token]:
    the expression [rejectors] (and [approvers]) of the source. *)
Definition votersOf (excludeUserIds : list string) (token : string)
    (reactions : list Reaction) : list string :=
  notExcluded excludeUserIds
    (flat_map users (filter (fun r => (name r =? token)%string) reactions)).

(** Milliseconds left before an elapsed time reaches a finite timeout. *)
Definition remaining (timeoutMs : number) (elapsed : Z) : Z :=
  match timeoutMs with
  | Num q => Z.max 0 (Qceiling q - elapsed)
  | _ => 0
  end.

(** Fuel that lets the polling loop reach its end, when the timeout is
    not the positive infinity. *)
Definition ticksBound (timeoutMs : number) (pollIntervalMs : Z) : nat :=
  match timeoutMs with
  | Num q => Z.to_nat (Z.max 0 (Qceiling q) / pollIntervalMs) + 2
  | _ => 1
  end.

(** A response of [getReactions] that decides nothing: an error, or
    reactions none of which is counted. *)
Definition undecided (excludeUserIds : list string) (approveToken rejectToken : string)
    (response : Result (list Reaction)) : Prop :=
  forall reactions, response = Ok reactions ->
                    ~ decisive excludeUserIds approveToken rejectToken reactions.

Definition isGetReactions (c : Call) : bool :=
  match c with GetReactions _ _ _ => true | _ => false end.

Definition resolvedTimezone (config : ReleaseCheckConfig) : string :=
  orString (timezone config) "Asia/Tokyo".

Definition fallbackResult : ReleaseCheckResult :=
  mkReleaseCheckResult approved
    "Release approved - proceeding due to error (availability-first policy)" None None.

Definition errorNotice (e : Error) : string :=
  "⚠️ Error occurred while checking schedules: " ++ error_message e ++ nl ++
  "Proceeding with release for availability.".

Definition noScheduleResult (config : ReleaseCheckConfig) : ReleaseCheckResult :=
  mkReleaseCheckResult no_schedule
    ("No active schedules found for " ++ configProductName config ++
     " in " ++ configEnvironmentName config ++ " environment. Release approved.")
    None (Some []).


(** The thread reply of the source for a decision: [mark] and [verb] are
    those of the rejection or of the approval. *)
Definition replyText (mark user : string) (info : Result UserInfo) (verb : string) : string :=
  mark ++ " <@" ++ user ++ "> (" ++
  match info with Ok u => userName u | Err _ => "Unknown User" end ++ ") " ++ verb.

End ReleaseChecker.

(* ------------------------------------------------------------------ *)
(** ** Exceptions of the underlying APIs, and [Number.parseInt] *)

Module JsHost.
Import JsString ReleaseChecker.

(** What was thrown, as a [catch] clause sees it:
    [error instanceof Error ? error.message : 'Unknown error occurred']. *)
Inductive Thrown :=
| ThrownError (message : string)
| ThrownOther.

Definition thrownMessage (t : Thrown) : string :=
  match t with
  | ThrownError m => m
  | ThrownOther => "Unknown error occurred"
  end.

(** A call of an API method returns a value or throws. *)
Inductive Outcome (A : Type) :=
| Returned (value : A)
| Threw (t : Thrown).
Arguments Returned {A} value.
Arguments Threw {A} t.

(** [a || b] on optional strings. *)
Definition orElse (a b : option string) : option string :=
  match a with
  | Some s => if truthyString s then a else b
  | None => b
  end.

(** [!x] on an optional string. *)
Definition falsy (x : option string) : bool :=
  match x with
  | Some s => negb (truthyString s)
  | None => true
  end.

Definition isHexDigit (c : ascii) : bool :=
  let n := nat_of_ascii c in
  isDigit c || ((65 <=? n)%nat && (n <=? 70)%nat) || ((97 <=? n)%nat && (n <=? 102)%nat).

Definition hexValue (c : ascii) : Z :=
  let n := Z.of_nat (nat_of_ascii c) in
  if isDigit c then n - 48
  else if n <=? 70 then n - 55
  else n - 87.

Fixpoint takeWhile (p : ascii -> bool) (s : list ascii) : list ascii :=
  match s with
  | c :: r => if p c then c :: takeWhile p r else []
  | [] => []
  end.

(** [Number.parseInt(s)] without a radix: leading white space and a sign
    are dropped, "0x" or "0X" selects base 16, and the longest run of
    digits of the base is read; no digit gives [NaN], and the integer read
    is rounded to a double, an infinity when it is too large for one.
    (For a run of more than 20 decimal digits the language lets an
    implementation read the digits after the 20th as zeros; all the
    digits are read here.) *)
Definition parseIntJs (s : string) : number :=
  let s1 := dropSpaces (list_ascii_of_string s) in
  let (negative, s2) :=
    match s1 with
    | "-"%char :: r => (true, r)
    | "+"%char :: r => (false, r)
    | _ => (false, s1)
    end in
  let (hex, s3) :=
    match s2 with
    | "0"%char :: "x"%char :: r => (true, r)
    | "0"%char :: "X"%char :: r => (true, r)
    | _ => (false, s2)
    end in
  let ds := takeWhile (if hex then isHexDigit else isDigit) s3 in
  match ds with
  | [] => NaN
  | _ :: _ =>
      let v := if hex then fold_left (fun acc c => 16 * acc + hexValue c) ds 0
               else parseInt ds in
      roundDouble (inject_Z (if negative then - v else v))
  end.

End JsHost.

(* ------------------------------------------------------------------ *)
(** ** lib/sheets.ts: [GoogleSheetsClient] and [createSheetsClient] *)

Module SheetsClient.
Import JsString ScheduleParser JsHost ReleaseChecker.

(** [api.getValues(spreadsheetId, range)]: the rows, possibly a falsy
    value in their place, or an exception. *)
Definition GoogleSheetsApi : Type :=
  string -> string -> Outcome (option (list (list string))).

Section Client.
Variable tza : JsDate.LocalTZA.
Variable api : GoogleSheetsApi.
Variables spreadsheetId sheetName : string.

(** The loop over [dataRows.entries()]: the schedules pushed, and the
    warnings written with [console.warn], both in the order of the rows. *)
Fixpoint validateRows (index : nat) (dataRows : list (list string))
    : list Schedule * list string :=
  match dataRows with
  | [] => ([], [])
  | row :: more =>
      let rowNumber := Z.of_nat index + 2 in
      let rest := validateRows (S index) more in
      match validateScheduleRow tza row with
      | Ok value => (value :: fst rest, snd rest)
      | Err e =>
          (fst rest, ("Row " ++ showZ rowNumber ++ ": " ++ error_message e) :: snd rest)
      end
  end.

(** [fetchSchedules()], with the warnings it writes. *)
Definition fetchSchedules : Result (list Schedule) * list string :=
  let range := sheetName ++ "!A:G" in
  match api spreadsheetId range with
  | Threw t =>
      (Err (newError ("Failed to fetch schedules from Google Sheets: " ++ thrownMessage t)),
       [])
  | Returned None => (Ok [], [])
  | Returned (Some rawData) =>
      if (List.length rawData =? 0)%nat then (Ok [], [])
      else
        let dataRows := skipn 1 rawData in
        let done := validateRows 0 dataRows in
        (Ok (fst done), snd done)
  end.
End Client.

(** Vocabulary: the schedules of the rows that validate, in the order of
    the rows. *)
Definition accepted (tza : JsDate.LocalTZA) (rows : list (list string)) : list Schedule :=
  flat_map (fun row => match validateScheduleRow tza row with
                       | Ok value => [value]
                       | Err _ => []
                       end) rows.

Section Factory.
(** An API object, whose answers may change with the world; the
    service-account credentials, and [new GoogleSheetsApiImpl(credentials)],
    which returns the object or throws what the library's constructors
    throw. *)
Variable Api : Type.
Variable Credentials : Type.
Variable GoogleSheetsApiImpl : Credentials -> Outcome Api.

(** The fields of a [GoogleSheetsClient]. *)
Record Client := mkClient {
  clientApi : Api;
  clientSpreadsheetId : string;
  clientSheetName : string
}.

(** [credentials] and [api] are [None] when absent or falsy. *)
Record SheetsClientConfig := mkSheetsClientConfig {
  configCredentials : option Credentials;
  configApi : option Api;
  configSpreadsheetId : string;
  configSheetName : option string
}.

Definition createSheetsClient (config : SheetsClientConfig) : Outcome Client :=
  match configApi config, configCredentials config with
  | None, None => Threw (ThrownError "Either api or credentials must be provided")
  | Some api, _ =>
      Returned (mkClient api (configSpreadsheetId config)
                         (orString (configSheetName config) "シート1"))
  | None, Some credentials =>
      match GoogleSheetsApiImpl credentials with
      | Returned api =>
          Returned (mkClient api (configSpreadsheetId config)
                             (orString (configSheetName config) "シート1"))
      | Threw t => Threw t
      end
  end.
End Factory.
Arguments mkClient {Api} _ _ _.
Arguments clientApi {Api} _.
Arguments clientSpreadsheetId {Api} _.
Arguments clientSheetName {Api} _.

End SheetsClient.

(* ------------------------------------------------------------------ *)
(** ** lib/slack.ts: [SlackWebClient] *)

Module SlackWebClient.
Import JsString JsHost ReleaseChecker.

(** The answers of the Slack Web API wrapper [SlackApi]. *)
Record PostResponse := mkPostResponse {
  postOk : bool;
  postChannel : option string;
  postTs : option string;
  postError : option string
}.

(** [message] and, inside it, [reactions] may be missing. *)
Record ReactionsResponse := mkReactionsResponse {
  reactionsOk : bool;
  reactionsMessage : option (option (list Reaction));
  reactionsError : option string
}.

Record UserResponse := mkUserResponse {
  userOk : bool;
  userUser : option UserInfo;
  userError : option string
}.

Record SlackApi := mkSlackApi {
  apiPostMessage : string -> string -> Outcome PostResponse;
  apiGetReactions : string -> string -> Outcome ReactionsResponse;
  apiPostThreadMessage : string -> string -> string -> Outcome PostResponse;
  apiGetUserInfo : string -> Outcome UserResponse
}.

Section Client.
Variable api : SlackApi.

(** [mentions.length > 0 ? `${mentions.map((id) => `<@${id}>`).join(' ')} ${text}` : text] *)
Definition textWithMentions (text : string) (mentions : list string) : string :=
  if (0 <? List.length mentions)%nat
  then join " " (map (fun id => "<@" ++ id ++ ">") mentions) ++ " " ++ text
  else text.

Definition postMessage (channel_ text : string) (mentions : list string)
    : Result MessageInfo :=
  match apiPostMessage api channel_ (textWithMentions text mentions) with
  | Threw t => Err (newError ("Failed to post message to Slack: " ++ thrownMessage t))
  | Returned response =>
      match postChannel response, postTs response with
      | Some c, Some t =>
          if negb (postOk response) || negb (truthyString c) || negb (truthyString t)
          then Err (newError ("Failed to post message: " ++
                              orString (postError response) "Unknown error"))
          else Ok (mkMessageInfo c t)
      | _, _ =>
          Err (newError ("Failed to post message: " ++
                         orString (postError response) "Unknown error"))
      end
  end.

Definition getReactions (channel_ timestamp_ : string) : Result (list Reaction) :=
  match apiGetReactions api channel_ timestamp_ with
  | Threw t => Err (newError ("Failed to get reactions from Slack: " ++ thrownMessage t))
  | Returned response =>
      if negb (reactionsOk response)
      then Err (newError ("Failed to get reactions: " ++
                          orString (reactionsError response) "Unknown error"))
      else
        match reactionsMessage response with
        | Some (Some reactions) => Ok reactions
        | _ => Ok []
        end
  end.

Definition postThreadMessage (channel_ threadTs text : string) : Result MessageInfo :=
  match apiPostThreadMessage api channel_ threadTs text with
  | Threw t => Err (newError ("Failed to post thread message to Slack: " ++ thrownMessage t))
  | Returned response =>
      match postChannel response, postTs response with
      | Some c, Some t =>
          if negb (postOk response) || negb (truthyString c) || negb (truthyString t)
          then Err (newError ("Failed to post thread message: " ++
                              orString (postError response) "Unknown error"))
          else Ok (mkMessageInfo c t)
      | _, _ =>
          Err (newError ("Failed to post thread message: " ++
                         orString (postError response) "Unknown error"))
      end
  end.

Definition getUserInfo (userId_ : string) : Result UserInfo :=
  match apiGetUserInfo api userId_ with
  | Threw t => Err (newError ("Failed to get user info from Slack: " ++ thrownMessage t))
  | Returned response =>
      match userUser response with
      | Some u =>
          if negb (userOk response)
          then Err (newError ("Failed to get user info: " ++
                              orString (userError response) "Unknown error"))
          else Ok (mkUserInfo (userId u) (userName u))
      | None =>
          Err (newError ("Failed to get user info: " ++
                         orString (userError response) "Unknown error"))
      end
  end.
End Client.

Section Factory.
(** An API object, and [new SlackApiImpl(token)], which returns the
    object or throws what the library's constructor throws. *)
Variable Api : Type.
Variable SlackApiImpl : string -> Outcome Api.

(** [createSlackClient(config)]: [api] is [None] when absent; the client
    is given by its API. *)
Definition createSlackClient (token : option string) (api : option Api) : Outcome Api :=
  match api with
  | Some a => Returned a
  | None =>
      if truthyString (orString token "")
      then SlackApiImpl (orString token "")
      else Threw (ThrownError "Either api or token must be provided")
  end.
End Factory.

End SlackWebClient.

(* ------------------------------------------------------------------ *)
(** ** The two clients of the repository as the world of a release check *)

Module Clients.
Import JsHost ReleaseChecker.

(** The host, and the APIs under the two clients; what an API answers may
    depend on the time and on what was asked before. *)
Record Host := mkHost {
  hostUtcOffset : string -> Z -> option Z;
  hostNumberToString : number -> string;
  hostLatency : World -> N;
  hostTza : JsDate.LocalTZA;
  hostSheetsApi : World -> SheetsClient.GoogleSheetsApi;
  hostSpreadsheetId : string;
  hostSheetName : string;
  hostSlackApi : World -> SlackWebClient.SlackApi
}.

(** The services [{ sheets: sheetsClient, slack: slackClient }] of [main]. *)
Definition services (h : Host) : Env :=
  mkEnv (hostUtcOffset h) (hostNumberToString h)
        (fun w => fst (SheetsClient.fetchSchedules (hostTza h) (hostSheetsApi h w)
                         (hostSpreadsheetId h) (hostSheetName h)))
        (fun c t m w => SlackWebClient.postMessage (hostSlackApi h w) c t m)
        (fun c ts w => SlackWebClient.getReactions (hostSlackApi h w) c ts)
        (fun c ts t w => SlackWebClient.postThreadMessage (hostSlackApi h w) c ts t)
        (fun u w => SlackWebClient.getUserInfo (hostSlackApi h w) u)
        (hostLatency h).

End Clients.

(* ------------------------------------------------------------------ *)
(** ** cli/index.ts *)

Module Cli.
Import JsString JsHost ReleaseChecker.

(** The options as [parseArgs] returns them. *)
Record Values := mkValues {
  help : bool;
  requester_user_id : option string;
  slack_channel_id : option string;
  sheets_credentials : option string;
  slack_token : option string;
  spreadsheet_id : option string;
  sheet_name : option string;
  wait_minutes : option string;
  approve_reaction : option string;
  reject_reaction : option string;
  timezone_ : option string
}.

(** [process.env], once the file [.env] is loaded. *)
Record ProcessEnv := mkProcessEnv {
  REQUESTER_USER_ID : option string;
  SLACK_CHANNEL_ID : option string;
  SHEETS_CREDENTIALS_PATH : option string;
  GOOGLE_SERVICE_ACCOUNT_JSON : option string;
  SLACK_TOKEN : option string;
  SLACK_BOT_TOKEN : option string;
  SPREADSHEET_ID : option string;
  GOOGLE_SPREADSHEET_ID : option string;
  SHEET_NAME : option string;
  GOOGLE_SHEET_NAME : option string;
  WAIT_MINUTES : option string;
  APPROVE_REACTION : option string;
  REJECT_REACTION : option string;
  TIMEZONE : option string
}.

Record CliConfig := mkCliConfig {
  cliProductName : string;
  cliEnvironmentName : string;
  cliRequesterUserId : option string;
  cliSlackChannelId : string;
  cliSheetsCredentialsPath : string;
  cliSlackToken : string;
  cliSpreadsheetId : string;
  cliSheetName : option string;
  cliWaitMinutes : option number;
  cliApproveReaction : option string;
  cliRejectReaction : option string;
  cliTimezone : option string
}.

(** [parseCliArgs] returns a configuration or ends the process. *)
Inductive Parsed :=
| Exit (code : Z)
| Config (config : CliConfig).

Definition parseCliArgs (values : Values) (positionals : list string) (env : ProcessEnv)
    : Parsed :=
  if help values then Exit 0
  else
    match positionals with
    | productName_ :: environmentName_ :: _ =>
        let slackChannelId := orElse (slack_channel_id values) (SLACK_CHANNEL_ID env) in
        let sheetsCredentialsPath :=
          orElse (orElse (sheets_credentials values) (SHEETS_CREDENTIALS_PATH env))
                 (GOOGLE_SERVICE_ACCOUNT_JSON env) in
        let slackToken :=
          orElse (orElse (slack_token values) (SLACK_TOKEN env)) (SLACK_BOT_TOKEN env) in
        let spreadsheetId :=
          orElse (orElse (spreadsheet_id values) (SPREADSHEET_ID env))
                 (GOOGLE_SPREADSHEET_ID env) in
        if falsy slackChannelId || falsy sheetsCredentialsPath ||
           falsy slackToken || falsy spreadsheetId
        then Exit 1
        else
          Config (mkCliConfig
            productName_ environmentName_
            (orElse (requester_user_id values) (REQUESTER_USER_ID env))
            (orString slackChannelId "") (orString sheetsCredentialsPath "")
            (orString slackToken "") (orString spreadsheetId "")
            (orElse (orElse (orElse (sheet_name values) (SHEET_NAME env))
                            (GOOGLE_SHEET_NAME env)) (Some "シート1"))
            (Some (if negb (falsy (wait_minutes values))
                   then parseIntJs (orString (wait_minutes values) "")
                   else if negb (falsy (WAIT_MINUTES env))
                        then parseIntJs (orString (WAIT_MINUTES env) "")
                        else numZ 20))
            (orElse (orElse (approve_reaction values) (APPROVE_REACTION env)) (Some "ok"))
            (orElse (orElse (reject_reaction values) (REJECT_REACTION env)) (Some "-1"))
            (orElse (orElse (timezone_ values) (TIMEZONE env)) (Some "Asia/Tokyo")))
    | _ => Exit 1
    end.

(** [releaseConfig] of [main]. *)
Definition releaseConfig (config : CliConfig) : ReleaseCheckConfig :=
  mkConfig (cliProductName config) (cliEnvironmentName config)
           (cliRequesterUserId config) (cliWaitMinutes config)
           (cliApproveReaction config) (cliRejectReaction config) (cliTimezone config).

(** The exit code [main] ends with, given the result of [checkRelease]. *)
Definition exitCode (result : Result ReleaseCheckResult) : Z :=
  match result with
  | Err _ => 1
  | Ok value =>
      match status value with
      | approved | no_schedule => 0
      | _ => 1
      end
  end.

(** [main], from the parsed arguments on, the credentials being loaded and
    the two clients created: the release check, then the exit code.  What
    [main] prints is left out. *)
Definition main (services : Env) (fuel : nat) (values : Values)
    (positionals : list string) (env : ProcessEnv) : M Z :=
  match parseCliArgs values positionals env with
  | Exit code => mret code
  | Config config =>
      mbind (checkRelease services fuel (releaseConfig config) (cliSlackChannelId config))
            (fun result => mret (exitCode result))
  end.

Section Entry.
(** What [loadCredentials] parses. *)
Variable Credentials : Type.

(** What [main] finds outside itself: the host of the release check, what
    [loadCredentials] makes of a path ([None] when it ends the process
    with code 1 because the text or the file cannot be read or parsed,
    [Some None] when the value parsed is falsy, as [null] is), and the
    APIs that the two libraries give for credentials and for a token,
    when their constructors do not throw. *)
Record Machine := mkMachine {
  machineUtcOffset : string -> Z -> option Z;
  machineNumberToString : number -> string;
  machineLatency : World -> N;
  machineTza : JsDate.LocalTZA;
  loadCredentials : string -> option (option Credentials);
  GoogleSheetsApiImpl : Credentials -> Outcome (World -> SheetsClient.GoogleSheetsApi);
  SlackApiImpl : string -> Outcome (World -> SlackWebClient.SlackApi)
}.

(** The host of the release check, with the clients that [main] creates. *)
Definition hostOf (m : Machine)
    (sheetsClient : SheetsClient.Client (World -> SheetsClient.GoogleSheetsApi))
    (slackApi : World -> SlackWebClient.SlackApi) : Clients.Host :=
  Clients.mkHost (machineUtcOffset m) (machineNumberToString m) (machineLatency m)
                 (machineTza m)
                 (SheetsClient.clientApi sheetsClient)
                 (SheetsClient.clientSpreadsheetId sheetsClient)
                 (SheetsClient.clientSheetName sheetsClient)
                 slackApi.

(** [main] from its first line: [parseArgs], which returns the options
    and the positional arguments or throws (on an option it does not
    know, for instance), the rest of [parseCliArgs], [loadCredentials],
    the two clients, then the release check and the exit code as in
    [main] above.  What [parseArgs], [createSheetsClient] or
    [createSlackClient] throws is caught by the [catch] clause of [main],
    which ends the process with code 1; the release check itself throws
    nothing, its clients returning a [Result] whatever their API does.
    What is printed is left out. *)
Definition mainEntry (m : Machine) (fuel : nat)
    (parsedArgs : Outcome (Values * list string)) (env : ProcessEnv) : M Z :=
  match parsedArgs with
  | Threw _ => mret 1
  | Returned (values, positionals) =>
      match parseCliArgs values positionals env with
      | Exit code => mret code
      | Config config =>
          match loadCredentials m (cliSheetsCredentialsPath config) with
          | None => mret 1
          | Some sheetsCredentials =>
              match SheetsClient.createSheetsClient
                      (World -> SheetsClient.GoogleSheetsApi) Credentials
                      (GoogleSheetsApiImpl m)
                      (SheetsClient.mkSheetsClientConfig _ _
                         sheetsCredentials None (cliSpreadsheetId config)
                         (cliSheetName config))
              with
              | Threw _ => mret 1
              | Returned sheetsClient =>
                  match SlackWebClient.createSlackClient
                          (World -> SlackWebClient.SlackApi) (SlackApiImpl m)
                          (Some (cliSlackToken config)) None
                  with
                  | Threw _ => mret 1
                  | Returned slackApi =>
                      main (Clients.services (hostOf m sheetsClient slackApi))
                           fuel values positionals env
                  end
              end
          end
      end
  end.
End Entry.

End Cli.

(* ------------------------------------------------------------------ *)
(** ** utils/logger.ts *)

Module Logger.

Inductive LogLevel := DEBUG | INFO | WARN | ERROR.

Definition levelNumber (l : LogLevel) : Z :=
  match l with DEBUG => 0 | INFO => 1 | WARN => 2 | ERROR => 3 end.

(** [LogLevel[level]] *)
Definition levelName (l : LogLevel) : string :=
  match l with DEBUG => "DEBUG" | INFO => "INFO" | WARN => "WARN" | ERROR => "ERROR" end.

Record LoggerConfig := mkLoggerConfig {
  level : LogLevel;
  includeTimestamp : bool
}.

(** A call of [console.debug], [console.info], [console.warn] or
    [console.error], with or without the context as second argument. *)
Record ConsoleCall := mkConsoleCall {
  consoleMethod : LogLevel;
  consoleText : string;
  consoleContext : bool
}.

(** [log(level, message, context)]; [now] is [new Date().toISOString()]
    and [hasContext] tells whether a truthy context was passed. *)
Definition log (config : LoggerConfig) (now : string) (l : LogLevel) (message_ : string)
    (hasContext : bool) : option ConsoleCall :=
  if levelNumber l <? levelNumber (level config) then None
  else
    let timestamp_ := if includeTimestamp config then now else "" in
    let prefix := if includeTimestamp config
                  then timestamp_ ++ " [" ++ levelName l ++ "]"
                  else "[" ++ levelName l ++ "]" in
    Some (mkConsoleCall l (prefix ++ " " ++ message_) hasContext).

(** [createLogger(config)]: the fields given override the defaults. *)
Definition createLogger (level_ : option LogLevel) (includeTimestamp_ : option bool)
    : LoggerConfig :=
  mkLoggerConfig (match level_ with Some l => l | None => INFO end)
                 (match includeTimestamp_ with Some b => b | None => true end).

End Logger.

(* ------------------------------------------------------------------ *)
(** ** Concrete inputs, for the examples *)

Module Demo.
Import ScheduleParser ReleaseChecker.

Definition demoA : Schedule := mkSchedule "web" "staging" 1000 3000 "U111" "Alice" "".
Definition demoB : Schedule := mkSchedule "api" "staging" 2000 4000 "U222" "Bob" "".

Definition demoCaptures : Captures :=
  mkCaptures (list_ascii_of_string "2024") (list_ascii_of_string "01")
             (list_ascii_of_string "15") (list_ascii_of_string "10")
             (list_ascii_of_string "00") None.

Definition demoSpace : list ascii := [" "%char].

(** ["2024/01/15\t10:00"] *)
Definition demoTabbed : string :=
  "2024/01/15" ++ String (ascii_of_nat 9) "10:00".

Definition demoRow : list string :=
  ["web-app"; "staging"; "2024/01/15 10:00"; "2024/01/15 18:00";
   "U1234ABCD"; "John Doe"; "Feature testing"].

Definition demoBadRow : list string :=
  ["web-app"; "staging"; "bad"; "worse"; "ab"; "John Doe"; "Feature testing"].

(** A host at UTC. *)
Definition demoUtc : JsDate.LocalTZA := JsDate.fixedOffset 0.

(** America/New_York around the start of daylight saving time in 2024:
    five hours behind UTC until 2024-03-10T07:00:00Z, when the local
    clocks go from 02:00 to 03:00, and four hours behind from then on. *)
Definition demoNewYork : JsDate.LocalTZA :=
  fun t isUTC =>
    if isUTC then (if t <? 1710054000000 then -18000000 else -14400000)
    else (if t <? 1710039600000 then -18000000 else -14400000).

(** A row whose person-in-charge id is a name of two characters, each of
    three bytes in UTF-8 and of one UTF-16 code unit. *)
Definition demoShortIdRow : list string :=
  ["web-app"; "staging"; "2024/01/15 10:00"; "2024/01/15 18:00";
   "太郎"; "John Doe"; "Feature testing"].

End Demo.

Module DemoRun.
Import ReleaseChecker.

Definition demoMessage : MessageInfo := mkMessageInfo "C123" "1700000000.000100".

(** A host in zone Asia/Tokyo whose clients answer after 100 ms, always
    with the given results. *)
Definition demoEnv (fetched : Result (list Schedule)) (posted : Result MessageInfo)
    (reactions : Result (list Reaction)) : Env :=
  mkEnv (fun tz _ => if (tz =? "Asia/Tokyo")%string then Some 540 else None)
        (fun _ => "20")
        (fun _ => fetched)
        (fun _ _ _ _ => posted)
        (fun _ _ _ => reactions)
        (fun _ _ _ _ => Ok demoMessage)
        (fun u _ => Ok (mkUserInfo u "Test User"))
        (fun _ => 100%N).

(** The same host with clients and timers that take twenty minutes. *)
Definition demoSlowEnv (reactions : Result (list Reaction)) : Env :=
  mkEnv (fun tz _ => if (tz =? "Asia/Tokyo")%string then Some 540 else None)
        (fun _ => "20")
        (fun _ => Ok [])
        (fun _ _ _ _ => Ok demoMessage)
        (fun _ _ _ => reactions)
        (fun _ _ _ _ => Ok demoMessage)
        (fun u _ => Ok (mkUserInfo u "Test User"))
        (fun _ => 1200000%N).

Definition demoConfig : ReleaseCheckConfig :=
  mkConfig "my-app" "staging" (Some "U999") None None None None.

Definition demoWorld : World := mkWorld 1500 [].

(** Active at the instant the check resolves in [demoWorld]. *)
Definition demoActive : Schedule :=
  mkSchedule "my-app" "staging" 0 100000000 "U111" "Alice" "".

Definition demoOther : Schedule :=
  mkSchedule "other-app" "staging" 0 100000000 "U222" "Bob" "".

Definition demoFetchError : Error := newError "Sheets API error".
Definition demoPostError : Error := newError "Failed to post message: channel_not_found".

Definition demoReactions : list Reaction :=
  [mkReaction "ok" 2 ["U999"; "U5"]; mkReaction "-1" 1 ["U7"]].

End DemoRun.

Module DemoClients.
Import JsHost ReleaseChecker.

Definition demoHeader : list string :=
  ["Product"; "Environment"; "Start"; "End"; "Person ID"; "Person"; "Remarks"].

(** A sheet with a header, a row that validates and one that does not. *)
Definition demoSheet : list (list string) := [demoHeader; Demo.demoRow; Demo.demoBadRow].

Definition demoSheetsApi (answer : Outcome (option (list (list string))))
    : SheetsClient.GoogleSheetsApi := fun _ _ => answer.

Definition demoPosted : SlackWebClient.PostResponse :=
  SlackWebClient.mkPostResponse true (Some "C123") (Some "1700000000.000100") None.

(** A Slack API that accepts every message, knows no user and reports a
    message without reactions. *)
Definition demoSlackApi : SlackWebClient.SlackApi :=
  SlackWebClient.mkSlackApi
    (fun _ _ => Returned demoPosted)
    (fun _ _ => Returned (SlackWebClient.mkReactionsResponse true None None))
    (fun _ _ _ => Returned demoPosted)
    (fun _ => Returned (SlackWebClient.mkUserResponse false None (Some "user_not_found"))).

Definition demoHost (answer : Outcome (option (list (list string)))) : Clients.Host :=
  Clients.mkHost (fun tz _ => if (tz =? "Asia/Tokyo")%string then Some 540 else None)
                 (fun _ => "20") (fun _ => 100%N) Demo.demoUtc
                 (fun _ => demoSheetsApi answer) "sheet-id" "Sheet1"
                 (fun _ => demoSlackApi).

(** [staging-coordinator my-app staging --slack-channel-id C123
    --sheets-credentials {} --slack-token xoxb-1 --spreadsheet-id sheet-id
    --wait-minutes soon] *)
Definition demoValues : Cli.Values :=
  Cli.mkValues false None (Some "C123") (Some "{}") (Some "xoxb-1") (Some "sheet-id")
               None (Some "soon") None None None.

Definition demoPositionals : list string := ["my-app"; "staging"].

Definition demoProcessEnv : Cli.ProcessEnv :=
  Cli.mkProcessEnv None (Some "C999") None None None None None None None None None None
                   None None.

(** A sheet whose only row is a schedule of my-app on staging that is
    active in [DemoRun.demoWorld]. *)
Definition demoActiveSheet : list (list string) :=
  [demoHeader;
   ["my-app"; "staging"; "1970/01/01 00:00"; "2100/01/01 00:00"; "U111"; "Alice"; ""]].

(** A machine on which the credentials load, with the APIs above. *)
Definition demoMachine (answer : Outcome (option (list (list string))))
    : Cli.Machine unit :=
  Cli.mkMachine unit
    (fun tz _ => if (tz =? "Asia/Tokyo")%string then Some 540 else None)
    (fun _ => "20") (fun _ => 100%N) Demo.demoUtc
    (fun _ => Some (Some tt))
    (fun _ => Returned (fun _ => demoSheetsApi answer))
    (fun _ => Returned (fun _ => demoSlackApi)).

End DemoClients.

(* ================================================================== *)
(** * Proofs *)

(* ------------------------------------------------------------------ *)
(** ** utils/date.ts *)

Module DateUtilsFacts.
Import DateUtils Demo.
Local Open Scope list_scope.

Lemma isWithinTimeRange_iff (t start end_ : Date) :
  isWithinTimeRange t start end_ = true <-> start <= t < end_.
Proof.
  unfold isWithinTimeRange.
  rewrite andb_true_iff, Z.geb_le, Z.ltb_lt. lia.
Qed.

(** C3: [isWithinTimeRange t start end] is true exactly when
    [start <= t < end]; on a range with [start < end] the instant [start]
    is inside and the instant [end] is outside; [findActiveSchedules] keeps,
    in the order of the input, exactly the schedules whose range
    [[startDateTime, endDateTime)] contains the instant. *)
Theorem isWithinTimeRange_findActiveSchedules_spec :
  (forall t start end_ : Date,
      isWithinTimeRange t start end_ = true <-> start <= t < end_) /\
  (forall start end_ : Date,
      start < end_ -> isWithinTimeRange start start end_ = true) /\
  (forall start end_ : Date, isWithinTimeRange end_ start end_ = false) /\
  (forall (schedules : list Schedule) (t : Date),
      findActiveSchedules schedules t =
        filter (fun s => (startDateTime s <=? t) && (t <? endDateTime s)) schedules /\
      (forall s, In s (findActiveSchedules schedules t) <->
                 In s schedules /\ startDateTime s <= t < endDateTime s)).
Proof.
  split; [exact isWithinTimeRange_iff|].
  split; [intros; apply isWithinTimeRange_iff; lia|].
  split.
  { intros start end_. destruct (isWithinTimeRange end_ start end_) eqn:E; [|reflexivity].
    apply isWithinTimeRange_iff in E. lia. }
  intros schedules t. split.
  - unfold findActiveSchedules. apply filter_ext. intros s.
    unfold isWithinTimeRange. now rewrite Z.geb_leb.
  - intros s. unfold findActiveSchedules. rewrite filter_In, isWithinTimeRange_iff.
    reflexivity.
Qed.

Lemma isWithinTimeRange_findActiveSchedules_witness :
  1000 < 2000 /\ isWithinTimeRange 1000 1000 2000 = true.
Proof.
  split; [lia|].
  apply (proj1 (proj2 isWithinTimeRange_findActiveSchedules_spec) 1000 2000). lia.
Defined.

Section FlatMap.
Context {A B : Type}.

Lemma NoDup_flat_map (f : A -> list B) (l : list A) :
    NoDup l ->
    (forall x, In x l -> NoDup (f x)) ->
    (forall x y b, In x l -> In y l -> In b (f x) -> In b (f y) -> x = y) ->
    NoDup (flat_map f l).
  Proof.
    induction l as [|a l IH]; intros Hl Hf Hd; simpl.
    - constructor.
    - inversion Hl as [|? ? Hna Hl']; subst.
      apply NoDup_app.
      + apply Hf. now left.
      + apply IH; auto.
        * intros; apply Hf; now right.
        * intros x y b Hx Hy; apply Hd; now right.
      + intros b Hb Hin. apply in_flat_map in Hin as [y [Hy Hby]].
        assert (a = y) by (apply (Hd a y b); simpl; auto).
        subst. contradiction.
  Qed.

Lemma Forall2_flat_map {C : Type} (R : B -> C -> Prop)
      (f : A -> list B) (g : A -> list C) l :
    (forall x, In x l -> Forall2 R (f x) (g x)) ->
    Forall2 R (flat_map f l) (flat_map g l).
  Proof.
    induction l as [|a l IH]; intros H; simpl.
    - constructor.
    - apply Forall2_app.
      + apply H; now left.
      + apply IH. intros; apply H; now right.
  Qed.
End FlatMap.

Lemma overlapStep_cases schedules i j :
  (overlapStep schedules i j = [] /\
   ~ exists a b, nth_error schedules i = Some a /\ nth_error schedules j = Some b /\
                 overlapping a b) \/
  (exists a b, nth_error schedules i = Some a /\ nth_error schedules j = Some b /\
               overlapping a b /\ overlapStep schedules i j = [[a; b]]).
Proof.
  unfold overlapStep, overlapping.
  destruct (nth_error schedules i) as [a|] eqn:Ha;
    [destruct (nth_error schedules j) as [b|] eqn:Hb|].
  - destruct (String.eqb_spec (environmentName a) (environmentName b)) as [He|He]; simpl.
    + destruct (startDateTime a <? endDateTime b) eqn:H1;
        destruct (startDateTime b <? endDateTime a) eqn:H2; simpl;
        rewrite ?Z.ltb_lt, ?Z.ltb_ge in *.
      * right. exists a, b. repeat split; auto.
      * left. split; auto. intros (a' & b' & Ea & Eb & _ & _ & ?).
        inversion Ea; inversion Eb; subst. lia.
      * left. split; auto. intros (a' & b' & Ea & Eb & _ & ? & _).
        inversion Ea; inversion Eb; subst. lia.
      * left. split; auto. intros (a' & b' & Ea & Eb & _ & ? & _).
        inversion Ea; inversion Eb; subst. lia.
    + left. split; auto. intros (a' & b' & Ea & Eb & ? & _).
      inversion Ea; inversion Eb; subst. contradiction.
  - left. split; auto. intros (a' & b' & _ & Eb & _). discriminate.
  - left. split; auto. intros (a' & b' & Ea & _). discriminate.
Qed.

Lemma overlapIndices_In schedules i j :
  In (i, j) (overlapIndices schedules) <->
  (i < j)%nat /\
  exists a b, nth_error schedules i = Some a /\ nth_error schedules j = Some b /\
              overlapping a b.
Proof.
  unfold overlapIndices. rewrite in_flat_map. split.
  - intros (i' & Hi' & Hin). apply in_flat_map in Hin as (j' & Hj' & Hin).
    apply in_seq in Hi', Hj'.
    unfold overlapAt in Hin.
    destruct (overlapStep_cases schedules i' j') as [[E _]|(a & b & Ha & Hb & Ho & E)];
      rewrite E in Hin; simpl in Hin; [contradiction|].
    destruct Hin as [Hin|[]]. inversion Hin; subst.
    split; [lia|]. now exists a, b.
  - intros (Hij & a & b & Ha & Hb & Ho).
    assert (Hj : (j < List.length schedules)%nat)
      by (apply nth_error_Some; congruence).
    exists i. split; [apply in_seq; lia|].
    apply in_flat_map. exists j. split; [apply in_seq; lia|].
    unfold overlapAt.
    destruct (overlapStep_cases schedules i j) as [[_ N]|(a' & b' & _ & _ & _ & E)].
    + exfalso. apply N. now exists a, b.
    + rewrite E. now left.
Qed.

Lemma overlapIndices_NoDup schedules : NoDup (overlapIndices schedules).
Proof.
  unfold overlapIndices. apply NoDup_flat_map.
  - apply seq_NoDup.
  - intros i _. apply NoDup_flat_map.
    + apply seq_NoDup.
    + intros j _. destruct (overlapAt schedules i j); repeat constructor. intros [].
    + intros x y b _ _ Hx Hy.
      destruct (overlapAt schedules i x); destruct (overlapAt schedules i y);
        simpl in *; try contradiction.
      destruct Hx as [<-|[]]. destruct Hy as [Hy|[]]. now inversion Hy.
  - intros x y b _ _ Hx Hy.
    apply in_flat_map in Hx as (j & _ & Hx). apply in_flat_map in Hy as (j' & _ & Hy).
    destruct (overlapAt schedules x j); destruct (overlapAt schedules y j');
      simpl in *; try contradiction.
    destruct Hx as [<-|[]]. destruct Hy as [Hy|[]]. now inversion Hy.
Qed.

Lemma overlapIndices_result schedules :
  Forall2 (pairAt schedules) (overlapIndices schedules) (findOverlappingSchedules schedules).
Proof.
  unfold overlapIndices, findOverlappingSchedules.
  apply Forall2_flat_map. intros i _. apply Forall2_flat_map. intros j _.
  unfold overlapAt.
  destruct (overlapStep_cases schedules i j) as [[E _]|(a & b & Ha & Hb & _ & E)];
    rewrite E; repeat constructor.
  now exists a, b.
Qed.

Lemma findOverlappingSchedules_In schedules p :
  In p (findOverlappingSchedules schedules) <->
  exists i j a b, (i < j)%nat /\ nth_error schedules i = Some a /\
                  nth_error schedules j = Some b /\ overlapping a b /\ p = [a; b].
Proof.
  unfold findOverlappingSchedules. rewrite in_flat_map. split.
  - intros (i & Hi & Hin). apply in_flat_map in Hin as (j & Hj & Hin).
    apply in_seq in Hi, Hj.
    destruct (overlapStep_cases schedules i j) as [[E _]|(a & b & Ha & Hb & Ho & E)];
      rewrite E in Hin; simpl in Hin; [contradiction|].
    destruct Hin as [<-|[]]. exists i, j, a, b. repeat split; auto; try apply Ho. lia.
  - intros (i & j & a & b & Hij & Ha & Hb & Ho & ->).
    assert (Hj : (j < List.length schedules)%nat)
      by (apply nth_error_Some; congruence).
    exists i. split; [apply in_seq; lia|].
    apply in_flat_map. exists j. split; [apply in_seq; lia|].
    destruct (overlapStep_cases schedules i j) as [[_ N]|(a' & b' & Ha' & Hb' & _ & E)].
    + exfalso. apply N. now exists a, b.
    + rewrite E. left. congruence.
Qed.

(** C7: [findOverlappingSchedules] returns the pair [[A, B]], [A] before
    [B] in the input, exactly when both have the same environment name,
    [A.start < B.end] and [B.start < A.end]; every element returned is such
    a pair of two schedules (never a larger group), of one environment, and
    neither of the two ends before or when the other starts; where both
    ranges have [start < end] the two share an instant; each pair of
    positions that qualifies is returned once, in the order of the loops. *)
Theorem findOverlappingSchedules_spec (schedules : list Schedule) :
  (forall a b,
     In [a; b] (findOverlappingSchedules schedules) <->
     exists i j, (i < j)%nat /\ nth_error schedules i = Some a /\
                 nth_error schedules j = Some b /\
                 environmentName a = environmentName b /\
                 startDateTime a < endDateTime b /\
                 startDateTime b < endDateTime a) /\
  (forall p,
     In p (findOverlappingSchedules schedules) ->
     exists a b, p = [a; b] /\
                 environmentName a = environmentName b /\
                 ~ (endDateTime a <= startDateTime b \/
                    endDateTime b <= startDateTime a)) /\
  (forall a b,
     In [a; b] (findOverlappingSchedules schedules) ->
     startDateTime a < endDateTime a -> startDateTime b < endDateTime b ->
     exists t, isWithinTimeRange t (startDateTime a) (endDateTime a) = true /\
               isWithinTimeRange t (startDateTime b) (endDateTime b) = true) /\
  (exists idx : list (nat * nat),
     NoDup idx /\
     (forall i j,
        In (i, j) idx <->
        (i < j)%nat /\
        exists a b, nth_error schedules i = Some a /\ nth_error schedules j = Some b /\
                    environmentName a = environmentName b /\
                    startDateTime a < endDateTime b /\
                    startDateTime b < endDateTime a) /\
     Forall2 (pairAt schedules) idx (findOverlappingSchedules schedules)).
Proof.
  split; [|split; [|split]].
  - intros a b. rewrite findOverlappingSchedules_In. unfold overlapping. split.
    + intros (i & j & a' & b' & Hij & Ha & Hb & Ho & E). inversion E; subst.
      exists i, j. tauto.
    + intros (i & j & Hij & Ha & Hb & Ho). exists i, j, a, b. tauto.
  - intros p Hp. apply findOverlappingSchedules_In in Hp
      as (i & j & a & b & _ & _ & _ & (He & H1 & H2) & ->).
    exists a, b. split; [reflexivity|]. split; [exact He|]. lia.
  - intros a b Hp Ha Hb. apply findOverlappingSchedules_In in Hp
      as (i & j & a' & b' & _ & _ & _ & (He & H1 & H2) & E).
    inversion E; subst a' b'.
    exists (Z.max (startDateTime a) (startDateTime b)).
    split; apply isWithinTimeRange_iff; lia.
  - exists (overlapIndices schedules).
    split; [apply overlapIndices_NoDup|].
    split; [|apply overlapIndices_result].
    intros i j. apply overlapIndices_In.
Qed.

Lemma findOverlappingSchedules_witness :
  In [demoA; demoB] (findOverlappingSchedules [demoA; demoB]) /\
  startDateTime demoA < endDateTime demoA /\ startDateTime demoB < endDateTime demoB /\
  exists t, isWithinTimeRange t (startDateTime demoA) (endDateTime demoA) = true /\
            isWithinTimeRange t (startDateTime demoB) (endDateTime demoB) = true.
Proof.
  assert (Hin : In [demoA; demoB] (findOverlappingSchedules [demoA; demoB]))
    by (vm_compute; left; reflexivity).
  split; [exact Hin|]. split; [reflexivity|]. split; [reflexivity|].
  apply (proj1 (proj2 (proj2 (findOverlappingSchedules_spec [demoA; demoB])))
           demoA demoB Hin); reflexivity.
Defined.

End DateUtilsFacts.

(* ------------------------------------------------------------------ *)
(** ** The arithmetic of [Date] *)

Module JsDateFacts.
Import JsDate.

Lemma isLeapYear_cases y :
  (isLeapYear y = true /\ (y mod 4 = 0 /\ (y mod 100 <> 0 \/ y mod 400 = 0))) \/
  (isLeapYear y = false /\ (y mod 4 <> 0 \/ (y mod 100 = 0 /\ y mod 400 <> 0))).
Proof.
  unfold isLeapYear.
  destruct (Z.eqb_spec (y mod 4) 0); destruct (Z.eqb_spec (y mod 100) 0);
    destruct (Z.eqb_spec (y mod 400) 0); simpl; tauto.
Qed.

Lemma DayFromYear_step y : DayFromYear (y + 1) = DayFromYear y + DaysInYear y.
Proof.
  unfold DaysInYear.
  destruct (isLeapYear_cases y) as [[-> H]|[-> H]]; unfold DayFromYear;
    Z.div_mod_to_equations; lia.
Qed.

Lemma DayFromYear_lt y y' : y < y' -> DayFromYear y < DayFromYear y'.
Proof.
  unfold DayFromYear. intros. Z.div_mod_to_equations. lia.
Qed.

Lemma YearFromTime_spec t :
  DayFromYear (YearFromTime t) <= Day t < DayFromYear (YearFromTime t + 1).
Proof.
  unfold YearFromTime.
  set (d := Day t). set (y0 := 1970 + d * 400 / 146097).
  assert (Hlo : DayFromYear (y0 - 1) <= d).
  { unfold DayFromYear, y0. Z.div_mod_to_equations. lia. }
  assert (Hhi : d < DayFromYear (y0 + 2)).
  { unfold DayFromYear, y0. Z.div_mod_to_equations. lia. }
  destruct (d <? DayFromYear y0) eqn:E1; [|destruct (d <? DayFromYear (y0 + 1)) eqn:E2];
    rewrite ?Z.ltb_lt, ?Z.ltb_ge in *.
  - replace (y0 - 1 + 1) with y0 by lia. lia.
  - lia.
  - replace (y0 + 1 + 1) with (y0 + 2) by lia. lia.
Qed.

Lemma YearFromTime_unique t y :
  DayFromYear y <= Day t < DayFromYear (y + 1) -> YearFromTime t = y.
Proof.
  intros H. pose proof (YearFromTime_spec t) as S.
  destruct (Z.lt_trichotomy (YearFromTime t) y) as [L|[E|G]]; [|exact E|].
  - assert (DayFromYear (YearFromTime t + 1) <= DayFromYear y).
    { destruct (Z.eq_dec (YearFromTime t + 1) y) as [->|]; [lia|].
      apply Z.lt_le_incl, DayFromYear_lt. lia. }
    lia.
  - assert (DayFromYear (y + 1) <= DayFromYear (YearFromTime t)).
    { destruct (Z.eq_dec (y + 1) (YearFromTime t)) as [->|]; [lia|].
      apply Z.lt_le_incl, DayFromYear_lt. lia. }
    lia.
Qed.

Lemma InLeapYear_cases t :
  (InLeapYear t = 1 /\ isLeapYear (YearFromTime t) = true) \/
  (InLeapYear t = 0 /\ isLeapYear (YearFromTime t) = false).
Proof. unfold InLeapYear. destruct (isLeapYear (YearFromTime t)); auto. Qed.

Lemma DayWithinYear_range t : 0 <= DayWithinYear t < 365 + InLeapYear t.
Proof.
  unfold DayWithinYear. pose proof (YearFromTime_spec t) as S.
  rewrite DayFromYear_step in S. unfold DaysInYear in S.
  destruct (InLeapYear_cases t) as [[-> E]|[-> E]]; rewrite E in S; lia.
Qed.

Ltac case_ltb :=
  repeat match goal with
    | |- context [?a <? ?b] => destruct (Z.ltb_spec a b)
    | |- context [?a <=? ?b] => destruct (Z.leb_spec a b)
    | |- context [?a =? ?b] => destruct (Z.eqb_spec a b)
    end.

Lemma MonthFromTime_range t : 0 <= MonthFromTime t <= 11.
Proof. unfold MonthFromTime, monthOfDay. case_ltb; lia. Qed.

Lemma daysInMonth_monthStart y m :
  1 <= m <= 12 ->
  monthStart m (if isLeapYear y then 1 else 0) =
  monthStart (m - 1) (if isLeapYear y then 1 else 0) + daysInMonth y m.
Proof.
  intros H. unfold daysInMonth.
  assert (m = 1 \/ m = 2 \/ m = 3 \/ m = 4 \/ m = 5 \/ m = 6 \/ m = 7 \/ m = 8 \/
          m = 9 \/ m = 10 \/ m = 11 \/ m = 12) as C by lia.
  destruct (isLeapYear y);
    repeat (destruct C as [->|C]; [reflexivity|]); subst; reflexivity.
Qed.

Lemma monthOfDay_cases d leap :
  (d < 31 /\ monthOfDay d leap = 0) \/
  (31 <= d < 59 + leap /\ monthOfDay d leap = 1) \/
  (59 + leap <= d < 90 + leap /\ monthOfDay d leap = 2) \/
  (90 + leap <= d < 120 + leap /\ monthOfDay d leap = 3) \/
  (120 + leap <= d < 151 + leap /\ monthOfDay d leap = 4) \/
  (151 + leap <= d < 181 + leap /\ monthOfDay d leap = 5) \/
  (181 + leap <= d < 212 + leap /\ monthOfDay d leap = 6) \/
  (212 + leap <= d < 243 + leap /\ monthOfDay d leap = 7) \/
  (243 + leap <= d < 273 + leap /\ monthOfDay d leap = 8) \/
  (273 + leap <= d < 304 + leap /\ monthOfDay d leap = 9) \/
  (304 + leap <= d < 334 + leap /\ monthOfDay d leap = 10) \/
  (334 + leap <= d /\ monthOfDay d leap = 11).
Proof.
  unfold monthOfDay.
  repeat match goal with
    | |- context [d <? ?b] =>
        destruct (Z.ltb_spec d b); [left; split; [lia|reflexivity]|right]
    end.
  split; [lia|reflexivity].
Qed.

Lemma monthStart_values leap :
  monthStart 0 leap = 0 /\ monthStart 1 leap = 31 /\ monthStart 2 leap = 59 + leap /\
  monthStart 3 leap = 90 + leap /\ monthStart 4 leap = 120 + leap /\
  monthStart 5 leap = 151 + leap /\ monthStart 6 leap = 181 + leap /\
  monthStart 7 leap = 212 + leap /\ monthStart 8 leap = 243 + leap /\
  monthStart 9 leap = 273 + leap /\ monthStart 10 leap = 304 + leap /\
  monthStart 11 leap = 334 + leap /\ monthStart 12 leap = 365 + leap.
Proof. repeat split. Qed.

Lemma monthOfDay_monthStart d leap :
  (leap = 0 \/ leap = 1) -> 0 <= d < 365 + leap ->
  monthStart (monthOfDay d leap) leap <= d < monthStart (monthOfDay d leap + 1) leap.
Proof.
  intros Hl Hd.
  destruct (monthStart_values leap)
    as (E0 & E1 & E2 & E3 & E4 & E5 & E6 & E7 & E8 & E9 & E10 & E11 & E12).
  destruct (monthOfDay_cases d leap)
    as [[H ->]|[[H ->]|[[H ->]|[[H ->]|[[H ->]|[[H ->]|[[H ->]|[[H ->]|[[H ->]|[[H ->]|
        [[H ->]|[H ->]]]]]]]]]]]];
    cbn [Z.add Pos.add Pos.succ]; lia.
Qed.

Lemma DateFromTime_range t :
  1 <= DateFromTime t <= daysInMonth (YearFromTime t) (MonthFromTime t + 1).
Proof.
  unfold DateFromTime.
  pose proof (DayWithinYear_range t) as Hd.
  pose proof (MonthFromTime_range t) as Hm.
  assert (Hl : InLeapYear t = 0 \/ InLeapYear t = 1)
    by (destruct (InLeapYear_cases t) as [[-> _]|[-> _]]; auto).
  pose proof (monthOfDay_monthStart _ _ Hl Hd) as Hs.
  fold (MonthFromTime t) in Hs.
  pose proof (daysInMonth_monthStart (YearFromTime t) (MonthFromTime t + 1) ltac:(lia)) as E.
  fold (InLeapYear t) in E.
  replace (MonthFromTime t + 1 - 1) with (MonthFromTime t) in E by lia.
  lia.
Qed.

Lemma HourFromTime_range t : 0 <= HourFromTime t <= 23.
Proof. unfold HourFromTime. pose proof (Z.mod_pos_bound (t / msPerHour) 24). lia. Qed.
Lemma MinFromTime_range t : 0 <= MinFromTime t <= 59.
Proof. unfold MinFromTime. pose proof (Z.mod_pos_bound (t / msPerMinute) 60). lia. Qed.
Lemma SecFromTime_range t : 0 <= SecFromTime t <= 59.
Proof. unfold SecFromTime. pose proof (Z.mod_pos_bound (t / msPerSecond) 60). lia. Qed.

Lemma monthStart_monthOfDay m leap d :
  (leap = 0 \/ leap = 1) -> 0 <= m <= 11 ->
  monthStart m leap <= d < monthStart (m + 1) leap ->
  monthOfDay d leap = m.
Proof.
  intros Hl Hm Hd.
  destruct (monthStart_values leap)
    as (E0 & E1 & E2 & E3 & E4 & E5 & E6 & E7 & E8 & E9 & E10 & E11 & E12).
  assert (m = 0 \/ m = 1 \/ m = 2 \/ m = 3 \/ m = 4 \/ m = 5 \/ m = 6 \/ m = 7 \/
          m = 8 \/ m = 9 \/ m = 10 \/ m = 11) as C by lia.
  destruct (monthOfDay_cases d leap)
    as [[H ->]|[[H ->]|[[H ->]|[[H ->]|[[H ->]|[[H ->]|[[H ->]|[[H ->]|[[H ->]|[[H ->]|
        [[H ->]|[H ->]]]]]]]]]]]];
    repeat (destruct C as [->|C]; [cbn [Z.add Pos.add Pos.succ] in Hd; lia|]);
    subst; cbn [Z.add Pos.add Pos.succ] in Hd; lia.
Qed.

Lemma civil_roundtrip y mo d h mi s :
  validCivil y mo d h mi s ->
  let t := MakeDate (MakeDay y (mo - 1) d) (MakeTime h mi s 0) in
  YearFromTime t = y /\ MonthFromTime t = mo - 1 /\ DateFromTime t = d /\
  HourFromTime t = h /\ MinFromTime t = mi /\ SecFromTime t = s.
Proof.
  intros (Hmo & Hd & Hh & Hmi & Hs) t.
  assert (Hdiv : (mo - 1) / 12 = 0) by (apply Z.div_small; lia).
  assert (Hmod : (mo - 1) mod 12 = mo - 1) by (apply Z.mod_small; lia).
  set (leap := if isLeapYear y then 1 else 0).
  assert (Hl : leap = 0 \/ leap = 1) by (unfold leap; destruct (isLeapYear y); auto).
  assert (Hday : Day t = DayFromYear y + monthStart (mo - 1) leap + d - 1).
  { unfold t, Day, MakeDate, MakeDay, MakeTime, msPerDay, msPerHour, msPerMinute, msPerSecond.
    rewrite Hdiv, Hmod, Z.add_0_r. fold leap.
    Z.div_mod_to_equations. lia. }
  pose proof (daysInMonth_monthStart y mo Hmo) as Hstart. fold leap in Hstart.
  assert (Hms0 : 0 <= monthStart (mo - 1) leap).
  { unfold monthStart. case_ltb; lia. }
  assert (Hms1 : monthStart mo leap <= 365 + leap).
  { unfold monthStart. case_ltb; lia. }
  assert (Hy : YearFromTime t = y).
  { apply YearFromTime_unique. rewrite DayFromYear_step, Hday.
    unfold DaysInYear. fold leap.
    assert (365 + leap = if isLeapYear y then 366 else 365)
      by (unfold leap; destruct (isLeapYear y); reflexivity).
    lia. }
  assert (Hleap : InLeapYear t = leap) by (unfold InLeapYear; rewrite Hy; reflexivity).
  assert (Hdwy : DayWithinYear t = monthStart (mo - 1) leap + d - 1)
    by (unfold DayWithinYear; rewrite Hy, Hday; lia).
  assert (Hmonth : MonthFromTime t = mo - 1).
  { unfold MonthFromTime. rewrite Hleap, Hdwy.
    apply monthStart_monthOfDay; auto; try lia.
    replace (mo - 1 + 1) with mo by lia. lia. }
  split; [exact Hy|]. split; [exact Hmonth|]. split.
  { unfold DateFromTime. rewrite Hmonth, Hleap, Hdwy. lia. }
  unfold t, HourFromTime, MinFromTime, SecFromTime, MakeDate, MakeTime,
    msPerDay, msPerHour, msPerMinute, msPerSecond.
  repeat split; Z.div_mod_to_equations; lia.
Qed.

Lemma components_valid t :
  validCivil (YearFromTime t) (MonthFromTime t + 1) (DateFromTime t)
             (HourFromTime t) (MinFromTime t) (SecFromTime t).
Proof.
  unfold validCivil.
  pose proof (MonthFromTime_range t). pose proof (DateFromTime_range t).
  pose proof (HourFromTime_range t). pose proof (MinFromTime_range t).
  pose proof (SecFromTime_range t). lia.
Qed.

(** The second in which [t] lies, from its civil components. *)
Lemma civil_second t :
  t / 1000 =
    (DayFromYear (YearFromTime t) + monthStart (MonthFromTime t) (InLeapYear t) +
     DateFromTime t - 1) * 86400 +
    HourFromTime t * 3600 + MinFromTime t * 60 + SecFromTime t.
Proof.
  assert (Hday : DayFromYear (YearFromTime t) + monthStart (MonthFromTime t) (InLeapYear t) +
                 DateFromTime t - 1 = Day t).
  { unfold DateFromTime, DayWithinYear. lia. }
  rewrite Hday.
  unfold Day, HourFromTime, MinFromTime, SecFromTime, msPerDay, msPerHour, msPerMinute,
    msPerSecond.
  Z.div_mod_to_equations. lia.
Qed.

(** The civil components of [t] depend on its second only. *)
Lemma components_second t t' :
  t / 1000 = t' / 1000 ->
  YearFromTime t = YearFromTime t' /\ MonthFromTime t = MonthFromTime t' /\
  DateFromTime t = DateFromTime t' /\ HourFromTime t = HourFromTime t' /\
  MinFromTime t = MinFromTime t' /\ SecFromTime t = SecFromTime t'.
Proof.
  intros H.
  assert (Hday : Day t = Day t').
  { unfold Day, msPerDay. Z.div_mod_to_equations. lia. }
  assert (Hy : YearFromTime t = YearFromTime t')
    by (unfold YearFromTime; rewrite Hday; reflexivity).
  assert (Hl : InLeapYear t = InLeapYear t') by (unfold InLeapYear; rewrite Hy; reflexivity).
  assert (Hd : DayWithinYear t = DayWithinYear t')
    by (unfold DayWithinYear; rewrite Hy, Hday; reflexivity).
  assert (Hm : MonthFromTime t = MonthFromTime t')
    by (unfold MonthFromTime; rewrite Hd, Hl; reflexivity).
  split; [exact Hy|]. split; [exact Hm|]. split.
  { unfold DateFromTime. rewrite Hd, Hm, Hl. reflexivity. }
  unfold HourFromTime, MinFromTime, SecFromTime, msPerHour, msPerMinute, msPerSecond.
  repeat split; Z.div_mod_to_equations; lia.
Qed.

(** Two times of the same civil components lie in the same second. *)
Lemma same_components_second t t' :
  YearFromTime t' = YearFromTime t -> MonthFromTime t' = MonthFromTime t ->
  DateFromTime t' = DateFromTime t -> HourFromTime t' = HourFromTime t ->
  MinFromTime t' = MinFromTime t -> SecFromTime t' = SecFromTime t ->
  t' / 1000 = t / 1000.
Proof.
  intros H1 H2 H3 H4 H5 H6.
  rewrite (civil_second t), (civil_second t'). unfold InLeapYear.
  rewrite H1, H2, H3, H4, H5, H6. reflexivity.
Qed.

End JsDateFacts.

(* ------------------------------------------------------------------ *)
(** ** The matchers *)

Module RegexFacts.
Import JsString Regex.
Local Open Scope list_scope.

Section Matchers.
Context {A B : Type}.

Lemma In_ret (a b : A) (s r : list ascii) :
    In (b, r) (ret a s) <-> b = a /\ r = s.
  Proof.
    unfold ret. simpl. split.
    - intros [H|[]]. inversion H. auto.
    - intros [-> ->]. now left.
  Qed.

Lemma In_bind (m : Matcher A) (f : A -> Matcher B) s b r :
    In (b, r) (bind m f s) <-> exists a r', In (a, r') (m s) /\ In (b, r) (f a r').
  Proof.
    unfold bind. rewrite in_flat_map. split.
    - intros ([a r'] & H1 & H2). exists a, r'. auto.
    - intros (a & r' & H1 & H2). exists (a, r'). auto.
  Qed.

Lemma In_alt (m1 m2 : Matcher A) s x :
    In x (alt m1 m2 s) <-> In x (m1 s) \/ In x (m2 s).
  Proof. unfold alt. apply in_app_iff. Qed.
End Matchers.

Lemma In_class p s c r :
  In (c, r) (class p s) <-> s = c :: r /\ p c = true.
Proof.
  unfold class. destruct s as [|c' s'].
  - simpl. split; [tauto|intros [H _]; discriminate].
  - destruct (p c') eqn:E; simpl.
    + split.
      * intros [H|[]]. inversion H. subst. auto.
      * intros [H _]. inversion H. now left.
    + split; [tauto|]. intros [H Hp]. inversion H. subst. congruence.
Qed.

Lemma In_chr c s c' r :
  In (c', r) (chr c s) <-> s = c :: r /\ c' = c.
Proof.
  unfold chr. rewrite In_class. split.
  - intros [-> H]. apply Ascii.eqb_eq in H. subst. auto.
  - intros [-> ->]. split; auto. apply Ascii.eqb_refl.
Qed.

Lemma In_exactly n p : forall s cs r,
  In (cs, r) (exactly n p s) <->
  s = cs ++ r /\ List.length cs = n /\ forallb p cs = true.
Proof.
  induction n as [|n IH]; intros s cs r; cbn [exactly].
  - rewrite In_ret. split.
    + intros [-> ->]. auto.
    + intros (-> & Hl & _). destruct cs; [auto|discriminate].
  - rewrite In_bind. split.
    + intros (c & r' & Hc & H). apply In_class in Hc as [-> Hp].
      apply In_bind in H as (cs' & r'' & H & Hr). apply IH in H as (-> & Hl & Hf).
      apply In_ret in Hr as [-> ->]. simpl. rewrite Hp, Hf, Hl. auto.
    + intros (-> & Hl & Hf). destruct cs as [|c cs]; [discriminate|].
      simpl in Hl, Hf. apply andb_true_iff in Hf as [Hp Hf].
      exists c, (cs ++ r). split; [apply In_class; auto|].
      apply In_bind. exists cs, r. split; [apply IH; auto|apply In_ret; auto].
Qed.

Lemma In_upto n p : forall s cs r,
  In (cs, r) (upto n p s) <->
  s = cs ++ r /\ (List.length cs <= n)%nat /\ forallb p cs = true.
Proof.
  induction n as [|n IH]; intros s cs r; cbn [upto].
  - rewrite In_ret. split.
    + intros [-> ->]. simpl. auto.
    + intros (-> & Hl & _). destruct cs; [auto|simpl in Hl; lia].
  - rewrite In_alt, In_bind, In_ret. split.
    + intros [(c & r' & Hc & H)|[-> ->]].
      * apply In_class in Hc as [-> Hp].
        apply In_bind in H as (cs' & r'' & H & Hr). apply IH in H as (-> & Hl & Hf).
        apply In_ret in Hr as [-> ->]. simpl. rewrite Hp, Hf. split; auto. split; auto. lia.
      * simpl. split; auto. split; auto. lia.
    + intros (-> & Hl & Hf). destruct cs as [|c cs]; [right; auto|left].
      simpl in Hl, Hf. apply andb_true_iff in Hf as [Hp Hf].
      exists c, (cs ++ r). split; [apply In_class; auto|].
      apply In_bind. exists cs, r. split; [apply IH; repeat split; auto; lia|apply In_ret; auto].
Qed.

Lemma In_range lo hi p s cs r :
  (lo <= hi)%nat ->
  In (cs, r) (range lo hi p s) <->
  s = cs ++ r /\ (lo <= List.length cs <= hi)%nat /\ forallb p cs = true.
Proof.
  intros Hle. unfold range. rewrite In_bind. split.
  - intros (a & r' & Ha & H). apply In_exactly in Ha as (-> & Hl & Hf).
    apply In_bind in H as (b & r'' & Hb & Hr). apply In_upto in Hb as (-> & Hl' & Hf').
    apply In_ret in Hr as [-> ->].
    rewrite <- app_assoc, length_app, forallb_app, Hf, Hf'. split; auto. split; auto. lia.
  - intros (-> & Hl & Hf).
    rewrite <- (firstn_skipn lo cs), forallb_app in Hf.
    apply andb_true_iff in Hf as [Hf1 Hf2].
    exists (firstn lo cs), (skipn lo cs ++ r). split.
    + apply In_exactly. rewrite app_assoc, firstn_skipn.
      split; auto. split; auto. rewrite length_firstn. lia.
    + apply In_bind. exists (skipn lo cs), r. split.
      * apply In_upto. split; auto. split; auto. rewrite length_skipn. lia.
      * apply In_ret. rewrite firstn_skipn. auto.
Qed.

(** *** White space *)

Lemma isDigit_spec a : isDigit a = true <-> (48 <= nat_of_ascii a <= 57)%nat.
Proof.
  unfold isDigit. rewrite andb_true_iff, !Nat.leb_le. tauto.
Qed.

Lemma isSpace1_digit a : isSpace1 a = true -> isDigit a = false.
Proof.
  unfold isSpace1, isDigit. intros H.
  apply orb_true_iff in H as [H|H].
  - apply andb_true_iff in H as [_ H]. apply Nat.leb_le in H.
    apply andb_false_iff. left. apply Nat.leb_gt. lia.
  - apply Nat.eqb_eq in H. rewrite H. reflexivity.
Qed.

Lemma isSpace2_digit a b : isSpace2 a b = true -> isDigit a = false /\ isDigit b = false.
Proof.
  unfold isSpace2, isDigit. intros H. apply andb_true_iff in H as [Ha Hb].
  apply Nat.eqb_eq in Ha, Hb. rewrite Ha, Hb. split; reflexivity.
Qed.

Lemma isSpace3_digit a b c :
  isSpace3 a b c = true -> isDigit a = false /\ isDigit b = false /\ isDigit c = false.
Proof.
  unfold isSpace3, isDigit.
  set (x := nat_of_ascii a). set (y := nat_of_ascii b). set (z := nat_of_ascii c).
  intros H.
  assert (G : (128 <= x /\ 128 <= y /\ 128 <= z)%nat).
  { repeat match type of H with
      | (_ || _) = true => apply orb_true_iff in H as [H|H]
      end;
    repeat match goal with
      | H : (_ && _) = true |- _ => apply andb_true_iff in H as [? H]
      | H : (_ || _) = true |- _ => apply orb_true_iff in H as [H|H]
      | H : (_ =? _)%nat = true |- _ => apply Nat.eqb_eq in H
      | H : (_ <=? _)%nat = true |- _ => apply Nat.leb_le in H
      end; lia. }
  repeat split; apply andb_false_iff; right; apply Nat.leb_gt; lia.
Qed.

Lemma splitSpace_Some s c r :
  splitSpace s = Some (c, r) ->
  s = c ++ r /\ c <> [] /\ (forall x, splitSpace (c ++ x) = Some (c, x)) /\
  Forall (fun a => isDigit a = false) c.
Proof.
  unfold splitSpace. destruct s as [|a s1]; [discriminate|].
  destruct (isSpace1 a) eqn:E1.
  { intros H. injection H as <- <-. split; [reflexivity|]. split; [discriminate|].
    split; [intros x; cbn [app]; rewrite E1; reflexivity|].
    repeat constructor. now apply isSpace1_digit. }
  destruct s1 as [|b s2]; [discriminate|].
  destruct (isSpace2 a b) eqn:E2.
  { intros H. injection H as <- <-. split; [reflexivity|]. split; [discriminate|].
    split; [intros x; cbn [app]; rewrite E1, E2; reflexivity|].
    destruct (isSpace2_digit a b E2). repeat constructor; assumption. }
  destruct s2 as [|c0 s3]; [discriminate|].
  destruct (isSpace3 a b c0) eqn:E3; [|discriminate].
  intros H. injection H as <- <-. split; [reflexivity|]. split; [discriminate|].
  split; [intros x; cbn [app]; rewrite E1, E2, E3; reflexivity|].
  destruct (isSpace3_digit a b c0 E3) as (? & ? & ?). repeat constructor; assumption.
Qed.

Lemma dropSpaces_split s :
  dropSpaces s = match splitSpace s with
                 | Some (_, r) => dropSpaces r
                 | None => s
                 end.
Proof.
  destruct s as [|a [|b [|c r]]]; cbn [dropSpaces splitSpace]; try reflexivity.
  - destruct (isSpace1 a); reflexivity.
  - destruct (isSpace1 a); [reflexivity|]. destruct (isSpace2 a b); reflexivity.
  - destruct (isSpace1 a); [reflexivity|]. destruct (isSpace2 a b); [reflexivity|].
    destruct (isSpace3 a b c); reflexivity.
Qed.

Lemma splitSpace_digit a r : isDigit a = true -> splitSpace (a :: r) = None.
Proof.
  intros Hd. destruct (splitSpace (a :: r)) as [[c x]|] eqn:E; [|reflexivity].
  apply splitSpace_Some in E as (E & Hn & _ & Hf).
  destruct c as [|a' c]; [contradiction|]. injection E as <- _.
  inversion Hf; subst. congruence.
Qed.

(** A text of white space is empty or begins with a white-space
    character, followed by a text of white space. *)
Lemma whiteSpace_cases ws :
  whiteSpace ws ->
  ws = [] \/ exists c ws', ws = c ++ ws' /\ splitSpace ws = Some (c, ws') /\ whiteSpace ws'.
Proof.
  unfold whiteSpace. rewrite dropSpaces_split.
  destruct (splitSpace ws) as [[c r]|] eqn:E; [|auto].
  intros H. right. exists c, r. split; [|auto].
  now apply splitSpace_Some in E.
Qed.

Lemma whiteSpace_ind (P : list ascii -> Prop) :
  P [] ->
  (forall c ws, c <> [] -> (forall x, splitSpace (c ++ x) = Some (c, x)) ->
                Forall (fun a => isDigit a = false) c ->
                whiteSpace ws -> P ws -> P (c ++ ws)) ->
  forall ws, whiteSpace ws -> P ws.
Proof.
  intros H0 Hs ws.
  assert (G : forall n ws, (List.length ws <= n)%nat -> whiteSpace ws -> P ws).
  { induction n as [|n IH]; intros l Hl Hw.
    - destruct l; [exact H0|simpl in Hl; lia].
    - destruct (whiteSpace_cases l Hw) as [->|(c & ws' & -> & E & Hw')]; [exact H0|].
      apply splitSpace_Some in E as (_ & Hn & Hx & Hf).
      apply Hs; auto. apply IH; [|exact Hw'].
      rewrite length_app in Hl. destruct c; [contradiction|]. simpl in Hl. lia. }
  exact (G (List.length ws) ws (Nat.le_refl _)).
Qed.

Lemma dropSpaces_app ws r : whiteSpace ws -> dropSpaces (ws ++ r) = dropSpaces r.
Proof.
  revert ws. apply (whiteSpace_ind (fun ws => dropSpaces (ws ++ r) = dropSpaces r)).
  - reflexivity.
  - intros c ws Hn Hx Hf Hw IH. rewrite <- app_assoc, dropSpaces_split, Hx. exact IH.
Qed.

Lemma whiteSpace_app c ws :
  (forall x, splitSpace (c ++ x) = Some (c, x)) -> whiteSpace ws -> whiteSpace (c ++ ws).
Proof.
  intros Hx Hw. unfold whiteSpace. rewrite dropSpaces_split, Hx. exact Hw.
Qed.

Lemma dropSpaces_digit a r : isDigit a = true -> dropSpaces (a :: r) = a :: r.
Proof.
  intros H. rewrite dropSpaces_split, (splitSpace_digit a r H). reflexivity.
Qed.

Lemma whiteSpace_no_digit ws : whiteSpace ws -> Forall (fun a => isDigit a = false) ws.
Proof.
  revert ws. apply (whiteSpace_ind (fun ws => Forall (fun a => isDigit a = false) ws)).
  - constructor.
  - intros c ws Hn Hx Hf Hw IH. apply Forall_app. split; assumption.
Qed.

(** White space followed by a digit is determined by the whole. *)
Lemma space_run_unique ws ws' a r a' r' :
  whiteSpace ws -> whiteSpace ws' -> isDigit a = true -> isDigit a' = true ->
  ws ++ a :: r = ws' ++ a' :: r' -> ws = ws' /\ a :: r = a' :: r'.
Proof.
  intros Hw Hw' Ha Ha' E.
  assert (Er : a :: r = a' :: r').
  { rewrite <- (dropSpaces_digit a r Ha), <- (dropSpaces_digit a' r' Ha').
    rewrite <- (dropSpaces_app ws (a :: r) Hw), <- (dropSpaces_app ws' (a' :: r') Hw').
    now rewrite E. }
  split; [|exact Er]. rewrite Er in E. now apply app_inv_tail in E.
Qed.

Lemma In_space s c r : In (c, r) (space s) <-> splitSpace s = Some (c, r).
Proof.
  unfold space. destruct (splitSpace s) as [[c' r']|]; simpl.
  - split; [intros [H|[]]; now rewrite H|intros H; left; now injection H as -> ->].
  - split; [intros []|discriminate].
Qed.

Lemma In_uptoOf_space n : forall s cs r,
  In (cs, r) (uptoOf n space s) -> s = cs ++ r /\ whiteSpace cs.
Proof.
  induction n as [|n IH]; intros s cs r; cbn [uptoOf].
  - rewrite In_ret. intros [-> ->]. split; reflexivity.
  - rewrite In_alt, In_bind, In_ret. intros [(c & r1 & Hc & H)|[-> ->]].
    + apply In_space, splitSpace_Some in Hc as (-> & _ & Hx & _).
      apply In_bind in H as (cs' & r2 & H & Hr). apply IH in H as (-> & Hw).
      apply In_ret in Hr as [-> ->]. rewrite <- app_assoc. split; [reflexivity|].
      now apply whiteSpace_app.
    + split; reflexivity.
Qed.

Lemma uptoOf_space_In n : forall cs r,
  whiteSpace cs -> (List.length cs <= n)%nat -> In (cs, r) (uptoOf n space (cs ++ r)).
Proof.
  induction n as [|n IH]; intros cs r Hw Hl; cbn [uptoOf].
  - destruct cs; [|simpl in Hl; lia]. apply In_ret. auto.
  - apply In_alt.
    destruct (whiteSpace_cases cs Hw) as [->|(c & ws' & -> & E & Hw')].
    + right. apply In_ret. auto.
    + left. apply splitSpace_Some in E as (_ & Hn & Hx & _).
      apply In_bind. exists c, (ws' ++ r). split.
      * apply In_space. rewrite <- app_assoc. apply Hx.
      * apply In_bind. exists ws', r. split; [|apply In_ret; auto].
        apply IH; [exact Hw'|]. rewrite length_app in Hl.
        destruct c; [contradiction|]. simpl in Hl. lia.
Qed.

Lemma In_plus s ws r :
  In (ws, r) (plus space s) <-> s = ws ++ r /\ ws <> [] /\ whiteSpace ws.
Proof.
  unfold plus. rewrite In_bind. split.
  - intros (c & r1 & Hc & H).
    apply In_space, splitSpace_Some in Hc as (E & Hn & Hx & _).
    apply In_bind in H as (cs & r2 & H & Hr). apply In_uptoOf_space in H as (-> & Hw).
    apply In_ret in Hr as [-> ->]. rewrite <- app_assoc. split; [exact E|]. split.
    + destruct c; [contradiction|discriminate].
    + now apply whiteSpace_app.
  - intros (-> & Hn & Hw).
    destruct (whiteSpace_cases ws Hw) as [->|(c & ws' & -> & E & Hw')]; [contradiction|].
    apply splitSpace_Some in E as (_ & Hc & Hx & _).
    exists c, (ws' ++ r). split; [apply In_space; rewrite <- app_assoc; apply Hx|].
    apply In_bind. exists ws', r. split; [|apply In_ret; auto].
    apply uptoOf_space_In; [exact Hw'|]. rewrite !length_app. lia.
Qed.

(** What [dropSpacesRev] removes entirely holds no digit. *)
Lemma dropSpacesRev_nil l :
  dropSpacesRev l = [] -> Forall (fun a => isDigit a = false) l.
Proof.
  assert (G : forall n l, (List.length l <= n)%nat -> dropSpacesRev l = [] ->
                          Forall (fun a => isDigit a = false) l).
  { induction n as [|n IH]; intros s Hl H.
    - destruct s; [constructor|simpl in Hl; lia].
    - destruct s as [|a s1]; [constructor|]. cbn [dropSpacesRev] in H.
      destruct (isSpace1 a) eqn:E1.
      { constructor; [now apply isSpace1_digit|]. apply IH; [simpl in Hl; lia|exact H]. }
      destruct s1 as [|b s2]; [discriminate H|].
      destruct (isSpace2 b a) eqn:E2.
      { destruct (isSpace2_digit b a E2). repeat constructor; try assumption.
        apply IH; [simpl in Hl; lia|exact H]. }
      destruct s2 as [|c s3]; [discriminate H|].
      destruct (isSpace3 c b a) eqn:E3; [|discriminate H].
      destruct (isSpace3_digit c b a E3) as (? & ? & ?). repeat constructor; try assumption.
      apply IH; [simpl in Hl; lia|exact H]. }
  exact (G (List.length l) l (Nat.le_refl _)).
Qed.

Lemma In_opt {A} (m : Matcher A) s o r :
  In (o, r) (opt m s) <->
  (exists a, o = Some a /\ In (a, r) (m s)) \/ (o = None /\ r = s).
Proof.
  unfold opt. rewrite In_alt, In_bind, In_ret. split.
  - intros [(a & r' & H & Hr)|H]; [left|right; auto].
    apply In_ret in Hr as [-> ->]. eauto.
  - intros [(a & -> & H)|H]; [left|right; auto].
    exists a, r. split; auto. apply In_ret. auto.
Qed.

Lemma In_eos s u r : In (u, r) (eos s) <-> s = [] /\ r = [].
Proof.
  unfold eos. destruct s; simpl.
  - split; [intros [H|[]]; inversion H; auto|]. intros [_ ->]. destruct u. now left.
  - split; [tauto|]. intros [H _]. discriminate.
Qed.

(** A run of [p]-characters followed by something that does not go on
    with a [p]-character is determined by the whole. *)
Lemma span_unique p : forall a a' r r',
  forallb p a = true -> forallb p a' = true -> stops p r -> stops p r' ->
  a ++ r = a' ++ r' -> a = a' /\ r = r'.
Proof.
  induction a as [|c a IH]; intros [|c' a'] r r' Ha Ha' Hr Hr' E; simpl in *.
  - auto.
  - subst r. simpl in Hr. apply andb_true_iff in Ha' as [H _]. congruence.
  - subst r'. simpl in Hr'. apply andb_true_iff in Ha as [H _]. congruence.
  - apply andb_true_iff in Ha as [_ Ha]. apply andb_true_iff in Ha' as [_ Ha'].
    inversion E; subst. destruct (IH a' r r' Ha Ha' Hr Hr' H1) as [-> ->]. auto.
Qed.

End RegexFacts.

(* ------------------------------------------------------------------ *)
(** ** lib/schedule.ts *)

Module ScheduleParserFacts.
Import JsString Regex ScheduleParser RegexFacts JsDateFacts Demo.
Local Open Scope list_scope.

Lemma In_dateTimeRegex s f r :
  In (f, r) (dateTimeRegex s) <->
  r = [] /\ exists ws, wellFormed f ws /\ s = render f ws.
Proof.
  unfold dateTimeRegex, wellFormed, render, digits. split.
  - intros H.
    apply In_bind in H as (year & r1 & Hy & H).
    apply In_exactly in Hy as (-> & Hyl & Hyf).
    apply In_bind in H as (c1 & r2 & Hc & H). apply In_chr in Hc as [-> ->].
    apply In_bind in H as (month & r3 & Hm & H).
    apply In_range in Hm as (-> & Hml & Hmf); [|lia].
    apply In_bind in H as (c2 & r4 & Hc & H). apply In_chr in Hc as [-> ->].
    apply In_bind in H as (day & r5 & Hd & H).
    apply In_range in Hd as (-> & Hdl & Hdf); [|lia].
    apply In_bind in H as (ws & r6 & Hw & H).
    apply In_plus in Hw as (-> & Hwn & Hwf).
    apply In_bind in H as (hour & r7 & Hh & H).
    apply In_range in Hh as (-> & Hhl & Hhf); [|lia].
    apply In_bind in H as (c3 & r8 & Hc & H). apply In_chr in Hc as [-> ->].
    apply In_bind in H as (minute & r9 & Hmi & H).
    apply In_range in Hmi as (-> & Hmil & Hmif); [|lia].
    apply In_bind in H as (second & r10 & Hs & H).
    apply In_bind in H as (u & r11 & He & H). apply In_eos in He as [-> ->].
    apply In_ret in H as [-> ->]. split; [reflexivity|].
    exists ws. cbn [cYear cMonth cDay cHour cMinute cSecond].
    apply In_opt in Hs as [(sec & -> & Hs)|[-> E]].
    + apply In_bind in Hs as (c4 & r12 & Hc & Hs). apply In_chr in Hc as [-> ->].
      apply In_range in Hs as (E & Hsl & Hsf); [|lia].
      rewrite app_nil_r in E. subst r12.
      repeat split; auto; try lia.
    + subst r9. repeat split; auto; try lia.
  - intros (-> & ws & (Hy & Hm & Hd & (Hwn & Hwf) & Hh & Hmi & Hs) & ->).
    destruct f as [year month day hour minute second].
    cbn [cYear cMonth cDay cHour cMinute cSecond] in *.
    apply In_bind. eexists. eexists. split.
    { apply In_exactly. split; [reflexivity|]. split; [lia|tauto]. }
    apply In_bind. eexists. eexists. split; [apply In_chr; split; reflexivity|].
    apply In_bind. eexists. eexists. split.
    { apply In_range; [lia|]. split; [reflexivity|]. tauto. }
    apply In_bind. eexists. eexists. split; [apply In_chr; split; reflexivity|].
    apply In_bind. eexists. eexists. split.
    { apply In_range; [lia|]. split; [reflexivity|]. tauto. }
    apply In_bind. eexists. eexists. split.
    { apply In_plus. split; [reflexivity|]. tauto. }
    apply In_bind. eexists. eexists. split.
    { apply In_range; [lia|]. split; [reflexivity|]. tauto. }
    apply In_bind. eexists. eexists. split; [apply In_chr; split; reflexivity|].
    apply In_bind. eexists. eexists. split.
    { apply In_range; [lia|]. split; [reflexivity|]. tauto. }
    apply In_bind. exists second, []. split.
    { apply In_opt. destruct second as [sec|]; [left|right; auto].
      exists sec. split; [reflexivity|]. apply In_bind. eexists. eexists.
      split; [apply In_chr; split; reflexivity|].
      apply In_range; [lia|]. rewrite app_nil_r. split; [reflexivity|]. tauto. }
    apply In_bind. exists tt, []. split; [apply In_eos; auto|].
    apply In_ret. auto.
Qed.


Lemma stops_digit_run p q cs r :
  (forall c, q c = true -> p c = false) ->
  cs <> [] -> forallb q cs = true -> stops p (cs ++ r).
Proof.
  intros Hpq Hn Hf. destruct cs as [|c cs]; [contradiction|].
  simpl in *. apply andb_true_iff in Hf as [Hc _]. auto.
Qed.

Lemma digits_nonempty lo hi cs : (1 <= lo)%nat -> digits lo hi cs -> cs <> [].
Proof. intros Hlo [Hl _] ->. simpl in Hl. lia. Qed.

Lemma digits_head lo hi cs :
  (1 <= lo)%nat -> digits lo hi cs -> exists a r, cs = a :: r /\ isDigit a = true.
Proof.
  intros Hlo [Hl Hf]. destruct cs as [|a r]; [simpl in Hl; lia|].
  exists a, r. split; [reflexivity|]. simpl in Hf. now apply andb_true_iff in Hf as [Ha _].
Qed.

Lemma whiteSpace_stops ws r : ws <> [] -> whiteSpace ws -> stops isDigit (ws ++ r).
Proof.
  intros Hn Hw. apply whiteSpace_no_digit in Hw.
  destruct ws as [|a ws]; [contradiction|]. inversion Hw; subst. assumption.
Qed.

Lemma render_unique f f' ws ws' :
  wellFormed f ws -> wellFormed f' ws' -> render f ws = render f' ws' -> f = f'.
Proof.
  destruct f as [y mo d h mi sec], f' as [y' mo' d' h' mi' sec'].
  unfold wellFormed, render. cbn [cYear cMonth cDay cHour cMinute cSecond].
  intros (Hy & Hmo & Hd & (Hwn & Hwf) & Hh & Hmi & Hs)
         (Hy' & Hmo' & Hd' & (Hwn' & Hwf') & Hh' & Hmi' & Hs') E.
  apply (span_unique isDigit) in E as [<- E];
    [|apply Hy|apply Hy'|reflexivity|reflexivity].
  inversion E as [E1]. clear E.
  apply (span_unique isDigit) in E1 as [<- E];
    [|apply Hmo|apply Hmo'|reflexivity|reflexivity].
  inversion E as [E1]. clear E.
  apply (span_unique isDigit) in E1 as [<- E];
    [|apply Hd|apply Hd'
     |apply whiteSpace_stops; assumption
     |apply whiteSpace_stops; assumption].
  destruct (digits_head 1 2 h (Nat.le_refl 1) Hh) as (a & h1 & Eh & Ha).
  destruct (digits_head 1 2 h' (Nat.le_refl 1) Hh') as (a' & h1' & Eh' & Ha').
  rewrite Eh, Eh' in E. cbn [app] in E.
  apply space_run_unique in E as [<- E]; try assumption.
  change (a :: h1 ++ ":"%char :: mi ++ secondTail sec)
    with ((a :: h1) ++ ":"%char :: mi ++ secondTail sec) in E.
  change (a' :: h1' ++ ":"%char :: mi' ++ secondTail sec')
    with ((a' :: h1') ++ ":"%char :: mi' ++ secondTail sec') in E.
  rewrite <- Eh, <- Eh' in E. clear a h1 Eh Ha a' h1' Eh' Ha'.
  apply (span_unique isDigit) in E as [<- E];
    [|apply Hh|apply Hh'|reflexivity|reflexivity].
  inversion E as [E1]. clear E.
  apply (span_unique isDigit) in E1 as [<- E];
    [|apply Hmi|apply Hmi'|destruct sec; reflexivity|destruct sec'; reflexivity].
  destruct sec, sec'; simpl in E; try discriminate; [|reflexivity].
  inversion E. reflexivity.
Qed.

Lemma matchStart_dateTimeRegex s f :
  matchStart dateTimeRegex s = Some f <->
  exists ws, wellFormed f ws /\ list_ascii_of_string s = render f ws.
Proof.
  unfold matchStart. split.
  - destruct (dateTimeRegex (list_ascii_of_string s)) as [|[f' r] l] eqn:E; [discriminate|].
    intros H. inversion H; subst. simpl.
    assert (Hin : In (f, r) (dateTimeRegex (list_ascii_of_string s)))
      by (rewrite E; now left).
    apply In_dateTimeRegex in Hin as [_ H']. exact H'.
  - intros (ws & Hw & Hs).
    assert (Hin : In (f, []) (dateTimeRegex (list_ascii_of_string s)))
      by (apply In_dateTimeRegex; eauto).
    destruct (dateTimeRegex (list_ascii_of_string s)) as [|[f' r] l] eqn:E; [contradiction|].
    assert (Hin' : In (f', r) (dateTimeRegex (list_ascii_of_string s)))
      by (rewrite E; now left).
    apply In_dateTimeRegex in Hin' as (_ & ws' & Hw' & Hs').
    simpl. f_equal. apply (render_unique f' f ws' ws); congruence.
Qed.

Lemma not_blank s f ws :
  wellFormed f ws -> list_ascii_of_string s = render f ws ->
  (s =? "")%string || (trim s =? "")%string = false.
Proof.
  intros (Hy & _) Hs.
  destruct (cYear f) as [|c y] eqn:Ey.
  { destruct Hy as [Hl _]. simpl in Hl. lia. }
  assert (Hc : isDigit c = true).
  { destruct Hy as [_ Hf]. simpl in Hf. now apply andb_true_iff in Hf as [Hc _]. }
  unfold render in Hs. rewrite Ey in Hs. simpl in Hs.
  apply orb_false_iff. split; apply String.eqb_neq.
  - intros ->. discriminate Hs.
  - unfold trim. rewrite Hs, (dropSpaces_digit c _ Hc).
    intros E.
    assert (E' : list_ascii_of_string (string_of_list_ascii
                   (rev (dropSpacesRev (rev (c :: (y ++ "/"%char :: cMonth f ++ "/"%char ::
                      cDay f ++ ws ++ cHour f ++ ":"%char :: cMinute f ++
                      secondTail (cSecond f))))))) = [])
      by (rewrite E; reflexivity).
    rewrite list_ascii_of_string_of_list_ascii in E'.
    apply (f_equal (@rev ascii)) in E'. rewrite rev_involutive in E'. simpl in E'.
    apply dropSpacesRev_nil in E'. apply Forall_app in E' as [_ E'].
    inversion E'; subst. congruence.
Qed.

Section Parser.
Variable tza : JsDate.LocalTZA.

(** What [parseDateTime] does of a text of the pattern. *)
Lemma parseDateTime_matched s f ws :
    list_ascii_of_string s = render f ws -> wellFormed f ws ->
    parseDateTime tza s =
      let date := JsDate.newDate tza (parseInt (cYear f)) (parseInt (cMonth f) - 1)
                    (parseInt (cDay f)) (parseInt (cHour f)) (parseInt (cMinute f))
                    (secondValue f) in
      if negb (JsDate.getFullYear tza date =? parseInt (cYear f)) ||
         negb (JsDate.getMonth tza date =? parseInt (cMonth f) - 1) ||
         negb (JsDate.getDate tza date =? parseInt (cDay f)) ||
         negb (JsDate.getHours tza date =? parseInt (cHour f)) ||
         negb (JsDate.getMinutes tza date =? parseInt (cMinute f)) ||
         negb (JsDate.getSeconds tza date =? secondValue f)
      then Err (newError ("Invalid datetime format: " ++ s))
      else Ok date.
Proof.
    intros Hs Hw. unfold parseDateTime.
    rewrite (not_blank s f ws Hw Hs).
    assert (Em : matchStart dateTimeRegex s = Some f)
      by (apply matchStart_dateTimeRegex; eauto).
    rewrite Em. reflexivity.
Qed.

Lemma newDate_civilTime f :
    100 <= parseInt (cYear f) ->
    JsDate.newDate tza (parseInt (cYear f)) (parseInt (cMonth f) - 1)
      (parseInt (cDay f)) (parseInt (cHour f)) (parseInt (cMinute f)) (secondValue f)
    = JsDate.UTC tza (civilTime f).
Proof.
    intros Hy. unfold JsDate.newDate, civilTime.
    destruct (Z.leb_spec (parseInt (cYear f)) 99); [lia|]. rewrite andb_false_r.
    reflexivity.
Qed.

Lemma civilTime_components f :
    calendarValid f ->
    JsDate.YearFromTime (civilTime f) = parseInt (cYear f) /\
    JsDate.MonthFromTime (civilTime f) = parseInt (cMonth f) - 1 /\
    JsDate.DateFromTime (civilTime f) = parseInt (cDay f) /\
    JsDate.HourFromTime (civilTime f) = parseInt (cHour f) /\
    JsDate.MinFromTime (civilTime f) = parseInt (cMinute f) /\
    JsDate.SecFromTime (civilTime f) = secondValue f.
Proof. intros Hv. exact (civil_roundtrip _ _ _ _ _ _ Hv). Qed.

Lemma civilTime_second f : civilTime f mod 1000 = 0.
Proof.
    unfold civilTime, JsDate.MakeDate, JsDate.MakeTime, JsDate.msPerDay, JsDate.msPerHour,
      JsDate.msPerMinute, JsDate.msPerSecond.
    generalize (JsDate.MakeDay (parseInt (cYear f)) (parseInt (cMonth f) - 1)
                  (parseInt (cDay f))).
    intros D. Z.div_mod_to_equations. lia.
Qed.

Lemma localTimeExists_second t :
    t mod 1000 = 0 ->
    (localTimeExists tza t <-> JsDate.LocalTime tza (JsDate.UTC tza t) / 1000 = t / 1000).
Proof.
    intros Hm. unfold localTimeExists.
    generalize (JsDate.LocalTime tza (JsDate.UTC tza t)). intros t'.
    split; intros H; Z.div_mod_to_equations; lia.
Qed.

Lemma parseDateTime_Ok s d :
    parseDateTime tza s = Ok d ->
    exists f ws,
      list_ascii_of_string s = render f ws /\ wellFormed f ws /\
      calendarValid f /\ componentsOf tza d = valuesOf f.
Proof.
    unfold parseDateTime.
    destruct ((s =? "")%string || (trim s =? "")%string); [intros H; discriminate H|].
    destruct (matchStart dateTimeRegex s) as [f|] eqn:Em; [|intros H; discriminate H].
    apply matchStart_dateTimeRegex in Em as (ws & Hw & Hs).
    fold (secondValue f).
    generalize (JsDate.newDate tza (parseInt (cYear f)) (parseInt (cMonth f) - 1)
                  (parseInt (cDay f)) (parseInt (cHour f)) (parseInt (cMinute f))
                  (secondValue f)).
    intros date.
    match goal with |- (if ?c then _ else _) = _ -> _ => destruct c eqn:E end;
      [intros H; discriminate H|].
    intros H; injection H as <-.
    repeat (apply orb_false_iff in E as [E ?]).
    repeat match goal with
      | H : negb (_ =? _) = false |- _ => apply negb_false_iff, Z.eqb_eq in H
      end.
    exists f, ws. split; [exact Hs|]. split; [exact Hw|].
    pose proof (components_valid (JsDate.LocalTime tza date)) as V.
    unfold JsDate.getFullYear, JsDate.getMonth, JsDate.getDate, JsDate.getHours,
      JsDate.getMinutes, JsDate.getSeconds in *.
    rewrite E, H2, H1, H0, H in V.
    replace (JsDate.MonthFromTime (JsDate.LocalTime tza date) + 1)
      with (parseInt (cMonth f)) in V by (rewrite H3; ring).
    split; [exact V|].
    unfold componentsOf, valuesOf, JsDate.getFullYear, JsDate.getMonth, JsDate.getDate,
      JsDate.getHours, JsDate.getMinutes, JsDate.getSeconds.
    rewrite E, H3, H2, H1, H0, H.
    replace (parseInt (cMonth f) - 1 + 1) with (parseInt (cMonth f)) by ring.
    reflexivity.
Qed.

Lemma parseDateTime_complete s f ws :
    list_ascii_of_string s = render f ws -> wellFormed f ws -> calendarValid f ->
    100 <= parseInt (cYear f) ->
    localTimeExists tza (civilTime f) ->
    parseDateTime tza s = Ok (JsDate.UTC tza (civilTime f)) /\
    componentsOf tza (JsDate.UTC tza (civilTime f)) = valuesOf f.
Proof.
    intros Hs Hw Hv Hy Hex.
    rewrite (parseDateTime_matched s f ws Hs Hw). cbv zeta.
    rewrite (newDate_civilTime f Hy).
    apply (localTimeExists_second _ (civilTime_second f)) in Hex.
    destruct (components_second _ _ Hex) as (C1 & C2 & C3 & C4 & C5 & C6).
    destruct (civilTime_components f Hv) as (R1 & R2 & R3 & R4 & R5 & R6).
    rewrite R1 in C1. rewrite R2 in C2. rewrite R3 in C3. rewrite R4 in C4.
    rewrite R5 in C5. rewrite R6 in C6.
    revert C1 C2 C3 C4 C5 C6.
    unfold componentsOf, valuesOf, JsDate.getFullYear, JsDate.getMonth, JsDate.getDate,
      JsDate.getHours, JsDate.getMinutes, JsDate.getSeconds.
    generalize (JsDate.LocalTime tza (JsDate.UTC tza (civilTime f))).
    intros t' C1 C2 C3 C4 C5 C6.
    rewrite C1, C2, C3, C4, C5, C6, !Z.eqb_refl. cbn [negb orb].
    split; [reflexivity|].
    replace (parseInt (cMonth f) - 1 + 1) with (parseInt (cMonth f)) by ring.
    reflexivity.
Qed.

Lemma parseDateTime_skipped s f ws :
    list_ascii_of_string s = render f ws -> wellFormed f ws -> calendarValid f ->
    100 <= parseInt (cYear f) ->
    ~ localTimeExists tza (civilTime f) ->
    parseDateTime tza s = Err (newError ("Invalid datetime format: " ++ s)).
Proof.
    intros Hs Hw Hv Hy Hex.
    rewrite (parseDateTime_matched s f ws Hs Hw). cbv zeta.
    rewrite (newDate_civilTime f Hy).
    rewrite (localTimeExists_second _ (civilTime_second f)) in Hex.
    destruct (civilTime_components f Hv) as (R1 & R2 & R3 & R4 & R5 & R6).
    revert Hex R1 R2 R3 R4 R5 R6.
    unfold JsDate.getFullYear, JsDate.getMonth, JsDate.getDate,
      JsDate.getHours, JsDate.getMinutes, JsDate.getSeconds.
    generalize (JsDate.LocalTime tza (JsDate.UTC tza (civilTime f))).
    generalize (JsDate.UTC tza (civilTime f)).
    generalize (civilTime f).
    intros t d t' Hex R1 R2 R3 R4 R5 R6.
    match goal with |- (if ?c then _ else _) = _ => destruct c eqn:E end; [reflexivity|].
    exfalso. apply Hex.
    repeat (apply orb_false_iff in E as [E ?]).
    repeat match goal with
      | H : negb (_ =? _) = false |- _ => apply negb_false_iff, Z.eqb_eq in H
      end.
    apply same_components_second; congruence.
Qed.
End Parser.


(** C5 (as amended): [parseDateTime] succeeds only on a text made of a
    4-digit year, "/", a 1-2 digit month, "/", a 1-2 digit day, one or more
    white-space characters, a 1-2 digit hour, ":", a 1-2 digit minute and
    optionally ":" and a 1-2 digit second, whose digits denote a
    calendar-valid date and time, and the components of the [Date]
    returned then equal the input digits, seconds being 0 when absent.
    Such a text whose year is at least 0100 is accepted exactly when the
    local time it denotes exists on the host, the [Date] being the instant
    of that local time; when a change of offset skips that local time
    the text is rejected.  Every other text yields an error. *)
Theorem parseDateTime_spec (tza : JsDate.LocalTZA) :
  (forall s d,
     parseDateTime tza s = Ok d ->
     exists f ws,
       list_ascii_of_string s = render f ws /\ wellFormed f ws /\
       calendarValid f /\ componentsOf tza d = valuesOf f) /\
  (forall s f ws,
     list_ascii_of_string s = render f ws -> wellFormed f ws -> calendarValid f ->
     100 <= parseInt (cYear f) ->
     (localTimeExists tza (civilTime f) ->
      parseDateTime tza s = Ok (JsDate.UTC tza (civilTime f)) /\
      componentsOf tza (JsDate.UTC tza (civilTime f)) = valuesOf f) /\
     (~ localTimeExists tza (civilTime f) ->
      parseDateTime tza s = Err (newError ("Invalid datetime format: " ++ s)%string))) /\
  (forall s,
     (forall f ws, wellFormed f ws -> calendarValid f ->
                   list_ascii_of_string s <> render f ws) ->
     exists e, parseDateTime tza s = Err e).
Proof.
  split; [exact (parseDateTime_Ok tza)|].
  split.
  - intros s f ws Hs Hw Hv Hy. split.
    + exact (parseDateTime_complete tza s f ws Hs Hw Hv Hy).
    + exact (parseDateTime_skipped tza s f ws Hs Hw Hv Hy).
  - intros s Hnone. destruct (parseDateTime tza s) as [d|e] eqn:E; [|eauto].
    exfalso. apply parseDateTime_Ok in E as (f & ws & Hs & Hw & Hv & _).
    exact (Hnone f ws Hw Hv Hs).
Qed.

Lemma parseDateTime_witness :
  parseDateTime demoUtc "2024/01/15 10:00" = Ok (JsDate.UTC demoUtc (civilTime demoCaptures)) /\
  componentsOf demoUtc (JsDate.UTC demoUtc (civilTime demoCaptures)) = (2024, 1, 15, 10, 0, 0).
Proof.
  apply (proj1 (proj2 (parseDateTime_spec demoUtc)) "2024/01/15 10:00" demoCaptures demoSpace).
  - reflexivity.
  - unfold wellFormed, digits. simpl. repeat split; try lia; discriminate.
  - unfold calendarValid, JsDate.validCivil. vm_compute. repeat split; discriminate.
  - vm_compute. discriminate.
  - unfold localTimeExists. vm_compute. split; [discriminate|reflexivity].
Defined.

(** C5, counterexample: a tab between date and time is accepted, though
    the text is none of [YYYY/MM/DD HH:MM] and [YYYY/MM/DD HH:MM:SS]. *)
Lemma parseDateTime_accepts_tab_separator :
  matchesSpecPattern demoTabbed = false /\
  parseDateTime demoUtc demoTabbed = Ok 1705312800000.
Proof. split; vm_compute; reflexivity. Qed.

(** The years 0000 to 0099 are read by [new Date] as 1900 to 1999, so a
    calendar-valid text of the pattern with such a year is rejected. *)
Example parseDateTime_rejects_year_0099 :
  matchesSpecPattern "0099/01/01 10:00" = true /\
  parseDateTime demoUtc "0099/01/01 10:00" =
    Err (newError "Invalid datetime format: 0099/01/01 10:00").
Proof. split; vm_compute; reflexivity. Qed.

(** On a host in America/New_York the local time 02:30 of 2024-03-10 does
    not exist: the calendar-valid text is rejected, while the same text an
    hour later is accepted. *)
Example parseDateTime_rejects_skipped_local_time :
  matchesSpecPattern "2024/03/10 02:30" = true /\
  parseDateTime demoNewYork "2024/03/10 02:30" =
    Err (newError "Invalid datetime format: 2024/03/10 02:30") /\
  parseDateTime demoNewYork "2024/03/10 03:30" = Ok 1710055800000.
Proof. repeat split; vm_compute; reflexivity. Qed.

(** The separator may be white space outside ASCII: here U+3000, the
    ideographic space, of three bytes. *)
Example parseDateTime_accepts_ideographic_space :
  parseDateTime demoUtc "2024/01/15　10:00" = Ok 1705312800000.
Proof. vm_compute. reflexivity. Qed.

(** C6 (as amended): a row of fewer than 7 fields fails with the message
    on insufficient columns; on a row of at least 7 fields the first of
    these that applies decides: the start field is rejected by
    [parseDateTime] (error naming the start datetime), the end field is
    rejected (error naming the end datetime), the person-in-charge id has
    a [length] below 3, that is fewer than 3 UTF-16 code units (error
    naming the person in charge ID); otherwise the [Schedule] is built
    from the first 7 fields in order. *)
Theorem validateScheduleRow_spec (tza : JsDate.LocalTZA) :
  (forall row,
     (List.length row < 7)%nat ->
     validateScheduleRow tza row =
       Err (newError ("Invalid row data: insufficient columns (expected 7, got "
                      ++ showZ (Z.of_nat (List.length row)) ++ ")")%string)) /\
  (forall p e s en id nm rk rest,
     let row := p :: e :: s :: en :: id :: nm :: rk :: rest in
     (forall err,
        parseDateTime tza s = Err err ->
        validateScheduleRow tza row =
          Err (newError ("Invalid start datetime: " ++ error_message err)%string)) /\
     (forall ds err,
        parseDateTime tza s = Ok ds -> parseDateTime tza en = Err err ->
        validateScheduleRow tza row =
          Err (newError ("Invalid end datetime: " ++ error_message err)%string)) /\
     (forall ds de,
        parseDateTime tza s = Ok ds -> parseDateTime tza en = Ok de ->
        (jsLength id < 3)%nat ->
        validateScheduleRow tza row =
          Err (newError ("Invalid person in charge ID: " ++ id)%string)) /\
     (forall ds de,
        parseDateTime tza s = Ok ds -> parseDateTime tza en = Ok de ->
        (3 <= jsLength id)%nat ->
        validateScheduleRow tza row = Ok (mkSchedule p e ds de id nm rk))).
Proof.
  split.
  - intros row H.
    destruct row as [|a [|b [|c [|d [|e [|f [|g r]]]]]]]; simpl in H; try lia; reflexivity.
  - intros p e s en id nm rk rest row. unfold row, validateScheduleRow.
    split; [|split; [|split]].
    + intros err ->. reflexivity.
    + intros ds err -> ->. reflexivity.
    + intros ds de -> -> Hid. unfold isValidSlackUserId.
      destruct (Nat.leb_spec 3 (jsLength id)); [lia|reflexivity].
    + intros ds de -> -> Hid. unfold isValidSlackUserId.
      destruct (Nat.leb_spec 3 (jsLength id)); [reflexivity|lia].
Qed.

Lemma validateScheduleRow_witness :
  validateScheduleRow demoUtc demoRow =
    Ok (mkSchedule "web-app" "staging" 1705312800000 1705341600000
                   "U1234ABCD" "John Doe" "Feature testing").
Proof.
  apply (proj2 (proj2 (proj2 (proj2 (validateScheduleRow_spec demoUtc)
           "web-app" "staging" "2024/01/15 10:00" "2024/01/15 18:00"
           "U1234ABCD" "John Doe" "Feature testing" [])))).
  - vm_compute. reflexivity.
  - vm_compute. reflexivity.
  - vm_compute. lia.
Defined.

(** C6, counterexample: with a rejected start field, the error names the
    start datetime only, although [parseDateTime] rejects the end field and
    the id has 2 characters. *)
Lemma validateScheduleRow_reports_first_failure_only :
  isErr (parseDateTime demoUtc "worse") = true /\
  jsLength "ab" = 2%nat /\
  validateScheduleRow demoUtc demoBadRow =
    Err (newError "Invalid start datetime: Invalid datetime format: bad") /\
  includes "Invalid start datetime: Invalid datetime format: bad" "end datetime" = false /\
  includes "Invalid start datetime: Invalid datetime format: bad" "person in charge ID" = false.
Proof. repeat split; vm_compute; reflexivity. Qed.

(** The length that counts is the one of JavaScript: an id of two
    characters is rejected, although its UTF-8 encoding has six bytes. *)
Example validateScheduleRow_rejects_two_characters :
  String.length "太郎" = 6%nat /\ jsLength "太郎" = 2%nat /\
  validateScheduleRow demoUtc demoShortIdRow =
    Err (newError "Invalid person in charge ID: 太郎").
Proof. repeat split; vm_compute; reflexivity. Qed.

End ScheduleParserFacts.


(* ------------------------------------------------------------------ *)
(** ** The arithmetic of doubles *)

Module NumberFacts.
Import ReleaseChecker.
Local Open Scope Z_scope.

Lemma Qred_inject_Z z : Qred (inject_Z z) = inject_Z z.
Proof.
  pose proof (Qred_correct (inject_Z z)) as E.
  pose proof (gcd_Qred (inject_Z z)) as G.
  destruct (Qred (inject_Z z)) as [n d]. unfold Qeq, inject_Z in *. cbn [Qnum Qden] in *.
  assert (Hd : Z.pos d = 1).
  { assert (Hdiv : (Z.pos d | n * 1)) by (exists z; lia).
    rewrite Z.mul_1_r in Hdiv.
    assert (Hg : (Z.pos d | Z.gcd n (Z.pos d))) by (apply Z.gcd_greatest; [exact Hdiv|apply Z.divide_refl]).
    rewrite G in Hg. apply Z.divide_1_r_nonneg in Hg; lia. }
  assert (d = 1%positive) by lia. subst d. f_equal. lia.
Qed.

Lemma pow2_pos k : (0 < pow2 k)%Q.
Proof.
  unfold pow2. destruct (Z.leb_spec 0 k).
  - unfold Qlt, inject_Z. cbn [Qnum Qden]. pose proof (Z.pow_pos_nonneg 2 k). lia.
  - reflexivity.
Qed.

Lemma roundMagnitude_sign negative a d :
  0 < a -> 0 < d ->
  match roundMagnitude negative a d with
  | Num q => if negative then (q <= 0)%Q else (0 <= q)%Q
  | NaN => False
  | Infinity s => s = negative
  end.
Proof.
  intros Ha Hd. unfold roundMagnitude.
  set (e := if belowPow2 a d (Z.log2 a - Z.log2 d) then Z.log2 a - Z.log2 d - 1
            else Z.log2 a - Z.log2 d).
  set (p := Z.max (e - 52) (-1074)).
  set (num := if p <? 0 then a * 2 ^ (- p) else a).
  set (den := if p <? 0 then d else d * 2 ^ p).
  set (m := num / den). set (r := num mod den).
  set (m' := if 2 * r <? den then m else if den <? 2 * r then m + 1
             else if Z.even m then m else m + 1).
  destruct ((1024 <=? e) || ((e =? 1023) && (m' =? 2 ^ 53))); [reflexivity|].
  assert (Hnum : 0 <= num).
  { unfold num. destruct (p <? 0); [|lia].
    pose proof (Z.pow_nonneg 2 (- p)). nia. }
  assert (Hden : 0 < den).
  { unfold den. destruct (Z.ltb_spec p 0); [lia|].
    pose proof (Z.pow_pos_nonneg 2 p). nia. }
  assert (Hm : 0 <= m) by (apply Z.div_pos; assumption).
  assert (Hm' : 0 <= m').
  { unfold m'. destruct (2 * r <? den); [lia|]. destruct (den <? 2 * r); [lia|].
    destruct (Z.even m); lia. }
  pose proof (pow2_pos p) as Hp.
  destruct negative.
  - rewrite Qred_correct.
    setoid_replace 0%Q with (0 * pow2 p)%Q by ring.
    apply Qmult_le_compat_r; [|now apply Qlt_le_weak].
    unfold Qle, inject_Z. cbn [Qnum Qden]. lia.
  - rewrite Qred_correct.
    apply Qmult_le_0_compat; [|now apply Qlt_le_weak].
    unfold Qle, inject_Z. cbn [Qnum Qden]. lia.
Qed.

Lemma roundDouble_sign q :
  match roundDouble q with
  | Num q' => ((q <= 0)%Q -> (q' <= 0)%Q) /\ ((0 <= q)%Q -> (0 <= q')%Q)
  | NaN => False
  | Infinity s => if s then (q < 0)%Q else (0 < q)%Q
  end.
Proof.
  unfold roundDouble. destruct q as [n d]. cbn [Qnum Qden].
  destruct n as [|a|a].
  - split; intros _; apply Qle_refl.
  - pose proof (roundMagnitude_sign false (Z.pos a) (Z.pos d) ltac:(lia) ltac:(lia)) as S.
    destruct (roundMagnitude false (Z.pos a) (Z.pos d)) as [q'| |s]; [|exact S|].
    + split; [|intros _; exact S]. intros H. unfold Qle in H. cbn [Qnum Qden] in H. lia.
    + subst s. unfold Qlt. cbn [Qnum Qden]. lia.
  - pose proof (roundMagnitude_sign true (Z.pos a) (Z.pos d) ltac:(lia) ltac:(lia)) as S.
    destruct (roundMagnitude true (Z.pos a) (Z.pos d)) as [q'| |s]; [|exact S|].
    + split; [intros _; exact S|]. intros H. unfold Qle in H. cbn [Qnum Qden] in H. lia.
    + subst s. unfold Qlt. cbn [Qnum Qden]. lia.
Qed.

Lemma roundMagnitude_Z negative a :
  0 < a < 2 ^ 53 ->
  roundMagnitude negative a 1 = Num (inject_Z (if negative then - a else a)).
Proof.
  intros Ha. unfold roundMagnitude.
  change (Z.log2 1) with 0. rewrite Z.sub_0_r.
  pose proof (Z.log2_spec a ltac:(lia)) as [Hlo Hhi].
  pose proof (Z.log2_nonneg a) as Hnn.
  assert (Hlt : Z.log2 a < 53) by (apply Z.log2_lt_pow2; lia).
  assert (Hb : belowPow2 a 1 (Z.log2 a) = false).
  { unfold belowPow2. destruct (Z.leb_spec 0 (Z.log2 a)); [|lia]. apply Z.ltb_ge. lia. }
  rewrite Hb.
  assert (Hp : Z.max (Z.log2 a - 52) (-1074) = Z.log2 a - 52) by lia.
  rewrite Hp.
  set (p := Z.log2 a - 52) in *.
  assert (Hden : (if p <? 0 then 1 else 1 * 2 ^ p) = 1).
  { destruct (Z.ltb_spec p 0); [reflexivity|]. assert (p = 0) by lia. subst p.
    replace (Z.log2 a - 52) with 0 by lia. reflexivity. }
  rewrite Hden. rewrite Z.div_1_r, Z.mod_1_r. cbn [Z.mul Z.ltb Z.compare].
  set (num := if p <? 0 then a * 2 ^ (- p) else a).
  assert (He : (1024 <=? Z.log2 a) || ((Z.log2 a =? 1023) && (num =? 2 ^ 53)) = false).
  { destruct (Z.leb_spec 1024 (Z.log2 a)); [lia|].
    destruct (Z.eqb_spec (Z.log2 a) 1023); [lia|]. reflexivity. }
  rewrite He. f_equal.
  rewrite <- (Qred_inject_Z (if negative then - a else a)).
  apply Qred_complete.
  unfold num, pow2.
  destruct (Z.ltb_spec p 0) as [Hneg|Hpos].
  - destruct (Z.leb_spec 0 p); [lia|].
    pose proof (Z.pow_pos_nonneg 2 (- p) ltac:(lia) ltac:(lia)) as Hpw.
    unfold Qeq, Qmult, inject_Z. cbn [Qnum Qden].
    rewrite Pos.mul_1_l, Z2Pos.id by exact Hpw.
    destruct negative; lia.
  - assert (p = 0) by lia. replace p with 0 by lia. cbn.
    unfold Qeq, Qmult, inject_Z. cbn [Qnum Qden]. destruct negative; lia.
Qed.

Lemma roundDouble_Z z : Z.abs z < 2 ^ 53 -> roundDouble (inject_Z z) = Num (inject_Z z).
Proof.
  intros Hz. unfold roundDouble, inject_Z at 1 2. cbn [Qnum Qden].
  destruct z as [|a|a].
  - reflexivity.
  - apply (roundMagnitude_Z false). lia.
  - apply (roundMagnitude_Z true). lia.
Qed.

Lemma mulNumber_numZ a b :
  Z.abs (a * b) < 2 ^ 53 -> mulNumber (numZ a) (numZ b) = numZ (a * b).
Proof.
  intros H. unfold mulNumber, numZ.
  change (inject_Z a * inject_Z b)%Q with (inject_Z (a * b)).
  now apply roundDouble_Z.
Qed.

Lemma mulNumber_not_positive x k :
  0 < k ->
  ltNumber (numZ 0) x = false ->
  ltNumber (numZ 0) (mulNumber x (numZ k)) = false.
Proof.
  intros Hk H. destruct x as [q| |[|]]; [| reflexivity | | discriminate H].
  - unfold ltNumber, numZ in H. apply negb_false_iff, Qle_bool_iff in H.
    unfold mulNumber, numZ.
    pose proof (roundDouble_sign (q * inject_Z k)) as S.
    destruct (roundDouble (q * inject_Z k)) as [q'| |[|]]; [|reflexivity|reflexivity|].
    + unfold ltNumber. apply negb_false_iff, Qle_bool_iff. apply S.
      unfold Qle, Qmult, inject_Z in *. cbn [Qnum Qden] in *. nia.
    + exfalso. unfold Qle, Qlt, Qmult, inject_Z in *. cbn [Qnum Qden] in *. nia.
  - unfold mulNumber, numZ.
    assert (E : Qeq_bool (inject_Z k) 0 = false).
    { unfold Qeq_bool, inject_Z. cbn [Qnum Qden]. apply Z.eqb_neq. lia. }
    assert (L : Qle_bool (inject_Z k) 0 = false).
    { unfold Qle_bool, inject_Z. cbn [Qnum Qden]. apply Z.leb_gt. lia. }
    rewrite E, L. reflexivity.
Qed.

Lemma roundMagnitude_integer negative a :
  0 < a ->
  roundMagnitude negative a 1 = Infinity negative \/
  exists z, 0 < z /\ roundMagnitude negative a 1 = numZ (if negative then - z else z).
Proof.
  intros Ha. destruct (Z.lt_ge_cases a (2 ^ 53)) as [Hs|Hb].
  { right. exists a. split; [exact Ha|]. apply roundMagnitude_Z. lia. }
  unfold roundMagnitude.
  change (Z.log2 1) with 0. rewrite Z.sub_0_r.
  pose proof (Z.log2_spec a ltac:(lia)) as [Hlo Hhi].
  assert (Hge : 53 <= Z.log2 a) by (apply Z.log2_le_pow2; lia).
  assert (Hbl : belowPow2 a 1 (Z.log2 a) = false).
  { unfold belowPow2. destruct (Z.leb_spec 0 (Z.log2 a)); [|lia]. apply Z.ltb_ge. lia. }
  rewrite Hbl.
  assert (Hp : Z.max (Z.log2 a - 52) (-1074) = Z.log2 a - 52) by lia.
  rewrite Hp.
  set (p := Z.log2 a - 52) in *.
  assert (Hp1 : 1 <= p) by (unfold p; lia).
  destruct (Z.ltb_spec p 0); [lia|]. rewrite Z.mul_1_l.
  pose proof (Z.pow_pos_nonneg 2 p ltac:(lia) ltac:(lia)) as Hpw.
  set (m := a / 2 ^ p). set (r := a mod 2 ^ p).
  set (m' := if 2 * r <? 2 ^ p then m else if 2 ^ p <? 2 * r then m + 1
             else if Z.even m then m else m + 1).
  assert (Hm : 1 <= m).
  { unfold m. apply Z.div_le_lower_bound; [lia|].
    assert (2 ^ p <= 2 ^ Z.log2 a) by (apply Z.pow_le_mono_r; unfold p; lia). lia. }
  assert (Hm' : 1 <= m').
  { unfold m'. destruct (2 * r <? 2 ^ p); [lia|]. destruct (2 ^ p <? 2 * r); [lia|].
    destruct (Z.even m); lia. }
  destruct ((1024 <=? Z.log2 a) || ((Z.log2 a =? 1023) && (m' =? 2 ^ 53)));
    [left; reflexivity|right].
  exists (m' * 2 ^ p). split; [nia|]. unfold numZ. f_equal.
  rewrite <- (Qred_inject_Z (if negative then - (m' * 2 ^ p) else m' * 2 ^ p)).
  apply Qred_complete. unfold pow2. destruct (Z.leb_spec 0 p); [|lia].
  unfold Qeq, Qmult, inject_Z. cbn [Qnum Qden]. destruct negative; lia.
Qed.

Lemma roundDouble_integer z :
  (exists s, roundDouble (inject_Z z) = Infinity s) \/
  exists z', roundDouble (inject_Z z) = numZ z' /\ (z' = 0 <-> z = 0).
Proof.
  unfold roundDouble, inject_Z at 1 3. cbn [Qnum Qden].
  destruct z as [|a|a].
  - right. exists 0. split; [reflexivity|tauto].
  - destruct (roundMagnitude_integer false (Z.pos a) ltac:(lia)) as [E|(z & Hz & E)];
      [left; eauto|right].
    exists z. split; [exact E|]. lia.
  - destruct (roundMagnitude_integer true (Z.pos a) ltac:(lia)) as [E|(z & Hz & E)];
      [left; eauto|right].
    exists (- z). split; [exact E|]. lia.
Qed.

(** Each product is rounded: 0.065 minutes, the double nearest to 65/1000,
    are 3900 + 2^-41 ms (3900.0000000000005), not 3900; and a product
    that reaches 2^1024 is an infinity. *)
Example mulNumber_rounds :
  roundDouble (65 # 1000) = Num (1170935903116329 # 18014398509481984) /\
  mulNumber (mulNumber (Num (1170935903116329 # 18014398509481984)) (numZ 60)) (numZ 1000)
    = Num (8576190696652801 # 2199023255552) /\
  (8576190696652801 # 2199023255552 == 3900 + (1 # 2 ^ 41))%Q /\
  mulNumber (numZ (2 ^ 1000)) (numZ (2 ^ 24)) = Infinity false.
Proof. repeat split; vm_compute; reflexivity. Qed.

End NumberFacts.

(* ------------------------------------------------------------------ *)
(** ** services/release-checker.ts *)

Module ReleaseCheckerFacts.
Import JsString DateUtils ReleaseChecker DemoRun.
Local Open Scope list_scope.
Local Open Scope string_scope.
Local Open Scope Z_scope.

Lemma newEvents_app w l w' :
  events w' = (events w ++ l)%list -> newEvents w w' = l.
Proof.
  unfold newEvents. intros ->.
  rewrite skipn_app, skipn_all, Nat.sub_diag. reflexivity.
Qed.

(** C1: when the time zone is known and [fetchSchedules] returns an error,
    [checkRelease] returns [ok] with status [approved]; before that it
    posts one message, the error notice, to the channel, and whatever
    that post returns, success or failure, the value returned is the same. *)
Theorem checkRelease_fetch_failure_approves
    (env : Env) (fuel : nat) (config : ReleaseCheckConfig) (channelId : string)
    (w : World) (e : Error) :
  utcOffset env (resolvedTimezone config) (clock w) <> None ->
  fetchSchedules env w = Err e ->
  exists (posted : Result MessageInfo) (w' : World),
    checkRelease env fuel config channelId w = Some (Ok fallbackResult, w') /\
    let w1 := after env w (FetchSchedules (Err e)) in
    posted = postMessage env channelId (errorNotice e) [] w1 /\
    w' = after env w1 (PostMessage channelId (errorNotice e) [] posted) /\
    newEvents w w' =
      [mkEvent (clock w) (FetchSchedules (Err e));
       mkEvent (clock w1) (PostMessage channelId (errorNotice e) [] posted)] /\
    List.length (filter (fun ev => isPost (call ev)) (newEvents w w')) = 1%nat.
Proof.
  intros Htz Hfetch.
  destruct (utcOffset env (resolvedTimezone config) (clock w)) as [off|] eqn:Hoff;
    [clear Htz|contradiction].
  set (w1 := after env w (FetchSchedules (Err e))).
  set (posted := postMessage env channelId (errorNotice e) [] w1).
  exists posted, (after env w1 (PostMessage channelId (errorNotice e) [] posted)).
  assert (Hnew : newEvents w (after env w1 (PostMessage channelId (errorNotice e) [] posted)) =
                 [mkEvent (clock w) (FetchSchedules (Err e));
                  mkEvent (clock w1) (PostMessage channelId (errorNotice e) [] posted)]).
  { apply newEvents_app. simpl. rewrite <- app_assoc. reflexivity. }
  split.
  - unfold checkRelease, getCurrentDateTime, mbind, dateNow.
    fold (resolvedTimezone config). rewrite Hoff. unfold mret, await.
    rewrite Hfetch. reflexivity.
  - cbv zeta. fold w1. split; [reflexivity|]. split; [reflexivity|].
    rewrite Hnew. split; reflexivity.
Qed.

Lemma findRelevantSchedules_In all p e t s :
  In s (findRelevantSchedules all p e t) <->
  In s all /\ productName s = p /\ environmentName s = e /\
  startDateTime s <= t < endDateTime s.
Proof.
  unfold findRelevantSchedules, findActiveSchedules.
  rewrite !filter_In, andb_true_iff, !String.eqb_eq.
  unfold isWithinTimeRange. rewrite andb_true_iff, Z.geb_le, Z.ltb_lt.
  intuition lia.
Qed.

(** C8: when fetching succeeds and no fetched schedule has the configured
    product name and environment name and is active at the resolved
    instant, [checkRelease] returns [ok] with status [no_schedule] and an
    empty list of schedules; the run asks for the schedules and nothing
    else: no message is posted. *)
Theorem checkRelease_no_schedule_posts_nothing
    (env : Env) (fuel : nat) (config : ReleaseCheckConfig) (channelId : string)
    (w : World) (offsetMinutes : Z) (all : list Schedule) :
  utcOffset env (resolvedTimezone config) (clock w) = Some offsetMinutes ->
  fetchSchedules env w = Ok all ->
  (forall s, In s all ->
     ~ (productName s = configProductName config /\
        environmentName s = configEnvironmentName config /\
        startDateTime s <= clock w + offsetMinutes * 60000 < endDateTime s)) ->
  exists w',
    checkRelease env fuel config channelId w = Some (Ok (noScheduleResult config), w') /\
    newEvents w w' = [mkEvent (clock w) (FetchSchedules (Ok all))] /\
    Forall (fun ev => isPost (call ev) = false) (newEvents w w').
Proof.
  intros Hoff Hfetch Hnone.
  assert (Hrel : findRelevantSchedules all (configProductName config)
                   (configEnvironmentName config) (clock w + offsetMinutes * 60000) = []).
  { destruct (findRelevantSchedules _ _ _ _) as [|s l] eqn:E; [reflexivity|].
    exfalso. assert (Hin : In s (s :: l)) by now left.
    rewrite <- E in Hin. apply findRelevantSchedules_In in Hin.
    apply (Hnone s); tauto. }
  exists (after env w (FetchSchedules (Ok all))).
  split.
  - unfold checkRelease, getCurrentDateTime, mbind, dateNow.
    fold (resolvedTimezone config). rewrite Hoff. unfold mret, await.
    rewrite Hfetch, Hrel. reflexivity.
  - assert (Hnew : newEvents w (after env w (FetchSchedules (Ok all))) =
                   [mkEvent (clock w) (FetchSchedules (Ok all))])
      by (apply newEvents_app; reflexivity).
    rewrite Hnew. split; [reflexivity|]. repeat constructor.
Qed.

(** C9: when relevant active schedules exist and posting the approval
    request returns an error, [checkRelease] returns an error result, a
    [NetworkError] whose cause is the error of the post, and no polling
    takes place. *)
Theorem checkRelease_post_failure_propagates
    (env : Env) (fuel : nat) (config : ReleaseCheckConfig) (channelId : string)
    (w : World) (offsetMinutes : Z) (all : list Schedule) (e : Error) :
  utcOffset env (resolvedTimezone config) (clock w) = Some offsetMinutes ->
  fetchSchedules env w = Ok all ->
  let relevant := findRelevantSchedules all (configProductName config)
                    (configEnvironmentName config) (clock w + offsetMinutes * 60000) in
  relevant <> [] ->
  postMessage env channelId (approvalMessage env relevant config)
              (unique (map personInChargeId relevant))
              (after env w (FetchSchedules (Ok all))) = Err e ->
  exists w',
    checkRelease env fuel config channelId w =
      Some (Err (MkErrorCause NetworkError "Failed to post approval request to Slack" e), w') /\
    map call (newEvents w w') =
      [FetchSchedules (Ok all);
       PostMessage channelId (approvalMessage env relevant config)
                   (unique (map personInChargeId relevant)) (Err e)].
Proof.
  intros Hoff Hfetch relevant Hrel Hpost.
  assert (Hlen : (List.length relevant =? 0)%nat = false)
    by (destruct relevant; [contradiction|reflexivity]).
  set (w1 := after env w (FetchSchedules (Ok all))) in *.
  set (text := approvalMessage env relevant config) in *.
  set (ids := unique (map personInChargeId relevant)) in *.
  exists (after env w1 (PostMessage channelId text ids (Err e))).
  split.
  - unfold checkRelease, getCurrentDateTime, mbind, dateNow.
    fold (resolvedTimezone config). rewrite Hoff. unfold mret, await at 1.
    rewrite Hfetch. fold relevant. rewrite Hlen.
    unfold requestApproval, await. fold text ids.
    unfold w1, after in Hpost. rewrite Hpost. reflexivity.
  - erewrite newEvents_app; [|simpl; rewrite <- app_assoc; reflexivity].
    reflexivity.
Qed.


Lemma notExcluded_In ex xs u :
  In u (notExcluded ex xs) <-> In u xs /\ ~ In u ex.
Proof.
  unfold notExcluded. rewrite filter_In, negb_true_iff.
  split; intros [H1 H2]; split; auto.
  - intros Hin. assert (E : existsb (String.eqb u) ex = true).
    { apply existsb_exists. exists u. split; auto. apply String.eqb_refl. }
    congruence.
  - destruct (existsb (String.eqb u) ex) eqn:E; [|reflexivity].
    exfalso. apply existsb_exists in E as (v & Hv & Huv).
    apply String.eqb_eq in Huv. subst. contradiction.
Qed.

Lemma votersOf_In ex token reactions u :
  In u (votersOf ex token reactions) <->
  exists r, In r reactions /\ name r = token /\ In u (users r) /\ ~ In u ex.
Proof.
  unfold votersOf. rewrite notExcluded_In, in_flat_map. split.
  - intros [(r & Hr & Hu) Hex]. apply filter_In in Hr as [Hr Hn].
    apply String.eqb_eq in Hn. eauto.
  - intros (r & Hr & Hn & Hu & Hex). split; auto.
    exists r. split; auto. apply filter_In. split; auto. now apply String.eqb_eq.
Qed.

Lemma votersOf_nil ex token reactions :
  votersOf ex token reactions = [] <-> ~ countedBy ex token reactions.
Proof.
  split.
  - intros E (r & Hr & Hn & u & Hu & Hex).
    assert (Hin : In u (votersOf ex token reactions))
      by (apply votersOf_In; eauto).
    rewrite E in Hin. contradiction.
  - intros N. destruct (votersOf ex token reactions) as [|u l] eqn:E; [reflexivity|].
    exfalso. apply N.
    assert (Hin : In u (votersOf ex token reactions)) by (rewrite E; now left).
    apply votersOf_In in Hin as (r & Hr & Hn & Hu & Hex).
    exists r. split; auto. split; eauto.
Qed.

Lemma decisive_countedBy ex ap rj reactions :
  decisive ex ap rj reactions <->
  countedBy ex rj reactions \/ countedBy ex ap reactions.
Proof.
  unfold decisive, countedBy. split.
  - intros (r & Hr & [H|H]); [left|right]; eauto.
  - intros [(r & Hr & H)|(r & Hr & H)]; exists r; auto.
Qed.

(** The guard on [rejections.length] (and on [approvals.length]) never
    changes what follows. *)
Lemma length_guard ex token reactions :
  (if (0 <? List.length (filter (fun r => (name r =? token)%string) reactions))%nat
   then votersOf ex token reactions else []) = votersOf ex token reactions.
Proof.
  unfold votersOf.
  destruct (filter (fun r => (name r =? token)%string) reactions); reflexivity.
Qed.

Section Loop.
Variable env : Env.
Variables (channelId messageTimestamp : string) (excludeUserIds : list string).
Variables (approveReaction_ rejectReaction_ : string).
Variables (pollIntervalMs startTime : Z) (timeoutMs : number).

Let run := pollLoop env channelId messageTimestamp excludeUserIds
                      approveReaction_ rejectReaction_ pollIntervalMs startTime timeoutMs.
Let decide_ := decide env channelId messageTimestamp excludeUserIds
                        approveReaction_ rejectReaction_.

Lemma pollLoop_S fuel w :
    run (S fuel) w =
      if ltNumber (numZ (clock w - startTime)) timeoutMs then
        match getReactions env channelId messageTimestamp w with
        | Err e =>
            run fuel (afterSleep env
                        (after env w (GetReactions channelId messageTimestamp (Err e)))
                        pollIntervalMs)
        | Ok reactions =>
            match decide_ reactions
                    (after env w (GetReactions channelId messageTimestamp (Ok reactions))) with
            | Some (Some result, w') => Some (result, w')
            | Some (None, w') => run fuel (afterSleep env w' pollIntervalMs)
            | None => None
            end
        end
      else Some (mkApprovalResult timeout None, w).
  Proof.
    unfold run, decide_. cbn [pollLoop]. unfold mbind at 1, dateNow.
    destruct (ltNumber _ _); [|reflexivity].
    unfold mbind at 1, await at 1.
    destruct (getReactions env channelId messageTimestamp w) as [reactions|e].
    - unfold mbind at 1. fold (after env w (GetReactions channelId messageTimestamp (Ok reactions))).
      destruct (decide _ _ _ _ _ _ _ _) as [[[r|] w']|]; reflexivity.
    - reflexivity.
  Qed.

Lemma decide_cases reactions w :
    (countedBy excludeUserIds rejectReaction_ reactions /\
     exists u t,
       decide_ reactions w =
         Some (Some (mkApprovalResult rejected
                       (Some (votersOf excludeUserIds rejectReaction_ reactions))),
               after env (after env w (GetUserInfo u (getUserInfo env u w)))
                     (PostThreadMessage channelId messageTimestamp t
                        (postThreadMessage env channelId messageTimestamp t
                           (after env w (GetUserInfo u (getUserInfo env u w))))))) \/
    (~ countedBy excludeUserIds rejectReaction_ reactions /\
     countedBy excludeUserIds approveReaction_ reactions /\
     exists u t,
       decide_ reactions w =
         Some (Some (mkApprovalResult approved
                       (Some (votersOf excludeUserIds approveReaction_ reactions))),
               after env (after env w (GetUserInfo u (getUserInfo env u w)))
                     (PostThreadMessage channelId messageTimestamp t
                        (postThreadMessage env channelId messageTimestamp t
                           (after env w (GetUserInfo u (getUserInfo env u w))))))) \/
    (~ countedBy excludeUserIds rejectReaction_ reactions /\
     ~ countedBy excludeUserIds approveReaction_ reactions /\
     decide_ reactions w = Some (None, w)).
  Proof.
    unfold decide_, decide.
    fold (votersOf excludeUserIds rejectReaction_ reactions).
    fold (votersOf excludeUserIds approveReaction_ reactions).
    rewrite !length_guard.
    destruct (votersOf excludeUserIds rejectReaction_ reactions) as [|u l] eqn:Er.
    - apply votersOf_nil in Er.
      destruct (votersOf excludeUserIds approveReaction_ reactions) as [|u l] eqn:Ea.
      + apply votersOf_nil in Ea. right. right. auto.
      + right. left. split; auto. split.
        * assert (Hin : In u (votersOf excludeUserIds approveReaction_ reactions))
            by (rewrite Ea; now left).
          apply votersOf_In in Hin as (r & Hr & Hn & Hu & Hex).
          exists r. split; auto. split; eauto.
        * exists u. eexists. unfold mbind, await, mret. reflexivity.
    - left. split.
      + assert (Hin : In u (votersOf excludeUserIds rejectReaction_ reactions))
          by (rewrite Er; now left).
        apply votersOf_In in Hin as (r & Hr & Hn & Hu & Hex).
        exists r. split; auto. split; eauto.
      + exists u. eexists. unfold mbind, await, mret. reflexivity.
  Qed.

Lemma below_timeout elapsed q :
    ltNumber (numZ elapsed) (Num q) = true -> elapsed <= Qceiling q - 1.
  Proof.
    unfold ltNumber, numZ. rewrite negb_true_iff. intros H.
    assert (Hlt : (inject_Z elapsed < q)%Q).
    { apply Qnot_le_lt. intro Hle. apply Qle_bool_iff in Hle. congruence. }
    assert (Hc : elapsed < Qceiling q).
    { rewrite Zlt_Qlt. eapply Qlt_le_trans; [exact Hlt|apply Qle_ceiling]. }
    lia.
  Qed.

Lemma loop_condition_true elapsed :
    timeoutMs <> Infinity false ->
    ltNumber (numZ elapsed) timeoutMs = true ->
    0 < remaining timeoutMs elapsed /\
    forall d, 0 <= d -> remaining timeoutMs (elapsed + d) <= Z.max 0 (remaining timeoutMs elapsed - d).
  Proof.
    intros Hfin H. unfold remaining.
    destruct timeoutMs as [q| |[|]]; [|discriminate H|discriminate H|congruence].
    apply below_timeout in H. split; intros; lia.
  Qed.

(** What a run of the loop from [w] adds to the trace, whenever it
    returns: the events begin with a [getReactions] issued in [w] unless
    the time is up in [w]; every [getReactions] is issued before the time
    is up; one that decides nothing is followed by the sleep and then by
    the end of the run, with [timeout], or by the next [getReactions]; and
    the run ends within one tick of its last [getReactions]. *)
Let traced (w : World) (res : ApprovalResult) (w' : World) (new : list Event) : Prop :=
    events w' = (events w ++ new)%list /\
    clock w <= clock w' /\
    ((forall e rs, In e new ->
                   call e = GetReactions channelId messageTimestamp (Ok rs) ->
                   ~ decisive excludeUserIds approveReaction_ rejectReaction_ rs) <->
     res = mkApprovalResult timeout None) /\
    (forall e, In e new -> isGetReactions (call e) = true ->
               ltNumber (numZ (issuedAt e - startTime)) timeoutMs = true) /\
    (approvalStatus res = timeout ->
     ltNumber (numZ (clock w' - startTime)) timeoutMs = false) /\
    (ltNumber (numZ (clock w - startTime)) timeoutMs = false /\
     new = [] /\ res = mkApprovalResult timeout None /\ w' = w \/
     ltNumber (numZ (clock w - startTime)) timeoutMs = true /\
     exists rest,
       new = mkEvent (clock w)
               (GetReactions channelId messageTimestamp
                  (getReactions env channelId messageTimestamp w)) :: rest) /\
    (forall pre t r post,
       new = (pre ++ mkEvent t (GetReactions channelId messageTimestamp r) :: post)%list ->
       undecided excludeUserIds approveReaction_ rejectReaction_ r ->
       exists t' post',
         post = mkEvent t' (SetTimeout pollIntervalMs) :: post' /\ t <= t' /\
         (post' = [] /\ res = mkApprovalResult timeout None \/
          exists t'' r' post'',
            post' = mkEvent t'' (GetReactions channelId messageTimestamp r') :: post'' /\
            t' + pollIntervalMs <= t'')) /\
    (forall L, (forall w0, Z.of_N (latency env w0) <= L) ->
       clock w' = clock w \/
       exists e, In e new /\ isGetReactions (call e) = true /\
                 clock w' <= issuedAt e + 2 * L + Z.max pollIntervalMs L).

Lemma pollLoop_trace fuel : forall w res w',
    run fuel w = Some (res, w') -> exists new, traced w res w' new.
  Proof.
    induction fuel as [|fuel IH]; intros w res w' Hrun; [discriminate Hrun|].
    unfold run in Hrun. rewrite pollLoop_S in Hrun. fold run in Hrun.
    destruct (ltNumber (numZ (clock w - startTime)) timeoutMs) eqn:Hcond.
    2:{ injection Hrun as <- <-. exists []. unfold traced. rewrite app_nil_r, Hcond.
        split; [reflexivity|]. split; [lia|]. split; [split; [reflexivity|intros _ e rs []]|].
        split; [intros e []|]. split; [intros _; reflexivity|].
        split; [left; auto|]. split; [|intros L _; left; reflexivity].
        intros pre t r post E. destruct pre; discriminate E. }
    (* a tick that decides: the three events of a decision *)
    assert (Hdecided : forall reactions u text status voters,
      getReactions env channelId messageTimestamp w = Ok reactions ->
      decisive excludeUserIds approveReaction_ rejectReaction_ reactions ->
      status <> timeout ->
      res = mkApprovalResult status voters ->
      w' = after env
             (after env
                (after env w (GetReactions channelId messageTimestamp (Ok reactions)))
                (GetUserInfo u
                   (getUserInfo env u
                      (after env w (GetReactions channelId messageTimestamp (Ok reactions))))))
             (PostThreadMessage channelId messageTimestamp text
                (postThreadMessage env channelId messageTimestamp text
                   (after env
                      (after env w (GetReactions channelId messageTimestamp (Ok reactions)))
                      (GetUserInfo u
                         (getUserInfo env u
                            (after env w
                               (GetReactions channelId messageTimestamp (Ok reactions)))))))) ->
      exists new, traced w res w' new).
    { intros reactions u text status voters Hget Hdec Hst -> ->.
      set (w1 := after env w (GetReactions channelId messageTimestamp (Ok reactions))).
      set (w2 := after env w1 (GetUserInfo u (getUserInfo env u w1))).
      exists [mkEvent (clock w) (GetReactions channelId messageTimestamp (Ok reactions));
              mkEvent (clock w1) (GetUserInfo u (getUserInfo env u w1));
              mkEvent (clock w2) (PostThreadMessage channelId messageTimestamp text
                                    (postThreadMessage env channelId messageTimestamp text w2))].
      unfold traced. rewrite Hcond.
      split; [simpl; rewrite <- !app_assoc; reflexivity|].
      pose proof (N2Z.is_nonneg (latency env w)). pose proof (N2Z.is_nonneg (latency env w1)).
      pose proof (N2Z.is_nonneg (latency env w2)).
      split; [simpl; lia|]. split; [split|].
      - intros Hnone. exfalso.
        apply (Hnone (mkEvent (clock w)
                        (GetReactions channelId messageTimestamp (Ok reactions))) reactions);
          [now left|reflexivity|exact Hdec].
      - intros H'. injection H' as H' _. contradiction.
      - split; [intros e [<-|[<-|[<-|[]]]] Hg; try discriminate Hg; exact Hcond|].
        split; [intros H'; simpl in H'; contradiction|].
        split; [right; split; [reflexivity|]; rewrite Hget; eauto|]. split.
        + intros pre t r post E Hun. exfalso.
          destruct pre as [|a [|b [|c pre]]]; cbn [app] in E.
          * injection E as _ Hr _. apply (Hun reactions); [now rewrite Hr|exact Hdec].
          * discriminate E.
          * discriminate E.
          * destruct pre; discriminate E.
        + intros L HL. right.
          exists (mkEvent (clock w) (GetReactions channelId messageTimestamp (Ok reactions))).
          split; [now left|]. split; [reflexivity|]. cbn [issuedAt].
          pose proof (HL w). pose proof (HL w1). pose proof (HL w2).
          unfold w2, w1 in *. cbn [after clock] in *. lia. }
    (* a tick that does not decide: the fetch, the sleep, and the rest *)
    assert (Hnext : forall r,
      getReactions env channelId messageTimestamp w = r ->
      undecided excludeUserIds approveReaction_ rejectReaction_ r ->
      run fuel (afterSleep env (after env w (GetReactions channelId messageTimestamp r))
                           pollIntervalMs) = Some (res, w') ->
      exists new, traced w res w' new).
    { intros r Hget Hun Hrun'.
      set (w1 := after env w (GetReactions channelId messageTimestamp r)) in *.
      set (w2 := afterSleep env w1 pollIntervalMs) in *.
      destruct (IH w2 res w' Hrun') as (new & Hev & Hclk & T1 & T2 & T3 & T4 & T5 & T6).
      assert (Hc1 : clock w1 = clock w + Z.of_N (latency env w)) by reflexivity.
      assert (Hc2 : clock w2 = clock w1 + Z.max 0 pollIntervalMs + Z.of_N (latency env w1))
        by reflexivity.
      assert (He2 : events w2 = (events w ++
                       [mkEvent (clock w) (GetReactions channelId messageTimestamp r);
                        mkEvent (clock w1) (SetTimeout pollIntervalMs)])%list)
        by (simpl; rewrite <- !app_assoc; reflexivity).
      pose proof (N2Z.is_nonneg (latency env w)). pose proof (N2Z.is_nonneg (latency env w1)).
      exists (mkEvent (clock w) (GetReactions channelId messageTimestamp r) ::
              mkEvent (clock w1) (SetTimeout pollIntervalMs) :: new).
      unfold traced. rewrite Hcond.
      split; [rewrite Hev, He2, <- !app_assoc; reflexivity|].
      split; [lia|]. split; [split|].
      - intros Hnone. apply T1. intros e rs Hin. apply Hnone. right. right. exact Hin.
      - intros Hres e rs [<-|[<-|Hin]] Hcall.
        + injection Hcall as Hr. apply (Hun rs). now rewrite Hr.
        + discriminate Hcall.
        + exact (proj2 T1 Hres e rs Hin Hcall).
      - split; [intros e [<-|[<-|Hin]] Hg;
                  [exact Hcond|discriminate Hg|exact (T2 e Hin Hg)]|].
        split; [exact T3|].
        split; [right; split; [reflexivity|]; rewrite Hget; eauto|]. split.
        + intros pre t r0 post E Hun0.
          destruct pre as [|a [|b pre]]; cbn [app] in E.
          * injection E as Ht _ Hpost. subst t post.
            exists (clock w1), new. split; [reflexivity|]. split; [lia|].
            destruct T4 as [(_ & -> & -> & _)|(_ & rest & ->)]; [left; auto|].
            right. exists (clock w2), (getReactions env channelId messageTimestamp w2), rest.
            split; [reflexivity|]. lia.
          * discriminate E.
          * injection E as _ _ E. exact (T5 pre t r0 post E Hun0).
        + intros L HL. pose proof (HL w). pose proof (HL w1).
          destruct (T6 L HL) as [Hsame|(e & Hin & Hg & Hle)].
          * right.
            exists (mkEvent (clock w) (GetReactions channelId messageTimestamp r)).
            split; [now left|]. split; [reflexivity|]. cbn [issuedAt]. lia.
          * right. exists e. split; [right; right; exact Hin|]. auto. }
    destruct (getReactions env channelId messageTimestamp w) as [reactions|e] eqn:Hget.
    - destruct (decide_cases reactions
                  (after env w (GetReactions channelId messageTimestamp (Ok reactions))))
        as [(Hc & u & t & Hd)|[(Hn & Hc & u & t & Hd)|(Hn1 & Hn2 & Hd)]];
        rewrite Hd in Hrun.
      + injection Hrun as <- <-.
        apply (Hdecided reactions u t rejected
                 (Some (votersOf excludeUserIds rejectReaction_ reactions)));
          [reflexivity|apply decisive_countedBy; now left|discriminate|reflexivity|reflexivity].
      + injection Hrun as <- <-.
        apply (Hdecided reactions u t approved
                 (Some (votersOf excludeUserIds approveReaction_ reactions)));
          [reflexivity|apply decisive_countedBy; now right|discriminate|reflexivity|reflexivity].
      + apply (Hnext (Ok reactions)); [reflexivity| |exact Hrun].
        intros rs E. injection E as <-. intros Hdec.
        apply decisive_countedBy in Hdec as [H'|H']; contradiction.
    - apply (Hnext (Err e)); [reflexivity| |exact Hrun].
      intros rs E. discriminate E.
  Qed.

Hypothesis poll_positive : 0 < pollIntervalMs.
Hypothesis timeout_finite : timeoutMs <> Infinity false.

Lemma pollLoop_runs fuel : forall w,
    (1 <= fuel)%nat ->
    remaining timeoutMs (clock w - startTime) <= (Z.of_nat fuel - 1) * pollIntervalMs ->
    exists res new w',
      run fuel w = Some (res, w') /\
      events w' = (events w ++ new)%list /\
      clock w <= clock w' /\
      ((forall e rs, In e new ->
                     call e = GetReactions channelId messageTimestamp (Ok rs) ->
                     ~ decisive excludeUserIds approveReaction_ rejectReaction_ rs) ->
       res = mkApprovalResult timeout None) /\
      (forall e, In e new -> isGetReactions (call e) = true ->
                 ltNumber (numZ (issuedAt e - startTime)) timeoutMs = true) /\
      (approvalStatus res = timeout ->
       ltNumber (numZ (clock w' - startTime)) timeoutMs = false).
  Proof.
    induction fuel as [|fuel IH]; intros w Hfuel Hrem; [lia|].
    rewrite pollLoop_S.
    destruct (ltNumber (numZ (clock w - startTime)) timeoutMs) eqn:Hcond.
    2:{ exists (mkApprovalResult timeout None), [], w.
        rewrite app_nil_r. repeat split; auto; try lia. }
    destruct (loop_condition_true _ timeout_finite Hcond) as [Hpos Hdec].
    assert (Hfuel' : (1 <= fuel)%nat) by nia.
    (* the world after a tick that did not decide *)
    assert (Hnext : forall r,
      exists res new w',
        run fuel (afterSleep env (after env w (GetReactions channelId messageTimestamp r))
                             pollIntervalMs) = Some (res, w') /\
        events w' = (events w ++
                       mkEvent (clock w) (GetReactions channelId messageTimestamp r) ::
                       mkEvent (clock w + Z.of_N (latency env w)) (SetTimeout pollIntervalMs) ::
                       new)%list /\
        clock w <= clock w' /\
        ((forall e rs, In e new ->
                       call e = GetReactions channelId messageTimestamp (Ok rs) ->
                       ~ decisive excludeUserIds approveReaction_ rejectReaction_ rs) ->
         res = mkApprovalResult timeout None) /\
        (forall e, In e new -> isGetReactions (call e) = true ->
                   ltNumber (numZ (issuedAt e - startTime)) timeoutMs = true) /\
        (approvalStatus res = timeout ->
         ltNumber (numZ (clock w' - startTime)) timeoutMs = false)).
    { intros r.
      set (w2 := afterSleep env (after env w (GetReactions channelId messageTimestamp r))
                            pollIntervalMs).
      assert (Hclock : clock w + pollIntervalMs <= clock w2) by (simpl; lia).
      destruct (IH w2 Hfuel') as (res & new & w' & Hrun & Hev & Hclk & H1 & H2 & H3).
      { specialize (Hdec (clock w2 - clock w) ltac:(lia)).
        replace (clock w - startTime + (clock w2 - clock w)) with (clock w2 - startTime)
          in Hdec by lia.
        nia. }
      exists res, new, w'. split; [exact Hrun|]. split.
      { rewrite Hev. simpl. rewrite <- !app_assoc. reflexivity. }
      split; [lia|]. auto. }
    destruct (getReactions env channelId messageTimestamp w) as [reactions|e] eqn:Hget.
    - destruct (decide_cases reactions
                  (after env w (GetReactions channelId messageTimestamp (Ok reactions))))
        as [(Hc & u & t & Hd)|[(Hn & Hc & u & t & Hd)|(Hn1 & Hn2 & Hd)]]; rewrite Hd.
      + eexists. eexists. eexists. split; [reflexivity|]. split.
        { simpl. rewrite <- !app_assoc. reflexivity. }
        split; [simpl; lia|]. split; [|split].
        * intros Hnone. exfalso.
          apply (Hnone (mkEvent (clock w)
                          (GetReactions channelId messageTimestamp (Ok reactions))) reactions).
          -- now left.
          -- reflexivity.
          -- apply decisive_countedBy. now left.
        * intros e [<-|[<-|[<-|[]]]] Hg; try discriminate Hg. exact Hcond.
        * simpl. discriminate.
      + eexists. eexists. eexists. split; [reflexivity|]. split.
        { simpl. rewrite <- !app_assoc. reflexivity. }
        split; [simpl; lia|]. split; [|split].
        * intros Hnone. exfalso.
          apply (Hnone (mkEvent (clock w)
                          (GetReactions channelId messageTimestamp (Ok reactions))) reactions).
          -- now left.
          -- reflexivity.
          -- apply decisive_countedBy. now right.
        * intros e [<-|[<-|[<-|[]]]] Hg; try discriminate Hg. exact Hcond.
        * simpl. discriminate.
      + destruct (Hnext (Ok reactions))
          as (res & new & w' & Hrun & Hev & Hclk & H1 & H2 & H3).
        exists res. eexists. exists w'. split; [exact Hrun|]. split; [exact Hev|].
        split; [exact Hclk|]. split; [|split; [|exact H3]].
        * intros Hnone. apply H1. intros e rs Hin. apply Hnone. right. right. exact Hin.
        * intros e [<-|[<-|Hin]] Hg;
            [exact Hcond|discriminate Hg|exact (H2 e Hin Hg)].
    - destruct (Hnext (Err e))
        as (res & new & w' & Hrun & Hev & Hclk & H1 & H2 & H3).
      exists res. eexists. exists w'. split; [exact Hrun|]. split; [exact Hev|].
      split; [exact Hclk|]. split; [|split; [|exact H3]].
      * intros Hnone. apply H1. intros e' rs Hin. apply Hnone. right. right. exact Hin.
      * intros e' [<-|[<-|Hin]] Hg;
          [exact Hcond|discriminate Hg|exact (H2 e' Hin Hg)].
  Qed.

End Loop.

(** C2: in a tick of the polling loop in which [getReactions] succeeds,
    the run ends with status [rejected] when some reaction named
    [rejectReaction] has a user outside [excludeUserIds]; otherwise it ends
    with status [approved] when some reaction named [approveReaction] has
    such a user; otherwise the loop sleeps and goes on.  So rejection wins
    when both are counted, a reaction whose users are all excluded decides
    nothing, and the approvers returned are the users outside
    [excludeUserIds] of the reactions of the deciding name. *)
Theorem waitForApproval_tick_decision
    (env : Env) (channelId messageTimestamp : string) (excludeUserIds : list string)
    (approveReaction_ rejectReaction_ : string) (pollIntervalMs startTime : Z)
    (timeoutMs : number) (fuel : nat) (w : World) (reactions : list Reaction) :
  ltNumber (numZ (clock w - startTime)) timeoutMs = true ->
  getReactions env channelId messageTimestamp w = Ok reactions ->
  let run := pollLoop env channelId messageTimestamp excludeUserIds
                      approveReaction_ rejectReaction_ pollIntervalMs startTime timeoutMs in
  let w1 := after env w (GetReactions channelId messageTimestamp (Ok reactions)) in
  (countedBy excludeUserIds rejectReaction_ reactions ->
   exists w',
     run (S fuel) w =
       Some (mkApprovalResult rejected
               (Some (votersOf excludeUserIds rejectReaction_ reactions)), w')) /\
  (~ countedBy excludeUserIds rejectReaction_ reactions ->
   countedBy excludeUserIds approveReaction_ reactions ->
   exists w',
     run (S fuel) w =
       Some (mkApprovalResult approved
               (Some (votersOf excludeUserIds approveReaction_ reactions)), w')) /\
  (~ countedBy excludeUserIds rejectReaction_ reactions ->
   ~ countedBy excludeUserIds approveReaction_ reactions ->
   run (S fuel) w = run fuel (afterSleep env w1 pollIntervalMs)) /\
  (forall token u,
     In u (votersOf excludeUserIds token reactions) <->
     exists r, In r reactions /\ name r = token /\ In u (users r) /\
               ~ In u excludeUserIds).
Proof.
  intros Hcond Hget run w1.
  pose proof (pollLoop_S env channelId messageTimestamp excludeUserIds approveReaction_
                rejectReaction_ pollIntervalMs startTime timeoutMs fuel w) as HS.
  rewrite Hcond, Hget in HS. fold run w1 in HS.
  destruct (decide_cases env channelId messageTimestamp excludeUserIds approveReaction_
              rejectReaction_ reactions w1)
    as [(Hc & u & t & Hd)|[(Hn & Hc & u & t & Hd)|(Hn1 & Hn2 & Hd)]];
    rewrite Hd in HS.
  - split; [intros _; eexists; exact HS|].
    split; [intros N; contradiction|].
    split; [intros N; contradiction|].
    intros; apply votersOf_In.
  - split; [intros N; contradiction|].
    split; [intros _ _; eexists; exact HS|].
    split; [intros _ N; contradiction|].
    intros; apply votersOf_In.
  - split; [intros N; contradiction|].
    split; [intros _ N; contradiction|].
    split; [intros _ _; exact HS|].
    intros; apply votersOf_In.
Qed.

(** C4: with a positive poll interval and a timeout that is not infinite,
    [waitForApproval] returns; the timeout is the double
    [waitMinutes * 60 * 1000], which is [n * 60000] for [n] whole minutes.
    For every run that returns: the result is [timeout] without approvers
    exactly when no fetch of the run has seen a counted decisive reaction.
    Time is measured against the clock read once at entry: every
    [getReactions] is issued while the elapsed time is below the timeout,
    the first one at entry, and [timeout] is returned only once the
    elapsed time is no longer below it.  A fetch that fails or decides
    nothing is followed by the sleep of the poll interval, and then by the
    end of the run with [timeout] or by the next fetch, at least a poll
    interval later.  The deadline is tested before a tick only, so the
    run ends after it: when no call and no timer is later than [L], at
    most [2 * L + max pollIntervalMs L] after the last millisecond below
    the timeout. *)
Theorem waitForApproval_timeout
    (env : Env) (channelId messageTimestamp : string) (excludeUserIds : list string)
    (approveReaction_ rejectReaction_ : string) (waitMinutes_ : number)
    (pollIntervalMs : Z) (fuel : nat) (w : World) :
  0 < pollIntervalMs ->
  let timeoutMs := mulNumber (mulNumber waitMinutes_ (numZ 60)) (numZ 1000) in
  let run := waitForApproval env fuel channelId messageTimestamp excludeUserIds
                             approveReaction_ rejectReaction_ waitMinutes_ pollIntervalMs w in
  (timeoutMs <> Infinity false ->
   (ticksBound timeoutMs pollIntervalMs <= fuel)%nat ->
   exists res w', run = Some (res, w')) /\
  (forall n, 0 <= n -> n * 60000 < 2 ^ 53 -> waitMinutes_ = numZ n ->
             timeoutMs = numZ (n * 60000)) /\
  (forall res w', run = Some (res, w') ->
     let new := newEvents w w' in
     events w' = (events w ++ new)%list /\
     ((forall e rs, In e new ->
                    call e = GetReactions channelId messageTimestamp (Ok rs) ->
                    ~ decisive excludeUserIds approveReaction_ rejectReaction_ rs) <->
      res = mkApprovalResult timeout None) /\
     (forall e, In e new -> isGetReactions (call e) = true ->
                ltNumber (numZ (issuedAt e - clock w)) timeoutMs = true) /\
     (approvalStatus res = timeout ->
      ltNumber (numZ (clock w' - clock w)) timeoutMs = false) /\
     (ltNumber (numZ 0) timeoutMs = false /\
      new = [] /\ res = mkApprovalResult timeout None /\ w' = w \/
      ltNumber (numZ 0) timeoutMs = true /\
      exists rest,
        new = mkEvent (clock w)
                (GetReactions channelId messageTimestamp
                   (getReactions env channelId messageTimestamp w)) :: rest) /\
     (forall pre t r post,
        new = (pre ++ mkEvent t (GetReactions channelId messageTimestamp r) :: post)%list ->
        undecided excludeUserIds approveReaction_ rejectReaction_ r ->
        exists t' post',
          post = mkEvent t' (SetTimeout pollIntervalMs) :: post' /\ t <= t' /\
          (post' = [] /\ res = mkApprovalResult timeout None \/
           exists t'' r' post'',
             post' = mkEvent t'' (GetReactions channelId messageTimestamp r') :: post'' /\
             t' + pollIntervalMs <= t'')) /\
     (forall L q, timeoutMs = Num q ->
        (forall w0, Z.of_N (latency env w0) <= L) ->
        clock w' - clock w <=
          Z.max 0 (Qceiling q - 1 + 2 * L + Z.max pollIntervalMs L))).
Proof.
  intros Hpoll timeoutMs run.
  split; [|split].
  - intros Hfin Hfuel.
    change run
      with (pollLoop env channelId messageTimestamp excludeUserIds approveReaction_
              rejectReaction_ pollIntervalMs (clock w) timeoutMs fuel w).
    clearbody timeoutMs. clear run.
    destruct (pollLoop_runs env channelId messageTimestamp excludeUserIds approveReaction_
                rejectReaction_ pollIntervalMs (clock w) timeoutMs Hpoll Hfin fuel w)
      as (res & new & w' & Hrun & _).
    { unfold ticksBound in Hfuel. destruct timeoutMs; lia. }
    { unfold remaining, ticksBound in *. destruct timeoutMs as [q| |s]; [|nia|nia].
      rewrite Z.sub_diag, Z.sub_0_r.
      set (m := Z.max 0 (Qceiling q)) in *.
      assert (Hm : 0 <= m) by (unfold m; lia).
      pose proof (Z.mod_pos_bound m pollIntervalMs Hpoll).
      pose proof (Z.div_mod m pollIntervalMs ltac:(lia)).
      assert (0 <= m / pollIntervalMs) by (apply Z.div_pos; lia).
      nia. }
    exists res, w'. exact Hrun.
  - intros n Hn Hb ->. unfold timeoutMs.
    rewrite (NumberFacts.mulNumber_numZ n 60) by lia.
    rewrite (NumberFacts.mulNumber_numZ (n * 60) 1000) by lia.
    f_equal. lia.
  - intros res w' Hrun new.
    change run
      with (pollLoop env channelId messageTimestamp excludeUserIds approveReaction_
              rejectReaction_ pollIntervalMs (clock w) timeoutMs fuel w) in Hrun.
    clearbody timeoutMs. clear run.
    pose proof (pollLoop_trace env channelId messageTimestamp excludeUserIds approveReaction_
                  rejectReaction_ pollIntervalMs (clock w) timeoutMs fuel w res w' Hrun)
      as Htrace.
    cbv zeta in Htrace.
    destruct Htrace as (new' & Hev & Hclk & T1 & T2 & T3 & T4 & T5 & T6).
    unfold new. rewrite (newEvents_app w new' w' Hev). rewrite Z.sub_diag in T4.
    split; [exact Hev|]. split; [exact T1|]. split; [exact T2|]. split; [exact T3|].
    split; [exact T4|]. split; [exact T5|].
    intros L q Hq HL.
    destruct (T6 L HL) as [Hsame|(e & Hin & Hg & Hle)]; [lia|].
    specialize (T2 e Hin Hg). rewrite Hq in T2. apply below_timeout in T2. lia.
Qed.


Lemma checkRelease_fetch_failure_witness :
  exists w',
    checkRelease (demoEnv (Err demoFetchError) (Err demoPostError) (Ok []))
                 0 demoConfig "C123" demoWorld = Some (Ok fallbackResult, w').
Proof.
  destruct (checkRelease_fetch_failure_approves
              (demoEnv (Err demoFetchError) (Err demoPostError) (Ok []))
              0 demoConfig "C123" demoWorld demoFetchError)
    as (posted & w' & H & _).
  - vm_compute. discriminate.
  - reflexivity.
  - exists w'. exact H.
Defined.

Lemma checkRelease_no_schedule_witness :
  exists w',
    checkRelease (demoEnv (Ok [demoOther]) (Ok demoMessage) (Ok []))
                 0 demoConfig "C123" demoWorld
      = Some (Ok (noScheduleResult demoConfig), w') /\
    Forall (fun ev => isPost (call ev) = false) (newEvents demoWorld w').
Proof.
  destruct (checkRelease_no_schedule_posts_nothing
              (demoEnv (Ok [demoOther]) (Ok demoMessage) (Ok []))
              0 demoConfig "C123" demoWorld 540 [demoOther])
    as (w' & H & _ & Hp).
  - reflexivity.
  - reflexivity.
  - intros s [<-|[]] (Hp & _). discriminate Hp.
  - exists w'. split; assumption.
Defined.

Lemma checkRelease_post_failure_witness :
  exists w',
    checkRelease (demoEnv (Ok [demoActive]) (Err demoPostError) (Ok []))
                 0 demoConfig "C123" demoWorld
      = Some (Err (MkErrorCause NetworkError "Failed to post approval request to Slack"
                                demoPostError), w').
Proof.
  destruct (checkRelease_post_failure_propagates
              (demoEnv (Ok [demoActive]) (Err demoPostError) (Ok []))
              0 demoConfig "C123" demoWorld 540 [demoActive] demoPostError)
    as (w' & H & _).
  - reflexivity.
  - reflexivity.
  - vm_compute. discriminate.
  - reflexivity.
  - exists w'. exact H.
Defined.

Lemma waitForApproval_tick_witness :
  exists w',
    pollLoop (demoEnv (Ok []) (Ok demoMessage) (Ok demoReactions))
             "C123" "1700000000.000100" ["U999"] "ok" "-1" 15000 1500 (numZ 1200000)
             1 demoWorld
      = Some (mkApprovalResult rejected (Some ["U7"]), w').
Proof.
  apply (proj1 (waitForApproval_tick_decision
                  (demoEnv (Ok []) (Ok demoMessage) (Ok demoReactions))
                  "C123" "1700000000.000100" ["U999"] "ok" "-1" 15000 1500
                  (numZ 1200000) 0 demoWorld demoReactions eq_refl eq_refl)).
  exists (mkReaction "-1" 1 ["U7"]). split; [right; left; reflexivity|].
  split; [reflexivity|]. exists "U7". split; [left; reflexivity|].
  intros [H|[]]. discriminate H.
Defined.

Lemma waitForApproval_timeout_witness :
  exists res w',
    waitForApproval (demoEnv (Ok []) (Ok demoMessage) (Err demoPostError))
                    6 "C123" "1700000000.000100" ["U999"] "ok" "-1"
                    (numZ 1) 15000 demoWorld
      = Some (res, w').
Proof.
  refine (proj1 (waitForApproval_timeout
                   (demoEnv (Ok []) (Ok demoMessage) (Err demoPostError))
                   "C123" "1700000000.000100" ["U999"] "ok" "-1"
                   (numZ 1) 15000 6 demoWorld _) _ _).
  - lia.
  - vm_compute. discriminate.
  - vm_compute. lia.
Defined.

(** C4, the part that fails: a slow tick does extend the wait.  With one
    minute to wait and calls that take twenty minutes, the run that sees
    no reaction returns [timeout] 2415000 ms after entry, not 60000; and
    a rejection that the only fetch reports twenty minutes after entry
    still decides the run. *)
Lemma waitForApproval_runs_past_deadline :
  mulNumber (mulNumber (numZ 1) (numZ 60)) (numZ 1000) = numZ 60000 /\
  (exists evs,
     waitForApproval (demoSlowEnv (Ok [])) 2 "C123" "1700000000.000100" ["U999"]
                     "ok" "-1" (numZ 1) 15000 demoWorld
       = Some (mkApprovalResult timeout None, mkWorld (clock demoWorld + 2415000) evs)) /\
  (exists evs,
     waitForApproval (demoSlowEnv (Ok demoReactions)) 1 "C123" "1700000000.000100" ["U999"]
                     "ok" "-1" (numZ 1) 15000 demoWorld
       = Some (mkApprovalResult rejected (Some ["U7"]),
               mkWorld (clock demoWorld + 3600000)
                 (mkEvent (clock demoWorld)
                    (GetReactions "C123" "1700000000.000100" (Ok demoReactions)) :: evs)) /\
     after (demoSlowEnv (Ok demoReactions)) demoWorld
       (GetReactions "C123" "1700000000.000100" (Ok demoReactions))
       = mkWorld (clock demoWorld + 1200000)
           [mkEvent (clock demoWorld)
              (GetReactions "C123" "1700000000.000100" (Ok demoReactions))]).
Proof.
  split; [vm_compute; reflexivity|].
  split; [eexists; vm_compute; reflexivity|].
  eexists. split; vm_compute; reflexivity.
Qed.

End ReleaseCheckerFacts.

(* ------------------------------------------------------------------ *)
(** ** utils/date.ts: schedule status, activity and overlap together *)

Module DateUtilsMore.
Import DateUtils DateUtilsFacts Demo.
Local Open Scope list_scope.

(** X1: [getScheduleStatus] is [NOT_STARTED] exactly before the start,
    [ACTIVE] exactly inside [[start, end)], [COMPLETED] exactly from the
    start on when the end is reached; the start is tested first, so a
    schedule whose end is not after its start is never [ACTIVE].  The
    active schedules are those of status [ACTIVE]. *)
Theorem getScheduleStatus_spec (s : Schedule) (t : Date) :
  (getScheduleStatus s t = NOT_STARTED <-> t < startDateTime s) /\
  (getScheduleStatus s t = ACTIVE <-> startDateTime s <= t < endDateTime s) /\
  (getScheduleStatus s t = COMPLETED <-> startDateTime s <= t /\ endDateTime s <= t) /\
  (endDateTime s <= startDateTime s -> getScheduleStatus s t <> ACTIVE) /\
  (forall schedules,
     In s (findActiveSchedules schedules t) <->
     In s schedules /\ getScheduleStatus s t = ACTIVE).
Proof.
  assert (Hact : getScheduleStatus s t = ACTIVE <-> startDateTime s <= t < endDateTime s).
  { unfold getScheduleStatus.
    destruct (Z.ltb_spec t (startDateTime s)); [split; [discriminate|lia]|].
    destruct (endDateTime s <=? t) eqn:E; rewrite Z.geb_leb, E.
    - apply Z.leb_le in E. split; [discriminate|lia].
    - apply Z.leb_gt in E. split; [lia|reflexivity]. }
  split; [|split; [exact Hact|split; [|split]]].
  - unfold getScheduleStatus.
    destruct (Z.ltb_spec t (startDateTime s)); [tauto|].
    destruct (t >=? endDateTime s); split; try discriminate; lia.
  - unfold getScheduleStatus.
    destruct (Z.ltb_spec t (startDateTime s)); [split; [discriminate|lia]|].
    destruct (endDateTime s <=? t) eqn:E; rewrite Z.geb_leb, E.
    + apply Z.leb_le in E. tauto.
    + apply Z.leb_gt in E. split; [discriminate|lia].
  - intros Hdeg Ha. apply Hact in Ha. lia.
  - intros schedules. unfold findActiveSchedules.
    rewrite filter_In, isWithinTimeRange_iff, Hact. reflexivity.
Qed.

Lemma getScheduleStatus_witness :
  endDateTime (mkSchedule "web" "staging" 3000 3000 "U111" "Alice" "")
    <= startDateTime (mkSchedule "web" "staging" 3000 3000 "U111" "Alice" "") /\
  getScheduleStatus (mkSchedule "web" "staging" 3000 3000 "U111" "Alice" "") 3000 <> ACTIVE.
Proof.
  split; [vm_compute; discriminate|].
  apply (proj1 (proj2 (proj2 (proj2 (getScheduleStatus_spec
           (mkSchedule "web" "staging" 3000 3000 "U111" "Alice" "") 3000))))).
  vm_compute. discriminate.
Defined.

(** X2: two schedules of one environment that are active at one and the
    same instant are reported as an overlapping pair, the earlier in the
    input first. *)
Theorem active_together_reported (schedules : list Schedule) (i j : nat)
    (a b : Schedule) (t : Date) :
  (i < j)%nat ->
  nth_error schedules i = Some a ->
  nth_error schedules j = Some b ->
  environmentName a = environmentName b ->
  In a (findActiveSchedules schedules t) ->
  In b (findActiveSchedules schedules t) ->
  In [a; b] (findOverlappingSchedules schedules).
Proof.
  intros Hij Ha Hb He Hia Hib.
  unfold findActiveSchedules in Hia, Hib.
  apply filter_In in Hia as [_ Hia]. apply filter_In in Hib as [_ Hib].
  apply isWithinTimeRange_iff in Hia, Hib.
  apply findOverlappingSchedules_In. exists i, j, a, b.
  repeat split; auto; lia.
Qed.

Lemma active_together_witness :
  In [demoA; demoB] (findOverlappingSchedules [demoA; demoB]).
Proof.
  apply (active_together_reported [demoA; demoB] 0 1 demoA demoB 2500).
  - lia.
  - reflexivity.
  - reflexivity.
  - reflexivity.
  - vm_compute. left. reflexivity.
  - vm_compute. right. left. reflexivity.
Defined.

Lemma length_flat_map_le {A B} (f : A -> list B) (g : A -> nat) (l : list A) :
  (forall x, In x l -> (List.length (f x) <= g x)%nat) ->
  (List.length (flat_map f l) <= list_sum (map g l))%nat.
Proof.
  induction l as [|a l IH]; intros H; simpl; [lia|].
  rewrite length_app.
  assert (List.length (f a) <= g a)%nat by (apply H; now left).
  assert (List.length (flat_map f l) <= list_sum (map g l))%nat
    by (apply IH; intros; apply H; now right).
  lia.
Qed.

Lemma triangle_sum k : forall a,
  (2 * list_sum (map (fun i => a + k - (i + 1)) (seq a k)) = k * (k - 1))%nat.
Proof.
  induction k as [|k IH]; intros a; [reflexivity|].
  cbn [seq map list_sum].
  assert (E : map (fun i => a + S k - (i + 1))%nat (seq (S a) k) =
              map (fun i => S a + k - (i + 1))%nat (seq (S a) k)).
  { apply map_ext. intros i. cbv beta. lia. }
  rewrite E. specialize (IH (S a)).
  replace (a + S k - (a + 1))%nat with k by lia.
  replace (S k - 1)%nat with k by lia.
  destruct k as [|m]; [simpl in *; lia|].
  replace (S m - 1)%nat with m in IH by lia.
  clear E. set (X := map _ _) in *.
  change (list_sum (S m :: X)) with (S m + list_sum X)%nat. nia.
Qed.

Lemma length_flat_map_le1 {A B} (f : A -> list B) (l : list A) :
  (forall x, In x l -> (List.length (f x) <= 1)%nat) ->
  (List.length (flat_map f l) <= List.length l)%nat.
Proof.
  induction l as [|a l IH]; intros H; simpl; [lia|].
  rewrite length_app.
  assert (List.length (f a) <= 1)%nat by (apply H; now left).
  assert (List.length (flat_map f l) <= List.length l)%nat
    by (apply IH; intros; apply H; now right).
  lia.
Qed.

(** X3: of [n] schedules at most [n (n - 1) / 2] pairs are reported. *)
Theorem findOverlappingSchedules_length (schedules : list Schedule) :
  (2 * List.length (findOverlappingSchedules schedules)
   <= List.length schedules * (List.length schedules - 1))%nat.
Proof.
  unfold findOverlappingSchedules.
  set (n := List.length schedules).
  rewrite <- (triangle_sum n 0).
  apply Nat.mul_le_mono_l.
  apply (length_flat_map_le _ (fun i => 0 + n - (i + 1))%nat).
  intros i _.
  etransitivity.
  - apply length_flat_map_le1. intros j _.
    destruct (overlapStep_cases schedules i j) as [[-> _]|(a & b & _ & _ & _ & ->)];
      simpl; lia.
  - rewrite length_seq. lia.
Qed.

End DateUtilsMore.

(* ------------------------------------------------------------------ *)
(** ** services/release-checker.ts: the request, the polling loop and the
       check as a whole *)

Module ReleaseCheckerMore.
Import JsString DateUtils DateUtilsFacts ReleaseChecker ReleaseCheckerFacts DemoRun.
Local Open Scope list_scope.
Local Open Scope string_scope.
Local Open Scope Z_scope.

Lemma filter_filter {A} (f g : A -> bool) (l : list A) :
  filter f (filter g l) = filter (fun x => g x && f x) l.
Proof.
  induction l as [|a l IH]; simpl; [reflexivity|].
  destruct (g a); simpl; [destruct (f a)|]; rewrite IH; reflexivity.
Qed.

(** X4: [findRelevantSchedules] keeps, in the order of the input, the
    schedules whose product name and environment name equal the given
    ones and whose range contains the instant: its two filters amount to
    one. *)
Theorem findRelevantSchedules_spec (all : list Schedule) (p e : string) (t : Date) :
  findRelevantSchedules all p e t =
    filter (fun s => ((productName s =? p)%string && (environmentName s =? e)%string) &&
                     ((startDateTime s <=? t) && (t <? endDateTime s))) all /\
  (forall s, In s (findRelevantSchedules all p e t) <->
             In s all /\ productName s = p /\ environmentName s = e /\
             startDateTime s <= t < endDateTime s) /\
  findRelevantSchedules (findRelevantSchedules all p e t) p e t =
    findRelevantSchedules all p e t.
Proof.
  assert (E : forall l, findRelevantSchedules l p e t =
    filter (fun s => ((productName s =? p)%string && (environmentName s =? e)%string) &&
                     ((startDateTime s <=? t) && (t <? endDateTime s))) l).
  { intros l. unfold findRelevantSchedules, findActiveSchedules.
    rewrite filter_filter. apply filter_ext. intros s.
    unfold isWithinTimeRange. now rewrite Z.geb_leb. }
  split; [apply E|]. split; [apply findRelevantSchedules_In|].
  rewrite !E, filter_filter. apply filter_ext. intros s.
  apply andb_diag.
Qed.

Lemma uniqueFrom_In seen xs x :
  In x (uniqueFrom seen xs) <-> In x xs /\ ~ In x seen.
Proof.
  revert seen. induction xs as [|y xs IH]; intros seen; simpl; [tauto|].
  destruct (existsb (String.eqb y) seen) eqn:E.
  - apply existsb_exists in E as (z & Hz & Hyz). apply String.eqb_eq in Hyz. subst z.
    rewrite IH. split.
    + intros [H1 H2]. auto.
    + intros [[->|H1] H2]; [contradiction|auto].
  - assert (Hy : ~ In y seen).
    { intros Hin. assert (existsb (String.eqb y) seen = true).
      { apply existsb_exists. exists y. split; auto. apply String.eqb_refl. }
      congruence. }
    simpl. rewrite IH. simpl. split.
    + intros [->|[H1 H2]]; [auto|]. split; auto.
    + intros [[->|H1] H2]; [auto|].
      destruct (String.eqb_spec y x) as [->|N]; [auto|].
      right. split; auto. intros [H|H]; auto.
Qed.

Lemma uniqueFrom_NoDup seen xs : NoDup (uniqueFrom seen xs).
Proof.
  revert seen. induction xs as [|y xs IH]; intros seen; simpl; [constructor|].
  destruct (existsb (String.eqb y) seen); [apply IH|].
  constructor; [|apply IH].
  intros Hin. apply uniqueFrom_In in Hin as [_ N]. apply N. now left.
Qed.

(** X5: [requestApproval] posts one message to the channel and returns
    what the client returns; the mention list holds each person-in-charge
    id of the schedules once. *)
Theorem requestApproval_spec (env : Env) (schedules : list Schedule)
    (config : ReleaseCheckConfig) (channelId : string) (w : World) :
  let ids := unique (map personInChargeId schedules) in
  let text := approvalMessage env schedules config in
  let r := postMessage env channelId text ids w in
  requestApproval env schedules config channelId w =
    Some (r, after env w (PostMessage channelId text ids r)) /\
  newEvents w (after env w (PostMessage channelId text ids r)) =
    [mkEvent (clock w) (PostMessage channelId text ids r)] /\
  NoDup ids /\
  (forall id, In id ids <-> exists s, In s schedules /\ personInChargeId s = id).
Proof.
  cbv zeta. split; [reflexivity|]. split; [apply newEvents_app; reflexivity|].
  split; [apply uniqueFrom_NoDup|].
  intros id. unfold unique. rewrite uniqueFrom_In, in_map_iff. simpl.
  split.
  - intros [(s & <- & Hs) _]. eauto.
  - intros (s & Hs & <-). split; [eauto|tauto].
Qed.

(** [needle] occurs in [hay]. *)
Lemma includes_intro (p needle t : string) :
  includes (p ++ needle ++ t) needle = true.
Proof.
  assert (Hp : forall n r : string, String.prefix n (n ++ r) = true).
  { induction n as [|c n IH]; intros r; simpl; [destruct r; reflexivity|].
    destruct (ascii_dec c c) as [_|N]; [apply IH|now elim N]. }
  assert (Hi : forall h n : string, String.prefix n h = true -> includes h n = true).
  { intros h n H. destruct h; cbn [includes]; rewrite H; reflexivity. }
  induction p as [|c p IH].
  - apply Hi. exact (Hp needle t).
  - change (includes (String c (p ++ needle ++ t)) needle = true).
    cbn [includes]. rewrite IH. apply orb_true_r.
Qed.

Lemma append_assoc (a b c : string) : ((a ++ b) ++ c = a ++ b ++ c)%string.
Proof. induction a as [|x a IH]; simpl; [reflexivity|now rewrite IH]. Qed.

Lemma join_In (sep x : string) (l : list string) :
  In x l -> exists p t, join sep l = (p ++ x ++ t)%string.
Proof.
  induction l as [|y l IH]; intros Hin; [contradiction|].
  destruct l as [|z l].
  - destruct Hin as [->|[]]. exists "", "". simpl.
    induction x as [|c x IHx]; simpl; [reflexivity|]. now rewrite <- IHx.
  - destruct Hin as [->|Hin].
    + exists "", (sep ++ join sep (z :: l)). reflexivity.
    + destruct (IH Hin) as (p & t & E). exists (y ++ sep ++ p), t.
      change (join sep (y :: z :: l)) with (y ++ sep ++ join sep (z :: l)).
      rewrite E, !append_assoc. reflexivity.
Qed.

(** X6: the approval request names every schedule by product and person
    in charge, gives both reaction names between colons and the wait in
    minutes, with the defaults in the place of falsy values, and mentions
    the requester when one is configured. *)
Theorem approvalMessage_contents (env : Env) (schedules : list Schedule)
    (config : ReleaseCheckConfig) :
  let text := approvalMessage env schedules config in
  (forall s, In s schedules ->
     includes text ("• " ++ productName s ++ " (" ++ personInChargeName s ++ ")") = true) /\
  includes text ("React with :" ++ orString (approveReaction config) "ok" ++
                 ": to *approve*") = true /\
  includes text ("React with :" ++ orString (rejectReaction config) "-1" ++
                 ": to *reject*") = true /\
  includes text ("Timeout: " ++
                 numberToString env (orNumber (waitMinutes config) (numZ 20)) ++
                 " minutes") = true /\
  (forall r, requesterUserId config = Some r -> r <> "" ->
     includes text ("*Requested by:* <@" ++ r ++ ">") = true).
Proof.
  cbv zeta. unfold approvalMessage.
  set (lines := map (fun s => "• " ++ productName s ++ " (" ++ personInChargeName s ++ ")")
                    schedules).
  set (req := match requesterUserId config with
              | Some r => if truthyString r then "👤 *Requested by:* <@" ++ r ++ ">" ++ nl else ""
              | None => ""
              end).
  split; [|split; [|split; [|split]]].
  - intros s Hs.
    destruct (join_In nl ("• " ++ productName s ++ " (" ++ personInChargeName s ++ ")") lines)
      as (p & t & E).
    { unfold lines. apply in_map_iff. eauto. }
    rewrite E.
    match goal with
    | |- includes ?m ?n = true =>
        replace m with (("🚀 *Release Request*" ++ nl ++ nl ++ "📦 *Product:* " ++
                         configProductName config ++ nl ++ "🌍 *Environment:* " ++
                         configEnvironmentName config ++ nl ++ req ++ nl ++
                         "📅 *Active Schedules:*" ++ nl ++ p) ++ n ++
                        (t ++ nl ++ nl ++ "━━━━━━━━━━━━━━━━━━━━━━━━━━" ++ nl ++
                         "✅ React with :" ++ orString (approveReaction config) "ok" ++
                         ": to *approve*" ++ nl ++
                         "❌ React with :" ++ orString (rejectReaction config) "-1" ++
                         ": to *reject*" ++ nl ++
                         "⏰ Timeout: " ++
                         numberToString env (orNumber (waitMinutes config) (numZ 20)) ++
                         " minutes"))
    end; [apply includes_intro|].
    repeat (rewrite !append_assoc; simpl). reflexivity.
  - match goal with
    | |- includes ?m ?n = true =>
        replace m with (("🚀 *Release Request*" ++ nl ++ nl ++ "📦 *Product:* " ++
                         configProductName config ++ nl ++ "🌍 *Environment:* " ++
                         configEnvironmentName config ++ nl ++ req ++ nl ++
                         "📅 *Active Schedules:*" ++ nl ++ join nl lines ++ nl ++ nl ++
                         "━━━━━━━━━━━━━━━━━━━━━━━━━━" ++ nl ++ "✅ ") ++ n ++
                        (nl ++
                         "❌ React with :" ++ orString (rejectReaction config) "-1" ++
                         ": to *reject*" ++ nl ++
                         "⏰ Timeout: " ++
                         numberToString env (orNumber (waitMinutes config) (numZ 20)) ++
                         " minutes"))
    end; [apply includes_intro|].
    repeat (rewrite !append_assoc; simpl). reflexivity.
  - match goal with
    | |- includes ?m ?n = true =>
        replace m with (("🚀 *Release Request*" ++ nl ++ nl ++ "📦 *Product:* " ++
                         configProductName config ++ nl ++ "🌍 *Environment:* " ++
                         configEnvironmentName config ++ nl ++ req ++ nl ++
                         "📅 *Active Schedules:*" ++ nl ++ join nl lines ++ nl ++ nl ++
                         "━━━━━━━━━━━━━━━━━━━━━━━━━━" ++ nl ++
                         "✅ React with :" ++ orString (approveReaction config) "ok" ++
                         ": to *approve*" ++ nl ++ "❌ ") ++ n ++
                        (nl ++
                         "⏰ Timeout: " ++
                         numberToString env (orNumber (waitMinutes config) (numZ 20)) ++
                         " minutes"))
    end; [apply includes_intro|].
    repeat (rewrite !append_assoc; simpl). reflexivity.
  - match goal with
    | |- includes ?m ?n = true =>
        replace m with (("🚀 *Release Request*" ++ nl ++ nl ++ "📦 *Product:* " ++
                         configProductName config ++ nl ++ "🌍 *Environment:* " ++
                         configEnvironmentName config ++ nl ++ req ++ nl ++
                         "📅 *Active Schedules:*" ++ nl ++ join nl lines ++ nl ++ nl ++
                         "━━━━━━━━━━━━━━━━━━━━━━━━━━" ++ nl ++
                         "✅ React with :" ++ orString (approveReaction config) "ok" ++
                         ": to *approve*" ++ nl ++
                         "❌ React with :" ++ orString (rejectReaction config) "-1" ++
                         ": to *reject*" ++ nl ++ "⏰ ") ++ n ++ "")
    end; [apply includes_intro|].
    repeat (rewrite !append_assoc; simpl). reflexivity.
  - intros r Hr Hne. unfold req. rewrite Hr. unfold truthyString.
    destruct (String.eqb_spec r ""); [contradiction|]. cbn [negb].
    match goal with
    | |- includes ?m ?n = true =>
        replace m with (("🚀 *Release Request*" ++ nl ++ nl ++ "📦 *Product:* " ++
                         configProductName config ++ nl ++ "🌍 *Environment:* " ++
                         configEnvironmentName config ++ nl ++ "👤 ") ++ n ++
                        (nl ++ nl ++
                         "📅 *Active Schedules:*" ++ nl ++ join nl lines ++ nl ++ nl ++
                         "━━━━━━━━━━━━━━━━━━━━━━━━━━" ++ nl ++
                         "✅ React with :" ++ orString (approveReaction config) "ok" ++
                         ": to *approve*" ++ nl ++
                         "❌ React with :" ++ orString (rejectReaction config) "-1" ++
                         ": to *reject*" ++ nl ++
                         "⏰ Timeout: " ++
                         numberToString env (orNumber (waitMinutes config) (numZ 20)) ++
                         " minutes"))
    end; [apply includes_intro|].
    repeat (rewrite !append_assoc; simpl). reflexivity.
Qed.

End ReleaseCheckerMore.

(* ------------------------------------------------------------------ *)
(** ** services/release-checker.ts: what a run can return *)

Module ReleaseCheckerRuns.
Import JsString DateUtils DateUtilsFacts ReleaseChecker ReleaseCheckerFacts DemoRun.
Local Open Scope list_scope.
Local Open Scope string_scope.
Local Open Scope Z_scope.

Lemma votersOf_not_excluded ex token reactions u :
  In u (votersOf ex token reactions) -> ~ In u ex.
Proof. intros H. apply votersOf_In in H as (_ & _ & _ & _ & H). exact H. Qed.

Lemma pollLoop_result env channelId messageTimestamp excludeUserIds
    approveReaction_ rejectReaction_ pollIntervalMs startTime timeoutMs fuel :
  forall w res w',
    pollLoop env channelId messageTimestamp excludeUserIds approveReaction_
             rejectReaction_ pollIntervalMs startTime timeoutMs fuel w = Some (res, w') ->
    res = mkApprovalResult timeout None \/
    exists l, l <> [] /\ (forall u, In u l -> ~ In u excludeUserIds) /\
              (res = mkApprovalResult rejected (Some l) \/
               res = mkApprovalResult approved (Some l)).
Proof.
  induction fuel as [|fuel IH]; intros w res w' Hrun; [discriminate Hrun|].
  rewrite pollLoop_S in Hrun.
  destruct (ltNumber (numZ (clock w - startTime)) timeoutMs).
  2:{ inversion Hrun. now left. }
  destruct (getReactions env channelId messageTimestamp w) as [reactions|e].
  2:{ exact (IH _ _ _ Hrun). }
  destruct (decide_cases env channelId messageTimestamp excludeUserIds approveReaction_
              rejectReaction_ reactions
              (after env w (GetReactions channelId messageTimestamp (Ok reactions))))
    as [(Hc & u & t & Hd)|[(Hn & Hc & u & t & Hd)|(Hn1 & Hn2 & Hd)]];
    rewrite Hd in Hrun.
  - inversion Hrun. right.
    exists (votersOf excludeUserIds rejectReaction_ reactions).
    split; [intros E; apply votersOf_nil in E; contradiction|].
    split; [intros v; apply votersOf_not_excluded|]. now left.
  - inversion Hrun. right.
    exists (votersOf excludeUserIds approveReaction_ reactions).
    split; [intros E; apply votersOf_nil in E; contradiction|].
    split; [intros v; apply votersOf_not_excluded|]. now right.
  - exact (IH _ _ _ Hrun).
Qed.

(** Enough fuel lets [waitForApproval] return, when the timeout is not
    infinite. *)
Lemma waitForApproval_runs (env : Env) (channelId messageTimestamp : string)
    (excludeUserIds : list string) (approveReaction_ rejectReaction_ : string)
    (waitMinutes_ : number) (pollIntervalMs : Z) (fuel : nat) (w : World) :
  0 < pollIntervalMs ->
  mulNumber (mulNumber waitMinutes_ (numZ 60)) (numZ 1000) <> Infinity false ->
  (ticksBound (mulNumber (mulNumber waitMinutes_ (numZ 60)) (numZ 1000)) pollIntervalMs
   <= fuel)%nat ->
  exists res w',
    waitForApproval env fuel channelId messageTimestamp excludeUserIds
                    approveReaction_ rejectReaction_ waitMinutes_ pollIntervalMs w
      = Some (res, w').
Proof.
  intros Hpoll Hfin Hfuel.
  change (waitForApproval env fuel channelId messageTimestamp excludeUserIds
            approveReaction_ rejectReaction_ waitMinutes_ pollIntervalMs w)
    with (pollLoop env channelId messageTimestamp excludeUserIds approveReaction_
            rejectReaction_ pollIntervalMs (clock w)
            (mulNumber (mulNumber waitMinutes_ (numZ 60)) (numZ 1000)) fuel w).
  generalize dependent (mulNumber (mulNumber waitMinutes_ (numZ 60)) (numZ 1000)).
  intros timeoutMs Hfin Hfuel.
  destruct (pollLoop_runs env channelId messageTimestamp excludeUserIds approveReaction_
              rejectReaction_ pollIntervalMs (clock w) timeoutMs Hpoll Hfin fuel w)
    as (res & new & w' & Hrun & _).
  { unfold ticksBound in Hfuel. destruct timeoutMs; lia. }
  { unfold remaining, ticksBound in *. destruct timeoutMs as [q| |s]; [|nia|nia].
    rewrite Z.sub_diag, Z.sub_0_r.
    set (m := Z.max 0 (Qceiling q)) in *.
    assert (Hm : 0 <= m) by (unfold m; lia).
    pose proof (Z.mod_pos_bound m pollIntervalMs Hpoll).
    pose proof (Z.div_mod m pollIntervalMs ltac:(lia)).
    assert (0 <= m / pollIntervalMs) by (apply Z.div_pos; lia).
    nia. }
  eauto.
Qed.

(** X7: whatever [waitForApproval] returns is either [timeout] without
    approvers, or [rejected] or [approved] with a non-empty list of
    approvers none of whom is in [excludeUserIds]. *)
Theorem waitForApproval_result (env : Env) (fuel : nat)
    (channelId messageTimestamp : string) (excludeUserIds : list string)
    (approveReaction_ rejectReaction_ : string) (waitMinutes_ : number)
    (pollIntervalMs : Z) (w w' : World) (res : ApprovalResult) :
  waitForApproval env fuel channelId messageTimestamp excludeUserIds
                  approveReaction_ rejectReaction_ waitMinutes_ pollIntervalMs w
    = Some (res, w') ->
  res = mkApprovalResult timeout None \/
  exists l, l <> [] /\ (forall u, In u l -> ~ In u excludeUserIds) /\
            (res = mkApprovalResult rejected (Some l) \/
             res = mkApprovalResult approved (Some l)).
Proof. apply pollLoop_result. Qed.

Lemma waitForApproval_result_witness :
  mkApprovalResult rejected (Some ["U7"]) = mkApprovalResult timeout None \/
  exists l, l <> [] /\ (forall u, In u l -> ~ In u ["U999"]) /\
            (mkApprovalResult rejected (Some ["U7"]) = mkApprovalResult rejected (Some l) \/
             mkApprovalResult rejected (Some ["U7"]) = mkApprovalResult approved (Some l)).
Proof.
  apply (waitForApproval_result
           (demoEnv (Ok []) (Ok demoMessage) (Ok demoReactions))
           1 "C123" "1700000000.000100" ["U999"] "ok" "-1" (numZ 20) 15000
           demoWorld
           (mkWorld 1800
              [mkEvent 1500 (GetReactions "C123" "1700000000.000100" (Ok demoReactions));
               mkEvent 1600 (GetUserInfo "U7" (Ok (mkUserInfo "U7" "Test User")));
               mkEvent 1700 (PostThreadMessage "C123" "1700000000.000100"
                               "❌ <@U7> (Test User) が拒否しました" (Ok demoMessage))])).
  vm_compute. reflexivity.
Defined.

(** X8: with a [waitMinutes] that is [NaN], zero or negative the loop is
    never entered: [waitForApproval] returns [timeout] at once and asks
    nothing of the client. *)
Theorem waitForApproval_no_wait (env : Env) (fuel : nat)
    (channelId messageTimestamp : string) (excludeUserIds : list string)
    (approveReaction_ rejectReaction_ : string) (waitMinutes_ : number)
    (pollIntervalMs : Z) (w : World) :
  (waitMinutes_ = NaN \/ exists q, waitMinutes_ = Num q /\ (q <= 0)%Q) ->
  waitForApproval env (S fuel) channelId messageTimestamp excludeUserIds
                  approveReaction_ rejectReaction_ waitMinutes_ pollIntervalMs w
    = Some (mkApprovalResult timeout None, w).
Proof.
  intros H. unfold waitForApproval, mbind, dateNow. rewrite pollLoop_S.
  rewrite Z.sub_diag.
  rewrite NumberFacts.mulNumber_not_positive; [reflexivity|lia|].
  apply NumberFacts.mulNumber_not_positive; [lia|].
  destruct H as [->|(q & -> & Hq)]; [reflexivity|].
  unfold ltNumber, numZ. apply negb_false_iff, Qle_bool_iff. exact Hq.
Qed.

Lemma waitForApproval_no_wait_witness :
  waitForApproval (demoEnv (Ok []) (Ok demoMessage) (Ok demoReactions))
                  1 "C123" "1700000000.000100" ["U999"] "ok" "-1" (Num (-5 # 1)) 15000
                  demoWorld
    = Some (mkApprovalResult timeout None, demoWorld).
Proof.
  apply (waitForApproval_no_wait
           (demoEnv (Ok []) (Ok demoMessage) (Ok demoReactions))
           0 "C123" "1700000000.000100" ["U999"] "ok" "-1" (Num (-5 # 1)) 15000 demoWorld).
  right. exists (-5 # 1)%Q. split; [reflexivity|]. discriminate.
Defined.

(** X9: a decision is announced before it is returned: the name of the
    first counted user is looked up, [Unknown User] standing in when the
    lookup fails, and one reply naming that user is posted in the thread
    of the request; the result of that post is not looked at. *)
Theorem decide_announces (env : Env) (channelId messageTimestamp : string)
    (excludeUserIds : list string) (approveReaction_ rejectReaction_ : string)
    (reactions : list Reaction) (w : World) (first : string) (rest : list string) :
  let run := decide env channelId messageTimestamp excludeUserIds
                    approveReaction_ rejectReaction_ reactions in
  let info := getUserInfo env first w in
  let w1 := after env w (GetUserInfo first info) in
  (votersOf excludeUserIds rejectReaction_ reactions = first :: rest ->
   let text := replyText "❌" first info "が拒否しました" in
   let posted := postThreadMessage env channelId messageTimestamp text w1 in
   run w = Some (Some (mkApprovalResult rejected (Some (first :: rest))),
                 after env w1 (PostThreadMessage channelId messageTimestamp text posted))) /\
  (votersOf excludeUserIds rejectReaction_ reactions = [] ->
   votersOf excludeUserIds approveReaction_ reactions = first :: rest ->
   let text := replyText "✅" first info "が承認しました" in
   let posted := postThreadMessage env channelId messageTimestamp text w1 in
   run w = Some (Some (mkApprovalResult approved (Some (first :: rest))),
                 after env w1 (PostThreadMessage channelId messageTimestamp text posted))).
Proof.
  cbv zeta. unfold decide.
  fold (votersOf excludeUserIds rejectReaction_ reactions).
  fold (votersOf excludeUserIds approveReaction_ reactions).
  rewrite !length_guard. split.
  - intros ->. unfold mbind, await, mret, replyText, after.
    destruct (getUserInfo env first w); reflexivity.
  - intros -> ->. unfold mbind, await, mret, replyText, after.
    destruct (getUserInfo env first w); reflexivity.
Qed.

Lemma decide_announces_witness :
  decide (demoEnv (Ok []) (Ok demoMessage) (Ok demoReactions))
         "C123" "1700000000.000100" ["U999"] "ok" "-1" demoReactions demoWorld
  = Some (Some (mkApprovalResult rejected (Some ["U7"])),
          mkWorld 1700
            [mkEvent 1500 (GetUserInfo "U7" (Ok (mkUserInfo "U7" "Test User")));
             mkEvent 1600 (PostThreadMessage "C123" "1700000000.000100"
                             "❌ <@U7> (Test User) が拒否しました" (Ok demoMessage))]).
Proof.
  apply (proj1 (decide_announces
                  (demoEnv (Ok []) (Ok demoMessage) (Ok demoReactions))
                  "C123" "1700000000.000100" ["U999"] "ok" "-1" demoReactions demoWorld
                  "U7" [])).
  reflexivity.
Defined.

(** The outcomes of [checkRelease], branch by branch. *)
Lemma checkRelease_cases (env : Env) (fuel : nat) (config : ReleaseCheckConfig)
    (channelId : string) (w : World) :
  match utcOffset env (resolvedTimezone config) (clock w) with
  | None =>
      checkRelease env fuel config channelId w =
        Some (Err (MkError ValidationError ("Invalid timezone: " ++ resolvedTimezone config)
                           (Some "timezone")), w)
  | Some offsetMinutes =>
      match fetchSchedules env w with
      | Err e => exists w', checkRelease env fuel config channelId w = Some (Ok fallbackResult, w')
      | Ok all =>
          let relevant := findRelevantSchedules all (configProductName config)
                            (configEnvironmentName config)
                            (clock w + offsetMinutes * 60000) in
          let w1 := after env w (FetchSchedules (Ok all)) in
          match relevant with
          | [] => checkRelease env fuel config channelId w
                  = Some (Ok (noScheduleResult config), w1)
          | _ :: _ =>
              let text := approvalMessage env relevant config in
              let ids := unique (map personInChargeId relevant) in
              match postMessage env channelId text ids w1 with
              | Err e =>
                  checkRelease env fuel config channelId w =
                    Some (Err (MkErrorCause NetworkError
                                 "Failed to post approval request to Slack" e),
                          after env w1 (PostMessage channelId text ids (Err e)))
              | Ok messageInfo =>
                  checkRelease env fuel config channelId w =
                    match waitForApproval env fuel channelId (timestamp messageInfo)
                            (match requesterUserId config with
                             | Some r => if truthyString r then [r] else []
                             | None => []
                             end)
                            (orString (approveReaction config) "ok")
                            (orString (rejectReaction config) "-1")
                            (orNumber (waitMinutes config) (numZ 20))
                            defaultPollIntervalMs
                            (after env w1 (PostMessage channelId text ids (Ok messageInfo)))
                    with
                    | Some (a, w') =>
                        Some (Ok (mkReleaseCheckResult (approvalStatus a)
                                    match approvalStatus a with
                                    | approved =>
                                        "Release approved by: " ++
                                        approverNames (approvalApprovers a)
                                    | rejected =>
                                        "Release rejected by: " ++
                                        approverNames (approvalApprovers a)
                                    | _ =>
                                        "Release request timed out after " ++
                                        numberToString env
                                          (orNumber (waitMinutes config) (numZ 20)) ++
                                        " minutes. No response received."
                                    end
                                    (approvalApprovers a) (Some relevant)), w')
                    | None => None
                    end
              end
          end
      end
  end.
Proof.
  unfold checkRelease, getCurrentDateTime, mbind, dateNow.
  fold (resolvedTimezone config).
  destruct (utcOffset env (resolvedTimezone config) (clock w)) as [off|]; [|reflexivity].
  unfold mret.
  change (await env (fetchSchedules env) FetchSchedules w)
    with (Some (fetchSchedules env w,
                after env w (FetchSchedules (fetchSchedules env w)))).
  destruct (fetchSchedules env w) as [all|e]; [|eexists; reflexivity].
  cbv zeta.
  destruct (findRelevantSchedules all (configProductName config)
              (configEnvironmentName config) (clock w + off * 60000)) as [|s l];
    [reflexivity|].
  cbn [List.length Nat.eqb]. unfold requestApproval, await, after.
  destruct (postMessage env channelId _ _ _); reflexivity.
Qed.

(** X10: an unknown time zone ends the check before anything is asked of
    the clients: the result is the [ValidationError] on the field
    [timezone], and the world is as before. *)
Theorem checkRelease_invalid_timezone (env : Env) (fuel : nat)
    (config : ReleaseCheckConfig) (channelId : string) (w : World) :
  utcOffset env (resolvedTimezone config) (clock w) = None ->
  checkRelease env fuel config channelId w =
    Some (Err (MkError ValidationError ("Invalid timezone: " ++ resolvedTimezone config)
                       (Some "timezone")), w).
Proof.
  intros H. pose proof (checkRelease_cases env fuel config channelId w) as C.
  rewrite H in C. exact C.
Qed.

Lemma checkRelease_invalid_timezone_witness :
  checkRelease (demoEnv (Ok [demoActive]) (Ok demoMessage) (Ok []))
               0 (mkConfig "my-app" "staging" None None None None (Some "Mars/Olympus"))
               "C123" demoWorld =
    Some (Err (MkError ValidationError "Invalid timezone: Mars/Olympus" (Some "timezone")),
          demoWorld).
Proof.
  apply (checkRelease_invalid_timezone
           (demoEnv (Ok [demoActive]) (Ok demoMessage) (Ok []))
           0 (mkConfig "my-app" "staging" None None None None (Some "Mars/Olympus"))
           "C123" demoWorld).
  reflexivity.
Defined.

(** Given fuel for the polling loop and a wait that is not infinite,
    [checkRelease] returns, and it returns an error in two cases only:
    the time zone is unknown, or posting the approval request failed. *)
Lemma checkRelease_runs (env : Env) (fuel : nat) (config : ReleaseCheckConfig)
    (channelId : string) (w : World) :
  mulNumber (mulNumber (orNumber (waitMinutes config) (numZ 20)) (numZ 60)) (numZ 1000)
    <> Infinity false ->
  (ticksBound (mulNumber (mulNumber (orNumber (waitMinutes config) (numZ 20)) (numZ 60))
                         (numZ 1000))
              defaultPollIntervalMs <= fuel)%nat ->
  exists r w',
    checkRelease env fuel config channelId w = Some (r, w') /\
    forall e, r = Err e ->
      (utcOffset env (resolvedTimezone config) (clock w) = None /\
       e = MkError ValidationError ("Invalid timezone: " ++ resolvedTimezone config)
                   (Some "timezone")) \/
      (exists cause,
         e = MkErrorCause NetworkError "Failed to post approval request to Slack" cause).
Proof.
  intros Hfin Hfuel. pose proof (checkRelease_cases env fuel config channelId w) as C.
  destruct (utcOffset env (resolvedTimezone config) (clock w)) as [off|].
  2:{ eexists. eexists. split; [exact C|]. intros e E. inversion E. now left. }
  destruct (fetchSchedules env w) as [all|e0].
  2:{ destruct C as (w' & C). eexists. eexists. split; [exact C|]. intros e E. discriminate E. }
  cbv zeta in C.
  destruct (findRelevantSchedules all _ _ _) as [|s l].
  { eexists. eexists. split; [exact C|]. intros e E. discriminate E. }
  destruct (postMessage env channelId _ _ _) as [mi|e1].
  2:{ eexists. eexists. split; [exact C|]. intros e E. inversion E. right. eauto. }
  match type of C with
  | _ = match waitForApproval ?env ?f ?c ?ts ?ex ?ap ?rj ?wm ?p ?w0 with _ => _ end =>
      destruct (waitForApproval_runs env c ts ex ap rj wm p f w0)
        as (res & w' & Hrun)
  end.
  { reflexivity. }
  { exact Hfin. }
  { exact Hfuel. }
  rewrite Hrun in C. eexists. eexists. split; [exact C|]. intros e E. discriminate E.
Qed.

(** X12: in a successful result of [checkRelease], approvers are given
    exactly for the statuses decided by a reaction: the list is then not
    empty, the status is [approved] or [rejected], the schedules given are
    the relevant ones, and a configured requester is not among the
    approvers.  Without approvers the status is never [rejected]. *)
Theorem checkRelease_approvers (env : Env) (fuel : nat) (config : ReleaseCheckConfig)
    (channelId : string) (w w' : World) (r : ReleaseCheckResult) :
  checkRelease env fuel config channelId w = Some (Ok r, w') ->
  match approvers r with
  | Some l =>
      l <> [] /\
      (status r = approved \/ status r = rejected) /\
      (forall requester, requesterUserId config = Some requester -> requester <> "" ->
                         ~ In requester l) /\
      (exists relevant, schedules r = Some relevant /\ relevant <> [] /\
                        forall s, In s relevant ->
                                  productName s = configProductName config /\
                                  environmentName s = configEnvironmentName config)
  | None => status r <> rejected
  end.
Proof.
  intros Hrun. pose proof (checkRelease_cases env fuel config channelId w) as C.
  destruct (utcOffset env (resolvedTimezone config) (clock w)) as [off|].
  2:{ rewrite C in Hrun. discriminate Hrun. }
  destruct (fetchSchedules env w) as [all|e0].
  { cbv zeta in C.
    destruct (findRelevantSchedules all (configProductName config)
                (configEnvironmentName config) (clock w + off * 60000))
      as [|s l] eqn:Hrel.
    { rewrite C in Hrun. inversion Hrun. simpl. discriminate. }
    destruct (postMessage env channelId _ _ _) as [mi|e1].
    2:{ rewrite C in Hrun. discriminate Hrun. }
    rewrite Hrun in C.
    destruct (waitForApproval env fuel channelId (timestamp mi) _ _ _ _ _ _)
      as [[a w'']|] eqn:Hwait; [|discriminate C].
    inversion C; subst r w'. clear C. cbn [approvers status schedules].
    apply pollLoop_result in Hwait
      as [->|(voters & Hne & Hex & [->| ->])]; cbn [approvalApprovers approvalStatus].
    - discriminate.
    - split; [exact Hne|]. split; [now right|]. split.
      + intros requester Hreq Hnb Hin. apply (Hex requester Hin).
        rewrite Hreq. unfold truthyString.
        destruct (String.eqb_spec requester ""); [contradiction|]. now left.
      + exists (s :: l). split; [reflexivity|]. split; [discriminate|].
        intros s' Hs'. rewrite <- Hrel in Hs'.
        apply findRelevantSchedules_In in Hs'. tauto.
    - split; [exact Hne|]. split; [now left|]. split.
      + intros requester Hreq Hnb Hin. apply (Hex requester Hin).
        rewrite Hreq. unfold truthyString.
        destruct (String.eqb_spec requester ""); [contradiction|]. now left.
      + exists (s :: l). split; [reflexivity|]. split; [discriminate|].
        intros s' Hs'. rewrite <- Hrel in Hs'.
        apply findRelevantSchedules_In in Hs'. tauto. }
  destruct C as (w1 & C). rewrite C in Hrun. inversion Hrun. simpl. discriminate.
Qed.

Lemma checkRelease_approvers_witness :
  exists r w',
    checkRelease (demoEnv (Ok [demoActive]) (Ok demoMessage) (Ok demoReactions))
                 1 demoConfig "C123" demoWorld = Some (Ok r, w') /\
    match approvers r with
    | Some l => ~ In "U999" l
    | None => status r <> rejected
    end.
Proof.
  eexists. eexists. split; [vm_compute; reflexivity|].
  match goal with
  | |- match approvers ?r with _ => _ end =>
      pose proof (checkRelease_approvers
                    (demoEnv (Ok [demoActive]) (Ok demoMessage) (Ok demoReactions))
                    1 demoConfig "C123" demoWorld _ r ltac:(vm_compute; reflexivity)) as H
  end.
  cbn [approvers] in H |- *. destruct H as (_ & _ & H & _).
  apply (H "U999"); [reflexivity|discriminate].
Defined.

End ReleaseCheckerRuns.

(* ------------------------------------------------------------------ *)
(** ** lib/schedule.ts: early years, the offset of the host, and what a
       row is not checked for *)

Module ScheduleParserMore.
Import JsString Regex ScheduleParser RegexFacts JsDateFacts ScheduleParserFacts Demo.
Import JsDate.
Local Open Scope list_scope.

Lemma digitValue_nonneg c : isDigit c = true -> 0 <= digitValue c.
Proof.
  unfold isDigit, digitValue. intros H. apply andb_true_iff in H as [H _].
  apply Nat.leb_le in H. lia.
Qed.

Lemma parseInt_nonneg cs : forallb isDigit cs = true -> 0 <= parseInt cs.
Proof.
  unfold parseInt.
  assert (G : forall acc, 0 <= acc -> forallb isDigit cs = true ->
                          0 <= fold_left (fun a c => 10 * a + digitValue c) cs acc).
  { induction cs as [|c cs IH]; intros acc Hacc Hf; cbn [fold_left]; [exact Hacc|].
    cbn [forallb] in Hf. apply andb_true_iff in Hf as [Hc Hf].
    apply IH; [|exact Hf]. pose proof (digitValue_nonneg c Hc). lia. }
  apply G. lia.
Qed.

Lemma DayFromYear_le y y' : y <= y' -> DayFromYear y <= DayFromYear y'.
Proof. unfold DayFromYear. intros. Z.div_mod_to_equations. lia. Qed.

Lemma YearFromTime_ge t y : DayFromYear y <= Day t -> y <= YearFromTime t.
Proof.
  intros H. pose proof (YearFromTime_spec t) as [_ S].
  destruct (Z_lt_le_dec (YearFromTime t) y) as [L|G]; [|exact G].
  assert (DayFromYear (YearFromTime t + 1) <= DayFromYear y)
    by (apply DayFromYear_le; lia).
  lia.
Qed.

Lemma monthStart_nonneg m leap : 0 <= leap -> 0 <= monthStart m leap.
Proof.
  intros H. unfold monthStart.
  repeat match goal with
    | |- context [?a <=? ?b] => destruct (a <=? b); [lia|]
    | |- context [?a =? ?b] => destruct (a =? b); [lia|]
    end.
  lia.
Qed.

(** A time within two days of a date built from non-negative fields lies
    two years before the given one at the earliest. *)
Lemma built_year_ge yr m dd h mi s t :
  -1 <= m -> 0 <= dd -> 0 <= h -> 0 <= mi -> 0 <= s ->
  Z.abs (t - MakeDate (MakeDay yr m dd) (MakeTime h mi s 0)) <= 2 * msPerDay ->
  yr - 2 <= YearFromTime t.
Proof.
  intros Hm Hd Hh Hmi Hs Ht. apply YearFromTime_ge.
  assert (Hday : MakeDay yr m dd - 2 <= Day t).
  { revert Ht.
    unfold Day, MakeDate, MakeTime, msPerDay, msPerHour, msPerMinute, msPerSecond.
    generalize (MakeDay yr m dd). intros D Ht. Z.div_mod_to_equations. lia. }
  pose proof (DayFromYear_step (yr - 2)) as St2.
  replace (yr - 2 + 1) with (yr - 1) in St2 by lia.
  assert (Hy2 : DayFromYear (yr - 2) + 2 <= DayFromYear (yr - 1))
    by (unfold DaysInYear in St2; destruct (isLeapYear (yr - 2)); lia).
  assert (Hy1 : DayFromYear (yr - 1) <= MakeDay yr m dd); [|lia].
  clear Hday Ht St2 Hy2. unfold MakeDay.
  set (leap := if isLeapYear (yr + m / 12) then 1 else 0).
  assert (Hl : 0 <= leap) by (unfold leap; destruct (isLeapYear _); lia).
  pose proof (monthStart_nonneg (m mod 12) leap Hl) as Hms.
  destruct (Z_lt_le_dec m 0) as [Hneg|Hpos].
  - assert (m = -1) by lia. subst m.
    change (-1 / 12) with (-1) in *. change (-1 mod 12) with 11 in *.
    replace (yr + -1) with (yr - 1) in * by lia.
    assert (monthStart 11 leap = 334 + leap) by reflexivity. lia.
  - assert (0 <= m / 12) by (apply Z.div_pos; lia).
    assert (DayFromYear yr <= DayFromYear (yr + m / 12)) by (apply DayFromYear_le; lia).
    pose proof (DayFromYear_step (yr - 1)) as St.
    replace (yr - 1 + 1) with yr in St by lia.
    unfold DaysInYear in St. destruct (isLeapYear (yr - 1)); lia.
Qed.

(** X13: a text of the pattern whose year is 0000 to 0099 is always
    rejected, calendar-valid or not: [new Date] reads such a year as 1900
    plus the year, and the year read back differs from the digits.  This
    holds on every host whose zone has a constant offset, and on every
    host where the offset in force at an instant and the offset used to
    read a local time as that instant differ by two days at most. *)
Theorem parseDateTime_rejects_early_years (tza : LocalTZA) (s : string)
    (f : Captures) (ws : list ascii) :
  (forall t, Z.abs (tza (t - tza t false) true - tza t false) <= 2 * msPerDay) ->
  list_ascii_of_string s = render f ws -> wellFormed f ws ->
  parseInt (cYear f) <= 99 ->
  parseDateTime tza s =
    Err (newError ("Invalid datetime format: " ++ s)%string).
Proof.
  intros Hzone Hs Hw Hy. unfold parseDateTime.
  rewrite (not_blank s f ws Hw Hs).
  assert (Em : matchStart dateTimeRegex s = Some f)
    by (apply matchStart_dateTimeRegex; eauto).
  rewrite Em. fold (secondValue f).
  destruct Hw as ((_ & Hfy) & (_ & Hfm) & (_ & Hfd) & _ & (_ & Hfh) & (_ & Hfmi) & Hsec).
  pose proof (parseInt_nonneg _ Hfy) as Py. pose proof (parseInt_nonneg _ Hfm) as Pm.
  pose proof (parseInt_nonneg _ Hfd) as Pd. pose proof (parseInt_nonneg _ Hfh) as Ph.
  pose proof (parseInt_nonneg _ Hfmi) as Pmi.
  assert (Ps : 0 <= secondValue f).
  { unfold secondValue. destruct (cSecond f) as [sec|]; [|lia].
    apply parseInt_nonneg, Hsec. }
  assert (Hyear : (getFullYear tza
                     (newDate tza (parseInt (cYear f)) (parseInt (cMonth f) - 1)
                        (parseInt (cDay f)) (parseInt (cHour f)) (parseInt (cMinute f))
                        (secondValue f)) =? parseInt (cYear f)) = false).
  { apply Z.eqb_neq. unfold getFullYear, newDate, LocalTime, UTC.
    destruct (Z.leb_spec 0 (parseInt (cYear f))); [|lia].
    destruct (Z.leb_spec (parseInt (cYear f)) 99); [|lia]. cbn [andb].
    match goal with
    | |- YearFromTime ?t' <> _ =>
        pose proof (built_year_ge (1900 + parseInt (cYear f)) (parseInt (cMonth f) - 1)
                      (parseInt (cDay f)) (parseInt (cHour f)) (parseInt (cMinute f))
                      (secondValue f) t') as B
    end.
    match type of B with
    | _ -> _ -> _ -> _ -> _ -> Z.abs (_ - ?t) <= _ -> _ =>
        specialize (Hzone t); generalize dependent t
    end.
    intros t Hzone B.
    assert (1900 + parseInt (cYear f) - 2 <=
            YearFromTime (t - tza t false + tza (t - tza t false) true))
      by (apply B; lia).
    lia. }
  revert Hyear.
  generalize (newDate tza (parseInt (cYear f)) (parseInt (cMonth f) - 1)
                (parseInt (cDay f)) (parseInt (cHour f)) (parseInt (cMinute f))
                (secondValue f)).
  intros date ->. reflexivity.
Qed.

Lemma parseDateTime_rejects_early_years_witness :
  parseDateTime demoNewYork "0050/06/15 12:30" =
    Err (newError "Invalid datetime format: 0050/06/15 12:30").
Proof.
  apply (parseDateTime_rejects_early_years demoNewYork "0050/06/15 12:30"
           (mkCaptures (list_ascii_of_string "0050") (list_ascii_of_string "06")
                       (list_ascii_of_string "15") (list_ascii_of_string "12")
                       (list_ascii_of_string "30") None)
           [" "%char]).
  - intros t. unfold demoNewYork, msPerDay.
    destruct (t <? 1710039600000); destruct (_ <? 1710054000000); lia.
  - reflexivity.
  - unfold wellFormed, digits. simpl. repeat split; try lia; discriminate.
  - vm_compute. discriminate.
Defined.

Lemma newDate_offset tza y m d h mi s :
  newDate (fixedOffset tza) y m d h mi s = newDate (fixedOffset 0) y m d h mi s - tza.
Proof. unfold newDate, UTC, fixedOffset. lia. Qed.

Lemma getters_offset tza d :
  getFullYear (fixedOffset tza) (d - tza) = getFullYear (fixedOffset 0) d /\
  getMonth (fixedOffset tza) (d - tza) = getMonth (fixedOffset 0) d /\
  getDate (fixedOffset tza) (d - tza) = getDate (fixedOffset 0) d /\
  getHours (fixedOffset tza) (d - tza) = getHours (fixedOffset 0) d /\
  getMinutes (fixedOffset tza) (d - tza) = getMinutes (fixedOffset 0) d /\
  getSeconds (fixedOffset tza) (d - tza) = getSeconds (fixedOffset 0) d.
Proof.
  unfold getFullYear, getMonth, getDate, getHours, getMinutes, getSeconds, LocalTime,
    fixedOffset.
  replace (d - tza + tza) with (d + 0) by lia. repeat split.
Qed.

(** X14: among hosts whose zone has a constant offset, whether a text is
    accepted does not depend on the offset, and the instant returned
    moves against it: on a host [tza] milliseconds ahead of UTC the
    instant is [tza] milliseconds earlier than on a host at UTC. *)
Theorem parseDateTime_offset (tza : Z) (s : string) :
  parseDateTime (fixedOffset tza) s =
    match parseDateTime (fixedOffset 0) s with
    | Ok d => Ok (d - tza)
    | Err e => Err e
    end.
Proof.
  unfold parseDateTime.
  destruct ((s =? "")%string || (trim s =? "")%string); [reflexivity|].
  destruct (matchStart dateTimeRegex s) as [f|]; [|reflexivity].
  fold (secondValue f).
  rewrite (newDate_offset tza).
  generalize (newDate (fixedOffset 0) (parseInt (cYear f)) (parseInt (cMonth f) - 1) (parseInt (cDay f))
                (parseInt (cHour f)) (parseInt (cMinute f)) (secondValue f)).
  intros d.
  destruct (getters_offset tza d) as (-> & -> & -> & -> & -> & ->).
  match goal with |- (if ?c then _ else _) = _ => destruct c end; reflexivity.
Qed.

(** X15: [validateScheduleRow] looks at the first seven fields only, and
    never compares the two datetimes: a row with further fields gives what
    its first seven give, and a valid row with its start and end fields
    exchanged is valid too, start then lying where the end was. *)
Theorem validateScheduleRow_unchecked (tza : LocalTZA) (p e s en id nm rk : string)
    (rest : list string) :
  validateScheduleRow tza (p :: e :: s :: en :: id :: nm :: rk :: rest) =
    validateScheduleRow tza [p; e; s; en; id; nm; rk] /\
  (forall sch,
     validateScheduleRow tza [p; e; s; en; id; nm; rk] = Ok sch ->
     validateScheduleRow tza [p; e; en; s; id; nm; rk] =
       Ok (mkSchedule (productName sch) (environmentName sch)
                      (endDateTime sch) (startDateTime sch)
                      (personInChargeId sch) (personInChargeName sch) (remarks sch))).
Proof.
  split; [reflexivity|].
  intros sch. unfold validateScheduleRow.
  destruct (parseDateTime tza s) as [ds|e1]; [|intros H; discriminate H].
  destruct (parseDateTime tza en) as [de|e2]; [|intros H; discriminate H].
  destruct (negb (isValidSlackUserId id)); [intros H; discriminate H|].
  intros H. inversion H. reflexivity.
Qed.

Lemma validateScheduleRow_unchecked_witness :
  validateScheduleRow demoUtc
                      ["web-app"; "staging"; "2024/01/15 18:00"; "2024/01/15 10:00";
                       "U1234ABCD"; "John Doe"; "Feature testing"] =
    Ok (mkSchedule "web-app" "staging" 1705341600000 1705312800000
                   "U1234ABCD" "John Doe" "Feature testing").
Proof.
  apply (proj2 (validateScheduleRow_unchecked demoUtc "web-app" "staging" "2024/01/15 10:00"
                  "2024/01/15 18:00" "U1234ABCD" "John Doe" "Feature testing" [])
           (mkSchedule "web-app" "staging" 1705312800000 1705341600000
                       "U1234ABCD" "John Doe" "Feature testing")).
  vm_compute. reflexivity.
Defined.

End ScheduleParserMore.

(* ------------------------------------------------------------------ *)
(** ** lib/sheets.ts: what [fetchSchedules] returns and warns about *)

Module SheetsClientFacts.
Import JsString ScheduleParser JsHost ReleaseChecker SheetsClient.
Local Open Scope list_scope.

Lemma validateRows_accepted (tza : JsDate.LocalTZA) (rows : list (list string)) (index : nat) :
  fst (validateRows tza index rows) = accepted tza rows.
Proof.
  revert index. induction rows as [|row rows IH]; intros index; [reflexivity|].
  cbn [validateRows accepted flat_map].
  destruct (validateScheduleRow tza row); cbn [fst]; rewrite IH; reflexivity.
Qed.

Lemma validateRows_length (tza : JsDate.LocalTZA) (rows : list (list string)) (index : nat) :
  (List.length (fst (validateRows tza index rows)) +
   List.length (snd (validateRows tza index rows)) = List.length rows)%nat.
Proof.
  revert index. induction rows as [|row rows IH]; intros index; [reflexivity|].
  cbn [validateRows].
  destruct (validateScheduleRow tza row); cbn [fst snd List.length];
    specialize (IH (S index)); lia.
Qed.

Lemma validateRows_warning (tza : JsDate.LocalTZA) (rows : list (list string)) (index k : nat)
    (row : list string) (e : Error) :
  nth_error rows k = Some row ->
  validateScheduleRow tza row = Err e ->
  In ("Row " ++ showZ (Z.of_nat (index + k) + 2) ++ ": " ++ error_message e)%string
     (snd (validateRows tza index rows)).
Proof.
  revert index k. induction rows as [|r rows IH]; intros index k Hk He.
  - destruct k; discriminate Hk.
  - destruct k as [|k].
    + injection Hk as ->. cbn [validateRows]. rewrite He. cbn [snd].
      left. rewrite Nat.add_0_r. reflexivity.
    + cbn [nth_error] in Hk. cbn [validateRows].
      specialize (IH (S index) k Hk He).
      replace (index + S k)%nat with (S index + k)%nat by lia.
      destruct (validateScheduleRow tza r); cbn [snd]; [exact IH|right; exact IH].
Qed.

(** X16: [fetchSchedules] fails exactly when the call of the Sheets API
    throws; the error then carries the message of what was thrown, and no
    warning is written. *)
Theorem fetchSchedules_fails_iff_api_throws (tza : JsDate.LocalTZA) (api : GoogleSheetsApi)
    (spreadsheetId sheetName : string) (e : Error) :
  fst (fetchSchedules tza api spreadsheetId sheetName) = Err e <->
  exists t,
    api spreadsheetId (sheetName ++ "!A:G")%string = Threw t /\
    e = newError ("Failed to fetch schedules from Google Sheets: " ++ thrownMessage t) /\
    snd (fetchSchedules tza api spreadsheetId sheetName) = [].
Proof.
  unfold fetchSchedules.
  destruct (api spreadsheetId (sheetName ++ "!A:G")%string) as [[raw|]|t].
  - destruct (List.length raw =? 0)%nat; cbn [fst]; split;
      [discriminate|intros (t & H & _); discriminate H
      |discriminate|intros (t & H & _); discriminate H].
  - cbn [fst]. split; [discriminate|intros (t & H & _); discriminate H].
  - cbn [fst snd]. split.
    + intros H. injection H as <-. exists t. repeat split.
    + intros (t' & H & -> & _). injection H as ->. reflexivity.
Qed.

(** X17: when the API returns the rows of the sheet, the first row is
    taken for the header and never validated, the schedules are those of
    the rows after it that validate, in the order of the sheet, and
    every other row after the header gives one warning. *)
Theorem fetchSchedules_rows (tza : JsDate.LocalTZA) (api : GoogleSheetsApi)
    (spreadsheetId sheetName : string) (rawData : list (list string)) :
  api spreadsheetId (sheetName ++ "!A:G")%string = Returned (Some rawData) ->
  fst (fetchSchedules tza api spreadsheetId sheetName) = Ok (accepted tza (tl rawData)) /\
  (List.length (accepted tza (tl rawData)) +
   List.length (snd (fetchSchedules tza api spreadsheetId sheetName))
   = List.length (tl rawData))%nat.
Proof.
  intros H. unfold fetchSchedules. rewrite H.
  destruct rawData as [|header rows]; [split; reflexivity|].
  cbn [List.length Nat.eqb skipn tl fst snd].
  rewrite validateRows_accepted. split; [reflexivity|].
  rewrite <- (validateRows_accepted tza rows 0). apply validateRows_length.
Qed.

Lemma fetchSchedules_rows_witness :
  fst (fetchSchedules Demo.demoUtc (DemoClients.demoSheetsApi (Returned (Some DemoClients.demoSheet)))
         "sheet-id" "Sheet1")
    = Ok (accepted Demo.demoUtc (tl DemoClients.demoSheet)) /\
  (List.length (accepted Demo.demoUtc (tl DemoClients.demoSheet)) +
   List.length (snd (fetchSchedules Demo.demoUtc
                       (DemoClients.demoSheetsApi (Returned (Some DemoClients.demoSheet)))
                       "sheet-id" "Sheet1"))
   = List.length (tl DemoClients.demoSheet))%nat.
Proof.
  apply (fetchSchedules_rows Demo.demoUtc
           (DemoClients.demoSheetsApi (Returned (Some DemoClients.demoSheet)))
           "sheet-id" "Sheet1" DemoClients.demoSheet).
  reflexivity.
Defined.

(** X18: a row that does not validate is reported under its number in the
    sheet, counted from 1 with the header as row 1, followed by the
    message of the validation error. *)
Theorem fetchSchedules_warning_row_number (tza : JsDate.LocalTZA) (api : GoogleSheetsApi)
    (spreadsheetId sheetName : string) (rawData : list (list string))
    (k : nat) (row : list string) (e : Error) :
  api spreadsheetId (sheetName ++ "!A:G")%string = Returned (Some rawData) ->
  (1 <= k)%nat ->
  nth_error rawData k = Some row ->
  validateScheduleRow tza row = Err e ->
  In ("Row " ++ showZ (Z.of_nat k + 1) ++ ": " ++ error_message e)%string
     (snd (fetchSchedules tza api spreadsheetId sheetName)).
Proof.
  intros H Hk Hrow He. unfold fetchSchedules. rewrite H.
  destruct rawData as [|header rows]; [destruct k; discriminate Hrow|].
  cbn [List.length Nat.eqb skipn snd].
  destruct k as [|k]; [lia|]. cbn [nth_error] in Hrow.
  pose proof (validateRows_warning tza rows 0 k row e Hrow He) as W.
  replace (Z.of_nat (S k) + 1) with (Z.of_nat (0 + k) + 2) by lia.
  exact W.
Qed.

Lemma fetchSchedules_warning_witness :
  In "Row 3: Invalid start datetime: Invalid datetime format: bad"%string
     (snd (fetchSchedules Demo.demoUtc
             (DemoClients.demoSheetsApi (Returned (Some DemoClients.demoSheet)))
             "sheet-id" "Sheet1")).
Proof.
  apply (fetchSchedules_warning_row_number Demo.demoUtc
           (DemoClients.demoSheetsApi (Returned (Some DemoClients.demoSheet)))
           "sheet-id" "Sheet1" DemoClients.demoSheet 2 Demo.demoBadRow
           (newError "Invalid start datetime: Invalid datetime format: bad")).
  - reflexivity.
  - lia.
  - reflexivity.
  - vm_compute. reflexivity.
Defined.

End SheetsClientFacts.

(* ------------------------------------------------------------------ *)
(** ** lib/slack.ts: what the Slack client makes of the answers of the API *)

Module SlackWebClientFacts.
Import JsString JsHost ReleaseChecker SlackWebClient.
Local Open Scope list_scope.

Lemma truthyString_true (s : string) : truthyString s = true <-> s <> ""%string.
Proof.
  unfold truthyString. destruct (String.eqb_spec s ""); cbn [negb]; split; congruence.
Qed.

(** X19: [postMessage] succeeds exactly when the API returns an answer
    flagged [ok] that carries a non-empty channel and a non-empty [ts],
    and these two make the [MessageInfo]. *)
Theorem postMessage_ok_iff (api : SlackApi) (channel_ text : string)
    (mentions : list string) (m : MessageInfo) :
  postMessage api channel_ text mentions = Ok m <->
  exists response,
    apiPostMessage api channel_ (textWithMentions text mentions) = Returned response /\
    postOk response = true /\
    postChannel response = Some (channel m) /\ channel m <> ""%string /\
    postTs response = Some (timestamp m) /\ timestamp m <> ""%string.
Proof.
  unfold postMessage.
  destruct (apiPostMessage api channel_ (textWithMentions text mentions)) as [response|t].
  - destruct (postChannel response) as [c|] eqn:Ec, (postTs response) as [ts|] eqn:Et.
    + destruct (postOk response) eqn:Eo, (truthyString c) eqn:Tc, (truthyString ts) eqn:Tt;
        cbn [negb orb]; split;
        try discriminate;
        try (intros (r & H & Ho & Hc & Nc & Ht & Nt); injection H as <-;
             rewrite Ec in Hc; rewrite Et in Ht; injection Hc as ->; injection Ht as ->;
             apply truthyString_true in Nc, Nt; congruence).
      * intros H. injection H as <-. exists response. cbn [channel timestamp].
        apply truthyString_true in Tc, Tt. repeat split; assumption.
      * intros (r & H & _ & Hc & _ & Ht & _). injection H as <-.
        rewrite Ec in Hc. rewrite Et in Ht. injection Hc as ->. injection Ht as ->.
        destruct m; reflexivity.
    + split; [discriminate|].
      intros (r & H & _ & _ & _ & Ht & _). injection H as <-. congruence.
    + split; [discriminate|].
      intros (r & H & _ & Hc & _). injection H as <-. congruence.
    + split; [discriminate|].
      intros (r & H & _ & Hc & _). injection H as <-. congruence.
  - split; [discriminate|]. intros (r & H & _). discriminate H.
Qed.



(** X21: [getReactions] succeeds exactly when the API returns an answer
    flagged [ok]; an answer without message, or whose message has no
    reactions, gives the empty list. *)
Theorem getReactions_ok_iff (api : SlackApi) (channel_ timestamp_ : string)
    (reactions : list Reaction) :
  getReactions api channel_ timestamp_ = Ok reactions <->
  exists response,
    apiGetReactions api channel_ timestamp_ = Returned response /\
    reactionsOk response = true /\
    (reactionsMessage response = Some (Some reactions) \/
     reactions = [] /\
     (reactionsMessage response = None \/ reactionsMessage response = Some None \/
      reactionsMessage response = Some (Some []))).
Proof.
  unfold getReactions.
  destruct (apiGetReactions api channel_ timestamp_) as [response|t].
  - destruct (reactionsOk response) eqn:Eo; cbn [negb].
    + destruct (reactionsMessage response) as [[l|]|] eqn:Em; split.
      * intros H. injection H as <-. exists response.
        split; [reflexivity|]. split; [exact Eo|]. left. exact Em.
      * intros (r & H & _ & [Hm|(-> & [Hm|[Hm|Hm]])]); injection H as <-; congruence.
      * intros H. injection H as <-. exists response.
        split; [reflexivity|]. split; [exact Eo|]. right. split; [reflexivity|].
        right. left. exact Em.
      * intros (r & H & _ & [Hm|(-> & _)]); [injection H as <-; congruence|reflexivity].
      * intros H. injection H as <-. exists response.
        split; [reflexivity|]. split; [exact Eo|]. right. split; [reflexivity|].
        left. exact Em.
      * intros (r & H & _ & [Hm|(-> & _)]); [injection H as <-; congruence|reflexivity].
    + split; [discriminate|]. intros (r & H & Ho & _). injection H as <-. congruence.
  - split; [discriminate|]. intros (r & H & _). discriminate H.
Qed.

End SlackWebClientFacts.

(* ------------------------------------------------------------------ *)
(** ** The release check over the two clients of the repository *)

Module ClientsFacts.
Import JsString ScheduleParser JsHost DateUtils ReleaseChecker Clients.
Local Open Scope list_scope.

(** X22: when the call of the Sheets API throws, the release check over
    the two clients is approved all the same; its only calls are the
    fetch and one Slack message without mentions, whose text carries the
    message of what was thrown. *)
Theorem checkRelease_sheets_api_throws (h : Host) (fuel : nat)
    (config : ReleaseCheckConfig) (channelId : string) (w : World) (t : Thrown)
    (offsetMinutes : Z) :
  hostUtcOffset h (resolvedTimezone config) (clock w) = Some offsetMinutes ->
  hostSheetsApi h w (hostSpreadsheetId h) (hostSheetName h ++ "!A:G")%string = Threw t ->
  let e := newError ("Failed to fetch schedules from Google Sheets: " ++ thrownMessage t) in
  exists w' response,
    checkRelease (services h) fuel config channelId w = Some (Ok fallbackResult, w') /\
    map call (newEvents w w')
      = [FetchSchedules (Err e); PostMessage channelId (errorNotice e) [] response] /\
    includes (errorNotice e) (thrownMessage t) = true.
Proof.
  intros Hzone Hthrow e.
  assert (Hfetch : fetchSchedules (services h) w = Err e).
  { cbn [services fetchSchedules]. unfold SheetsClient.fetchSchedules.
    rewrite Hthrow. reflexivity. }
  unfold checkRelease, getCurrentDateTime, mbind, dateNow.
  fold (resolvedTimezone config).
  change (utcOffset (services h)) with (hostUtcOffset h). rewrite Hzone.
  unfold mret.
  change (await (services h) (fetchSchedules (services h)) FetchSchedules w)
    with (Some (fetchSchedules (services h) w,
                after (services h) w (FetchSchedules (fetchSchedules (services h) w)))).
  rewrite Hfetch. fold (errorNotice e). unfold await.
  eexists. eexists. split; [reflexivity|]. split.
  - erewrite ReleaseCheckerFacts.newEvents_app.
    2:{ cbn [events after]. rewrite <- app_assoc. reflexivity. }
    reflexivity.
  - unfold errorNotice, e. cbn [error_message newError].
    change ("⚠️ Error occurred while checking schedules: " ++
            ("Failed to fetch schedules from Google Sheets: " ++ thrownMessage t) ++
            nl ++ "Proceeding with release for availability.")%string
      with (("⚠️ Error occurred while checking schedules: " ++
             "Failed to fetch schedules from Google Sheets: ") ++
            thrownMessage t ++ nl ++ "Proceeding with release for availability.")%string.
    apply ReleaseCheckerMore.includes_intro.
Qed.

Lemma checkRelease_sheets_api_throws_witness :
  let h := DemoClients.demoHost (Threw (ThrownError "quota exceeded")) in
  let e := newError ("Failed to fetch schedules from Google Sheets: " ++
                     thrownMessage (ThrownError "quota exceeded")) in
  exists w' response,
    checkRelease (services h) 0 DemoRun.demoConfig "C123" DemoRun.demoWorld
      = Some (Ok fallbackResult, w') /\
    map call (newEvents DemoRun.demoWorld w')
      = [FetchSchedules (Err e); PostMessage "C123" (errorNotice e) [] response] /\
    includes (errorNotice e) (thrownMessage (ThrownError "quota exceeded")) = true.
Proof.
  apply (checkRelease_sheets_api_throws
           (DemoClients.demoHost (Threw (ThrownError "quota exceeded"))) 0
           DemoRun.demoConfig "C123" DemoRun.demoWorld (ThrownError "quota exceeded") 540).
  - reflexivity.
  - reflexivity.
Defined.

(** X23: when no row after the header validates (the sheet is empty, has
    only its header, or every row is malformed), the release check over
    the two clients answers [no_schedule] after the fetch, and Slack is
    not called. *)
Theorem checkRelease_no_valid_row (h : Host) (fuel : nat) (config : ReleaseCheckConfig)
    (channelId : string) (w : World) (offsetMinutes : Z)
    (rawData : option (list (list string))) :
  hostUtcOffset h (resolvedTimezone config) (clock w) = Some offsetMinutes ->
  hostSheetsApi h w (hostSpreadsheetId h) (hostSheetName h ++ "!A:G")%string
    = Returned rawData ->
  SheetsClient.accepted (hostTza h)
    (tl (match rawData with Some rows => rows | None => [] end)) = [] ->
  checkRelease (services h) fuel config channelId w
    = Some (Ok (noScheduleResult config),
            after (services h) w (FetchSchedules (Ok []))).
Proof.
  intros Hzone Hret Hnone.
  assert (Hfetch : fetchSchedules (services h) w = Ok []).
  { cbn [services fetchSchedules]. unfold SheetsClient.fetchSchedules.
    rewrite Hret. destruct rawData as [[|header rows]|]; try reflexivity.
    cbn [List.length Nat.eqb skipn fst].
    rewrite SheetsClientFacts.validateRows_accepted. cbn [tl] in Hnone.
    rewrite Hnone. reflexivity. }
  pose proof (ReleaseCheckerRuns.checkRelease_cases (services h) fuel config channelId w) as C.
  change (utcOffset (services h)) with (hostUtcOffset h) in C.
  rewrite Hzone, Hfetch in C. exact C.
Qed.

Lemma checkRelease_no_valid_row_witness :
  let h := DemoClients.demoHost
             (Returned (Some [DemoClients.demoHeader; Demo.demoBadRow])) in
  checkRelease (services h) 0 DemoRun.demoConfig "C123" DemoRun.demoWorld
    = Some (Ok (noScheduleResult DemoRun.demoConfig),
            after (services h) DemoRun.demoWorld (FetchSchedules (Ok []))).
Proof.
  apply (checkRelease_no_valid_row
           (DemoClients.demoHost
              (Returned (Some [DemoClients.demoHeader; Demo.demoBadRow]))) 0
           DemoRun.demoConfig "C123" DemoRun.demoWorld 540
           (Some [DemoClients.demoHeader; Demo.demoBadRow])).
  - reflexivity.
  - reflexivity.
  - vm_compute. reflexivity.
Defined.

(** X11: over the two clients of the repository, which answer with a
    [Result] whatever their API does, and given fuel for the polling loop
    and a wait that is not infinite, [checkRelease] returns, and it
    returns an error in two cases only: the host does not know the time
    zone, or posting the approval request failed. *)
Theorem checkRelease_returns (h : Host) (fuel : nat) (config : ReleaseCheckConfig)
    (channelId : string) (w : World) :
  let timeoutMs :=
    mulNumber (mulNumber (orNumber (waitMinutes config) (numZ 20)) (numZ 60)) (numZ 1000) in
  timeoutMs <> Infinity false ->
  (ticksBound timeoutMs defaultPollIntervalMs <= fuel)%nat ->
  exists r w',
    checkRelease (services h) fuel config channelId w = Some (r, w') /\
    forall e, r = Err e ->
      (hostUtcOffset h (resolvedTimezone config) (clock w) = None /\
       e = MkError ValidationError ("Invalid timezone: " ++ resolvedTimezone config)
                   (Some "timezone")) \/
      (exists cause,
         SlackWebClient.postMessage
           (hostSlackApi h (after (services h) w
                              (FetchSchedules (fetchSchedules (services h) w))))
           channelId
           (approvalMessage (services h)
              (findRelevantSchedules
                 (match fetchSchedules (services h) w with Ok all => all | Err _ => [] end)
                 (configProductName config) (configEnvironmentName config)
                 (clock w + match hostUtcOffset h (resolvedTimezone config) (clock w) with
                            | Some offsetMinutes => offsetMinutes * 60000
                            | None => 0
                            end))
              config)
           (unique (map personInChargeId
              (findRelevantSchedules
                 (match fetchSchedules (services h) w with Ok all => all | Err _ => [] end)
                 (configProductName config) (configEnvironmentName config)
                 (clock w + match hostUtcOffset h (resolvedTimezone config) (clock w) with
                            | Some offsetMinutes => offsetMinutes * 60000
                            | None => 0
                            end))))
           = Err cause /\
         e = MkErrorCause NetworkError "Failed to post approval request to Slack" cause).
Proof.
  intros timeoutMs Hfin Hfuel.
  pose proof (ReleaseCheckerRuns.checkRelease_cases (services h) fuel config channelId w) as C.
  change (utcOffset (services h)) with (hostUtcOffset h) in C.
  destruct (hostUtcOffset h (resolvedTimezone config) (clock w)) as [off|].
  2:{ eexists. eexists. split; [exact C|]. intros e E. inversion E. now left. }
  destruct (fetchSchedules (services h) w) as [all|e0].
  2:{ destruct C as (w' & C). eexists. eexists. split; [exact C|]. intros e E.
      discriminate E. }
  cbv zeta in C.
  destruct (findRelevantSchedules all (configProductName config)
              (configEnvironmentName config) (clock w + off * 60000)) as [|s l].
  { eexists. eexists. split; [exact C|]. intros e E. discriminate E. }
  destruct (postMessage (services h) channelId _ _ _) as [mi|e1] eqn:Hpost.
  2:{ eexists. eexists. split; [exact C|]. intros e E. inversion E. right.
      exists e1. split; [exact Hpost|reflexivity]. }
  match type of C with
  | _ = match waitForApproval ?env ?f ?c ?ts ?ex ?ap ?rj ?wm ?p ?w0 with _ => _ end =>
      destruct (ReleaseCheckerRuns.waitForApproval_runs env c ts ex ap rj wm p f w0)
        as (res & w' & Hrun)
  end.
  { reflexivity. }
  { exact Hfin. }
  { exact Hfuel. }
  rewrite Hrun in C. eexists. eexists. split; [exact C|]. intros e E. discriminate E.
Qed.

Lemma checkRelease_returns_witness :
  exists r w',
    checkRelease (services (DemoClients.demoHost
                              (Returned (Some DemoClients.demoActiveSheet))))
                 82 DemoRun.demoConfig "C123" DemoRun.demoWorld = Some (r, w').
Proof.
  destruct (checkRelease_returns
              (DemoClients.demoHost (Returned (Some DemoClients.demoActiveSheet)))
              82 DemoRun.demoConfig "C123" DemoRun.demoWorld) as (r & w' & H & _).
  - vm_compute. discriminate.
  - vm_compute. lia.
  - exists r, w'. exact H.
Defined.

End ClientsFacts.

(* ------------------------------------------------------------------ *)
(** ** cli/index.ts: arguments, defaults and the exit code *)

Module CliFacts.
Import JsString JsHost ReleaseChecker Clients Cli.
Local Open Scope list_scope.

Lemma falsy_false (x : option string) :
  falsy x = false -> exists s, x = Some s /\ s <> ""%string /\ orString x "" = s.
Proof.
  destruct x as [s|]; [|discriminate]. cbn [falsy orString]. intros H.
  apply negb_false_iff in H. rewrite H. exists s. repeat split.
  now apply SlackWebClientFacts.truthyString_true.
Qed.

Lemma orElse_first (a b : option string) (s : string) :
  a = Some s -> s <> ""%string -> orElse a b = Some s.
Proof.
  intros -> H. apply SlackWebClientFacts.truthyString_true in H.
  cbn [orElse]. rewrite H. reflexivity.
Qed.

Lemma orElse_default (a : option string) (d : string) :
  d <> ""%string -> exists s, orElse a (Some d) = Some s /\ s <> ""%string.
Proof.
  intros Hd. destruct a as [s|]; cbn [orElse]; [|eauto].
  destruct (truthyString s) eqn:T; [|eauto].
  exists s. split; [reflexivity|]. now apply SlackWebClientFacts.truthyString_true.
Qed.

Lemma parseCliArgs_Config (values : Values) (positionals : list string) (env : ProcessEnv)
    (c : CliConfig) :
  parseCliArgs values positionals env = Config c ->
  help values = false /\
  exists productName_ environmentName_ rest,
    positionals = productName_ :: environmentName_ :: rest /\
    let slackChannelId := orElse (slack_channel_id values) (SLACK_CHANNEL_ID env) in
    let sheetsCredentialsPath :=
      orElse (orElse (sheets_credentials values) (SHEETS_CREDENTIALS_PATH env))
             (GOOGLE_SERVICE_ACCOUNT_JSON env) in
    let slackToken :=
      orElse (orElse (slack_token values) (SLACK_TOKEN env)) (SLACK_BOT_TOKEN env) in
    let spreadsheetId :=
      orElse (orElse (spreadsheet_id values) (SPREADSHEET_ID env))
             (GOOGLE_SPREADSHEET_ID env) in
    falsy slackChannelId = false /\ falsy sheetsCredentialsPath = false /\
    falsy slackToken = false /\ falsy spreadsheetId = false /\
    c = mkCliConfig
          productName_ environmentName_
          (orElse (requester_user_id values) (REQUESTER_USER_ID env))
          (orString slackChannelId "") (orString sheetsCredentialsPath "")
          (orString slackToken "") (orString spreadsheetId "")
          (orElse (orElse (orElse (sheet_name values) (SHEET_NAME env))
                          (GOOGLE_SHEET_NAME env)) (Some "シート1"))
          (Some (if negb (falsy (wait_minutes values))
                 then parseIntJs (orString (wait_minutes values) "")
                 else if negb (falsy (WAIT_MINUTES env))
                      then parseIntJs (orString (WAIT_MINUTES env) "")
                      else numZ 20))
          (orElse (orElse (approve_reaction values) (APPROVE_REACTION env)) (Some "ok"))
          (orElse (orElse (reject_reaction values) (REJECT_REACTION env)) (Some "-1"))
          (orElse (orElse (timezone_ values) (TIMEZONE env)) (Some "Asia/Tokyo")).
Proof.
  unfold parseCliArgs. destruct (help values); [discriminate|].
  destruct positionals as [|p [|e rest]]; [discriminate|discriminate|].
  intros H. split; [reflexivity|]. exists p, e, rest. split; [reflexivity|].
  cbv zeta.
  destruct (falsy (orElse (slack_channel_id values) (SLACK_CHANNEL_ID env)));
    [discriminate H|].
  destruct (falsy (orElse (orElse (sheets_credentials values) (SHEETS_CREDENTIALS_PATH env))
                          (GOOGLE_SERVICE_ACCOUNT_JSON env))); [discriminate H|].
  destruct (falsy (orElse (orElse (slack_token values) (SLACK_TOKEN env))
                          (SLACK_BOT_TOKEN env))); [discriminate H|].
  destruct (falsy (orElse (orElse (spreadsheet_id values) (SPREADSHEET_ID env))
                          (GOOGLE_SPREADSHEET_ID env))); [discriminate H|].
  cbn [orb] in H. injection H as <-. repeat split.
Qed.

(** X24: a configuration returned by [parseCliArgs] is complete: help was
    not asked for, the two names are the first two positional arguments,
    the channel, the credentials, the token and the spreadsheet id are
    non-empty, and so are the sheet name, the two reactions and the time
    zone. *)
Theorem parseCliArgs_config_complete (values : Values) (positionals : list string)
    (env : ProcessEnv) (c : CliConfig) :
  parseCliArgs values positionals env = Config c ->
  help values = false /\
  nth_error positionals 0 = Some (cliProductName c) /\
  nth_error positionals 1 = Some (cliEnvironmentName c) /\
  cliSlackChannelId c <> ""%string /\ cliSheetsCredentialsPath c <> ""%string /\
  cliSlackToken c <> ""%string /\ cliSpreadsheetId c <> ""%string /\
  (exists s, cliSheetName c = Some s /\ s <> ""%string) /\
  (exists s, cliApproveReaction c = Some s /\ s <> ""%string) /\
  (exists s, cliRejectReaction c = Some s /\ s <> ""%string) /\
  (exists s, cliTimezone c = Some s /\ s <> ""%string).
Proof.
  intros H. apply parseCliArgs_Config in H
    as (Hhelp & p & e & rest & -> & F1 & F2 & F3 & F4 & ->).
  apply falsy_false in F1 as (s1 & _ & N1 & ->).
  apply falsy_false in F2 as (s2 & _ & N2 & ->).
  apply falsy_false in F3 as (s3 & _ & N3 & ->).
  apply falsy_false in F4 as (s4 & _ & N4 & ->).
  cbn [cliProductName cliEnvironmentName cliSlackChannelId cliSheetsCredentialsPath
       cliSlackToken cliSpreadsheetId cliSheetName cliApproveReaction cliRejectReaction
       cliTimezone nth_error].
  repeat (split; [first [assumption|reflexivity]|]).
  repeat split; apply orElse_default; discriminate.
Qed.

Lemma parseCliArgs_config_complete_witness :
  let c := mkCliConfig "my-app" "staging" None "C123" "{}" "xoxb-1" "sheet-id"
             (Some "シート1") (Some NaN) (Some "ok") (Some "-1") (Some "Asia/Tokyo") in
  help DemoClients.demoValues = false /\
  nth_error DemoClients.demoPositionals 0 = Some (cliProductName c) /\
  nth_error DemoClients.demoPositionals 1 = Some (cliEnvironmentName c) /\
  cliSlackChannelId c <> ""%string /\ cliSheetsCredentialsPath c <> ""%string /\
  cliSlackToken c <> ""%string /\ cliSpreadsheetId c <> ""%string /\
  (exists s, cliSheetName c = Some s /\ s <> ""%string) /\
  (exists s, cliApproveReaction c = Some s /\ s <> ""%string) /\
  (exists s, cliRejectReaction c = Some s /\ s <> ""%string) /\
  (exists s, cliTimezone c = Some s /\ s <> ""%string).
Proof.
  apply (parseCliArgs_config_complete DemoClients.demoValues DemoClients.demoPositionals
           DemoClients.demoProcessEnv).
  vm_compute. reflexivity.
Defined.

(** X25: a non-empty option of the command line wins over the
    environment and over the default, for every setting of the
    configuration. *)
Theorem parseCliArgs_option_first (values : Values) (positionals : list string)
    (env : ProcessEnv) (c : CliConfig) :
  parseCliArgs values positionals env = Config c ->
  forall s, s <> ""%string ->
    (requester_user_id values = Some s -> cliRequesterUserId c = Some s) /\
    (slack_channel_id values = Some s -> cliSlackChannelId c = s) /\
    (sheets_credentials values = Some s -> cliSheetsCredentialsPath c = s) /\
    (slack_token values = Some s -> cliSlackToken c = s) /\
    (spreadsheet_id values = Some s -> cliSpreadsheetId c = s) /\
    (sheet_name values = Some s -> cliSheetName c = Some s) /\
    (wait_minutes values = Some s -> cliWaitMinutes c = Some (parseIntJs s)) /\
    (approve_reaction values = Some s -> cliApproveReaction c = Some s) /\
    (reject_reaction values = Some s -> cliRejectReaction c = Some s) /\
    (timezone_ values = Some s -> cliTimezone c = Some s).
Proof.
  intros H s Hs. apply parseCliArgs_Config in H
    as (_ & p & e & rest & _ & _ & _ & _ & _ & ->).
  pose proof (proj2 (SlackWebClientFacts.truthyString_true s) Hs) as T.
  cbn [cliRequesterUserId cliSlackChannelId cliSheetsCredentialsPath
       cliSlackToken cliSpreadsheetId cliSheetName cliWaitMinutes cliApproveReaction
       cliRejectReaction cliTimezone].
  repeat split; intros E; rewrite E;
    repeat (rewrite (orElse_first (Some s) _ s eq_refl Hs));
    cbn [orString falsy negb]; rewrite ?T; reflexivity.
Qed.

Lemma parseCliArgs_option_first_witness :
  cliSlackChannelId
    (mkCliConfig "my-app" "staging" None "C123" "{}" "xoxb-1" "sheet-id"
       (Some "シート1") (Some NaN) (Some "ok") (Some "-1") (Some "Asia/Tokyo")) = "C123"%string.
Proof.
  apply (parseCliArgs_option_first DemoClients.demoValues DemoClients.demoPositionals
           DemoClients.demoProcessEnv
           (mkCliConfig "my-app" "staging" None "C123" "{}" "xoxb-1" "sheet-id"
              (Some "シート1") (Some NaN) (Some "ok") (Some "-1") (Some "Asia/Tokyo"))
           ltac:(vm_compute; reflexivity) "C123" ltac:(discriminate)).
  reflexivity.
Defined.

Lemma parseIntJs_cases (s : string) :
  parseIntJs s = NaN \/ (exists negative, parseIntJs s = Infinity negative) \/
  exists z, parseIntJs s = numZ z.
Proof.
  unfold parseIntJs.
  destruct (match dropSpaces (list_ascii_of_string s) with
            | "-"%char :: r => (true, r)
            | "+"%char :: r => (false, r)
            | _ => (false, dropSpaces (list_ascii_of_string s))
            end) as [negative s2].
  destruct (match s2 with
            | "0"%char :: "x"%char :: r => (true, r)
            | "0"%char :: "X"%char :: r => (true, r)
            | _ => (false, s2)
            end) as [hex s3].
  destruct (takeWhile (if hex then isHexDigit else isDigit) s3) as [|c ds];
    [left; reflexivity|right].
  match goal with
  | |- context [roundDouble (inject_Z ?v)] =>
      destruct (NumberFacts.roundDouble_integer v) as [(sg & E)|(z & E & _)]; rewrite E
  end; [left|right]; eauto.
Qed.

Lemma truthyNumber_numZ (z : Z) : truthyNumber (numZ z) = negb (z =? 0).
Proof.
  unfold truthyNumber, numZ, Qeq_bool, inject_Z. cbn [Qnum Qden].
  rewrite Z.mul_1_r. destruct z; reflexivity.
Qed.

Lemma orNumber_cases (x : option number) :
  (x = None \/ x = Some NaN \/ (exists negative, x = Some (Infinity negative)) \/
   exists z, x = Some (numZ z)) ->
  ((exists n, orNumber x (numZ 20) = numZ n /\ n <> 0) \/
   (exists negative, orNumber x (numZ 20) = Infinity negative)) /\
  (x = Some (orNumber x (numZ 20)) \/
   orNumber x (numZ 20) = numZ 20 /\ (x = None \/ x = Some NaN \/ x = Some (numZ 0))).
Proof.
  intros [->|[->|[(sg & ->)|(z & ->)]]].
  - cbn. split; [left; exists 20; split; [reflexivity|lia]|]. right. auto.
  - cbn. split; [left; exists 20; split; [reflexivity|lia]|]. right. auto.
  - cbn. split; [right; eauto|]. left. reflexivity.
  - cbn [orNumber]. rewrite truthyNumber_numZ.
    destruct (Z.eqb_spec z 0) as [->|N]; cbn [negb].
    + split; [left; exists 20; split; [reflexivity|lia]|]. right. auto.
    + split; [left; exists z; split; [reflexivity|exact N]|]. left. reflexivity.
Qed.

(** X26: the wait that the release check uses for a parsed command line
    is never [NaN] and never zero: it is a non-zero integer number of
    minutes or an infinity, which is what [Number.parseInt] gives on
    digits too many for a double; it is the number parsed from the option
    or the variable, and 20 when that text does not start with a number
    or gives 0. *)
Theorem cli_wait_minutes_effective (values : Values) (positionals : list string)
    (env : ProcessEnv) (c : CliConfig) :
  parseCliArgs values positionals env = Config c ->
  let wait := orNumber (waitMinutes (releaseConfig c)) (numZ 20) in
  ((exists n, wait = numZ n /\ n <> 0) \/ (exists negative, wait = Infinity negative)) /\
  (cliWaitMinutes c = Some wait \/
   wait = numZ 20 /\ (cliWaitMinutes c = Some NaN \/ cliWaitMinutes c = Some (numZ 0))) /\
  cliWaitMinutes c =
    Some (match wait_minutes values, WAIT_MINUTES env with
          | Some s, _ => if truthyString s then parseIntJs s
                         else match WAIT_MINUTES env with
                              | Some s' => if truthyString s' then parseIntJs s' else numZ 20
                              | None => numZ 20
                              end
          | None, Some s' => if truthyString s' then parseIntJs s' else numZ 20
          | None, None => numZ 20
          end).
Proof.
  intros H. apply parseCliArgs_Config in H
    as (_ & p & e & rest & _ & _ & _ & _ & _ & ->).
  cbn [releaseConfig waitMinutes cliWaitMinutes]. cbv zeta.
  match goal with
  | |- ((exists n, orNumber ?x _ = _ /\ _) \/ _) /\ _ =>
      destruct (orNumber_cases x) as (I & C)
  end.
  { right.
    destruct (negb (falsy (wait_minutes values)));
      [|destruct (negb (falsy (WAIT_MINUTES env)))].
    - destruct (parseIntJs_cases (orString (wait_minutes values) ""))
        as [->|[(sg & ->)|(z & ->)]]; eauto.
    - destruct (parseIntJs_cases (orString (WAIT_MINUTES env) ""))
        as [->|[(sg & ->)|(z & ->)]]; eauto.
    - eauto. }
  split; [exact I|]. split.
  - destruct C as [C|(E & [C|[C|C]])]; [left; exact C|discriminate C|auto|auto].
  - f_equal. destruct (wait_minutes values) as [s|]; cbn [falsy negb orString].
    + destruct (truthyString s); cbn [negb]; [reflexivity|].
      destruct (WAIT_MINUTES env) as [s'|]; cbn [falsy negb orString]; [|reflexivity].
      destruct (truthyString s'); reflexivity.
    + destruct (WAIT_MINUTES env) as [s'|]; cbn [falsy negb orString]; [|reflexivity].
      destruct (truthyString s'); reflexivity.
Qed.

Lemma cli_wait_minutes_effective_witness :
  let c := mkCliConfig "my-app" "staging" None "C123" "{}" "xoxb-1" "sheet-id"
             (Some "シート1") (Some NaN) (Some "ok") (Some "-1") (Some "Asia/Tokyo") in
  orNumber (waitMinutes (releaseConfig c)) (numZ 20) = numZ 20 /\
  cliWaitMinutes c = Some (parseIntJs "soon").
Proof.
  pose proof (cli_wait_minutes_effective DemoClients.demoValues DemoClients.demoPositionals
                DemoClients.demoProcessEnv
                (mkCliConfig "my-app" "staging" None "C123" "{}" "xoxb-1" "sheet-id"
                   (Some "シート1") (Some NaN) (Some "ok") (Some "-1") (Some "Asia/Tokyo"))
                ltac:(vm_compute; reflexivity)) as (_ & _ & H).
  split; [reflexivity|exact H].
Defined.

(** [mainEntry], branch by branch, once [parseArgs] has returned. *)
Lemma mainEntry_cases {Credentials : Type} (m : Machine Credentials) (fuel : nat)
    (values : Values) (positionals : list string) (env : ProcessEnv) (w : World) :
  let run := mainEntry Credentials m fuel (Returned (values, positionals)) env w in
  match parseCliArgs values positionals env with
  | Exit code => run = Some (code, w)
  | Config config =>
      match loadCredentials Credentials m (cliSheetsCredentialsPath config) with
      | None => run = Some (1, w)
      | Some sheetsCredentials =>
          match SheetsClient.createSheetsClient
                  (World -> SheetsClient.GoogleSheetsApi) Credentials
                  (GoogleSheetsApiImpl Credentials m)
                  (SheetsClient.mkSheetsClientConfig _ _
                     sheetsCredentials None (cliSpreadsheetId config) (cliSheetName config))
          with
          | Threw _ => run = Some (1, w)
          | Returned sheetsClient =>
              match SlackWebClient.createSlackClient
                      (World -> SlackWebClient.SlackApi) (SlackApiImpl Credentials m)
                      (Some (cliSlackToken config)) None
              with
              | Threw _ => run = Some (1, w)
              | Returned slackApi =>
                  run =
                    match checkRelease (services (hostOf Credentials m sheetsClient slackApi))
                            fuel (releaseConfig config) (cliSlackChannelId config) w with
                    | Some (result, w') => Some (exitCode result, w')
                    | None => None
                    end
              end
          end
      end
  end.
Proof.
  cbv zeta. unfold mainEntry, main.
  destruct (parseCliArgs values positionals env) as [code|config]; [reflexivity|].
  destruct (loadCredentials Credentials m (cliSheetsCredentialsPath config))
    as [sheetsCredentials|]; [|reflexivity].
  destruct (SheetsClient.createSheetsClient _ _ _ _) as [sheetsClient|t]; [|reflexivity].
  destruct (SlackWebClient.createSlackClient _ _ _ _) as [slackApi|t]; [|reflexivity].
  unfold mbind, mret.
  destruct (checkRelease _ _ _ _ _) as [[result w']|]; reflexivity.
Qed.

Lemma exitCode_cases (result : Result ReleaseCheckResult) :
  (exitCode result = 0 \/ exitCode result = 1) /\
  (exitCode result = 0 <->
   exists r, result = Ok r /\ (status r = approved \/ status r = no_schedule)).
Proof.
  destruct result as [r|e]; cbn [exitCode].
  - destruct (status r) eqn:S; (split; [auto|]); split; intros H; try discriminate H;
      try (exists r; split; [reflexivity|auto]);
      destruct H as (r' & E & [H|H]); injection E as <-; congruence.
  - split; [auto|]. split; [discriminate|]. intros (r & E & _). discriminate E.
Qed.

(** The exit code of [mainEntry] once [parseArgs] has returned. *)
Lemma mainEntry_parsed {Credentials : Type} (m : Machine Credentials) (fuel : nat)
    (values : Values) (positionals : list string) (env : ProcessEnv) (w : World) :
  (forall config, parseCliArgs values positionals env = Config config ->
     let timeoutMs :=
       mulNumber (mulNumber (orNumber (cliWaitMinutes config) (numZ 20)) (numZ 60))
                 (numZ 1000) in
     timeoutMs <> Infinity false /\
     (ticksBound timeoutMs defaultPollIntervalMs <= fuel)%nat) ->
  exists code w',
    mainEntry Credentials m fuel (Returned (values, positionals)) env w
      = Some (code, w') /\
    (code = 0 \/ code = 1) /\
    (code = 0 <->
     help values = true \/
     exists config sheetsCredentials sheetsClient slackApi r,
       parseCliArgs values positionals env = Config config /\
       loadCredentials Credentials m (cliSheetsCredentialsPath config)
         = Some sheetsCredentials /\
       SheetsClient.createSheetsClient
         (World -> SheetsClient.GoogleSheetsApi) Credentials
         (GoogleSheetsApiImpl Credentials m)
         (SheetsClient.mkSheetsClientConfig _ _
            sheetsCredentials None (cliSpreadsheetId config) (cliSheetName config))
         = Returned sheetsClient /\
       SlackWebClient.createSlackClient
         (World -> SlackWebClient.SlackApi) (SlackApiImpl Credentials m)
         (Some (cliSlackToken config)) None
         = Returned slackApi /\
       checkRelease (services (hostOf Credentials m sheetsClient slackApi))
                    fuel (releaseConfig config) (cliSlackChannelId config) w
         = Some (Ok r, w') /\
       (status r = approved \/ status r = no_schedule)).
Proof.
  intros Hwait.
  pose proof (mainEntry_cases m fuel values positionals env w) as C. cbv zeta in C.
  destruct (parseCliArgs values positionals env) as [k|config] eqn:P.
  { exists k, w. split; [exact C|].
    unfold parseCliArgs in P. destruct (help values) eqn:Hh.
    - injection P as <-. split; [auto|]. split; auto.
    - assert (k = 1) as ->.
      { destruct positionals as [|p [|e rest]]; try congruence.
        destruct (_ || _ || _ || _); congruence. }
      split; [auto|]. split; [discriminate|].
      intros [H|(c & _ & _ & _ & _ & Hc & _)]; [discriminate H|discriminate Hc]. }
  assert (Hhelp : help values = false).
  { unfold parseCliArgs in P. destruct (help values); [discriminate P|reflexivity]. }
  assert (Hone : forall P' : Prop, ~ P' ->
            (1 = 0 \/ 1 = 1) /\ (1 = 0 <-> help values = true \/ P')).
  { intros P' HP. split; [auto|]. split; [discriminate|].
    intros [H|H]; [congruence|contradiction]. }
  destruct (loadCredentials Credentials m (cliSheetsCredentialsPath config))
    as [sheetsCredentials|] eqn:L.
  2:{ exists 1, w. split; [exact C|]. apply Hone.
      intros (c & cr & sc & sa & r & Hc & Hl & _). injection Hc as <-. congruence. }
  destruct (SheetsClient.createSheetsClient _ _ _ _) as [sheetsClient|t] eqn:S.
  2:{ exists 1, w. split; [exact C|]. apply Hone.
      intros (c & cr & sc & sa & r & Hc & Hl & Hs & _). injection Hc as <-.
      rewrite L in Hl. injection Hl as <-. congruence. }
  destruct (SlackWebClient.createSlackClient _ _ _ _) as [slackApi|t] eqn:K.
  2:{ exists 1, w. split; [exact C|]. apply Hone.
      intros (c & cr & sc & sa & r & Hc & Hl & Hs & Hk & _). injection Hc as <-.
      congruence. }
  destruct (Hwait config eq_refl) as (Hfin & Hfuel).
  destruct (ReleaseCheckerRuns.checkRelease_runs
              (services (hostOf Credentials m sheetsClient slackApi)) fuel
              (releaseConfig config) (cliSlackChannelId config) w Hfin Hfuel)
    as (result & w' & Hrun & _).
  rewrite Hrun in C. exists (exitCode result), w'. split; [exact C|].
  destruct (exitCode_cases result) as (H01 & Hiff). split; [exact H01|].
  rewrite Hiff. split.
  - intros (r & -> & Hs). right.
    exists config, sheetsCredentials, sheetsClient, slackApi, r. auto 10.
  - intros [H|(c & cr & sc & sa & r & Hc & Hl & Hs & Hk & Hr & Hst)]; [congruence|].
    injection Hc as <-. rewrite L in Hl. injection Hl as <-.
    rewrite S in Hs. injection Hs as <-. rewrite K in Hk. injection Hk as <-.
    rewrite Hrun in Hr. injection Hr as ->. eauto.
Qed.

(** X27: given fuel for the polling loop and a wait that is not infinite,
    [main] ends, with exit code 0 or 1; the code is 0 exactly when
    [parseArgs] returns and either help is asked for, or the arguments
    give a configuration, the credentials load, the two clients are
    created and the release check returns [ok] with status [approved] or
    [no_schedule]. *)
Theorem main_exit_code {Credentials : Type} (m : Machine Credentials) (fuel : nat)
    (parsedArgs : Outcome (Values * list string)) (env : ProcessEnv) (w : World) :
  (forall values positionals config,
     parsedArgs = Returned (values, positionals) ->
     parseCliArgs values positionals env = Config config ->
     let timeoutMs :=
       mulNumber (mulNumber (orNumber (cliWaitMinutes config) (numZ 20)) (numZ 60))
                 (numZ 1000) in
     timeoutMs <> Infinity false /\
     (ticksBound timeoutMs defaultPollIntervalMs <= fuel)%nat) ->
  exists code w',
    mainEntry Credentials m fuel parsedArgs env w = Some (code, w') /\
    (code = 0 \/ code = 1) /\
    (code = 0 <->
     exists values positionals,
       parsedArgs = Returned (values, positionals) /\
       (help values = true \/
        exists config sheetsCredentials sheetsClient slackApi r,
          parseCliArgs values positionals env = Config config /\
          loadCredentials Credentials m (cliSheetsCredentialsPath config)
            = Some sheetsCredentials /\
          SheetsClient.createSheetsClient
            (World -> SheetsClient.GoogleSheetsApi) Credentials
            (GoogleSheetsApiImpl Credentials m)
            (SheetsClient.mkSheetsClientConfig _ _
               sheetsCredentials None (cliSpreadsheetId config) (cliSheetName config))
            = Returned sheetsClient /\
          SlackWebClient.createSlackClient
            (World -> SlackWebClient.SlackApi) (SlackApiImpl Credentials m)
            (Some (cliSlackToken config)) None
            = Returned slackApi /\
          checkRelease (services (hostOf Credentials m sheetsClient slackApi))
                       fuel (releaseConfig config) (cliSlackChannelId config) w
            = Some (Ok r, w') /\
          (status r = approved \/ status r = no_schedule))).
Proof.
  intros Hwait. destruct parsedArgs as [[values positionals]|t].
  - destruct (mainEntry_parsed m fuel values positionals env w
                (fun config => Hwait values positionals config eq_refl))
      as (code & w' & Hrun & H01 & Hiff).
    exists code, w'. split; [exact Hrun|]. split; [exact H01|].
    rewrite Hiff. split.
    + intros H. exists values, positionals. split; [reflexivity|exact H].
    + intros (v & p & E & H). injection E as <- <-. exact H.
  - exists 1, w. split; [reflexivity|]. split; [auto|].
    split; [discriminate|]. intros (v & p & E & _). discriminate E.
Qed.

Lemma main_exit_code_witness :
  exists code w',
    mainEntry unit (DemoClients.demoMachine (Returned (Some DemoClients.demoActiveSheet)))
              82 (Returned (DemoClients.demoValues, DemoClients.demoPositionals))
              DemoClients.demoProcessEnv DemoRun.demoWorld = Some (code, w') /\
    (code = 0 \/ code = 1).
Proof.
  destruct (main_exit_code
              (DemoClients.demoMachine (Returned (Some DemoClients.demoActiveSheet)))
              82 (Returned (DemoClients.demoValues, DemoClients.demoPositionals))
              DemoClients.demoProcessEnv DemoRun.demoWorld)
    as (code & w' & Hrun & H01 & _).
  - intros values positionals config E H. injection E as <- <-.
    vm_compute in H. injection H as <-.
    split; [vm_compute; discriminate|vm_compute; lia].
  - exists code, w'. split; [exact Hrun|exact H01].
Defined.

(** On that machine the request is posted and nobody reacts: the wait of
    20 minutes runs out after 79 polls, and the process ends with code 1;
    and it ends with code 1 at once when [parseArgs] throws. *)
Example main_times_out :
  (exists w',
     mainEntry unit (DemoClients.demoMachine (Returned (Some DemoClients.demoActiveSheet)))
               82 (Returned (DemoClients.demoValues, DemoClients.demoPositionals))
               DemoClients.demoProcessEnv DemoRun.demoWorld = Some (1, w') /\
     clock w' = clock DemoRun.demoWorld + 1201000 /\
     List.length (events w') = 160%nat) /\
  mainEntry unit (DemoClients.demoMachine (Returned (Some DemoClients.demoActiveSheet)))
            82 (Threw (ThrownError "Unknown option '--fast'"))
            DemoClients.demoProcessEnv DemoRun.demoWorld = Some (1, DemoRun.demoWorld).
Proof.
  split; [|reflexivity].
  eexists. split; [vm_compute; reflexivity|]. split; reflexivity.
Qed.

(** X28: availability first, end to end: when the arguments give a
    configuration whose time zone the host knows and the call of the
    Sheets API throws, [main] over the two clients ends with exit
    code 0. *)
Theorem main_sheets_failure_exits_zero (h : Host) (fuel : nat) (values : Values)
    (positionals : list string) (env : ProcessEnv) (c : CliConfig) (w : World)
    (t : Thrown) (offsetMinutes : Z) :
  parseCliArgs values positionals env = Config c ->
  hostUtcOffset h (resolvedTimezone (releaseConfig c)) (clock w) = Some offsetMinutes ->
  hostSheetsApi h w (hostSpreadsheetId h) (hostSheetName h ++ "!A:G")%string = Threw t ->
  exists w', main (services h) fuel values positionals env w = Some (0, w').
Proof.
  intros Hc Hzone Hthrow. unfold main. rewrite Hc. unfold mbind, mret.
  pose proof (ReleaseCheckerRuns.checkRelease_cases (services h) fuel (releaseConfig c)
                (cliSlackChannelId c) w) as C.
  change (utcOffset (services h)) with (hostUtcOffset h) in C. rewrite Hzone in C.
  assert (Hfetch : fetchSchedules (services h) w
                   = Err (newError ("Failed to fetch schedules from Google Sheets: " ++
                                    thrownMessage t))).
  { cbn [services fetchSchedules]. unfold SheetsClient.fetchSchedules.
    rewrite Hthrow. reflexivity. }
  rewrite Hfetch in C. destruct C as (w' & ->). exists w'. reflexivity.
Qed.

Lemma main_sheets_failure_witness :
  exists w', main (services (DemoClients.demoHost (Threw ThrownOther))) 0
                  DemoClients.demoValues DemoClients.demoPositionals
                  DemoClients.demoProcessEnv DemoRun.demoWorld = Some (0, w').
Proof.
  apply (main_sheets_failure_exits_zero (DemoClients.demoHost (Threw ThrownOther)) 0
           DemoClients.demoValues DemoClients.demoPositionals DemoClients.demoProcessEnv
           (mkCliConfig "my-app" "staging" None "C123" "{}" "xoxb-1" "sheet-id"
              (Some "シート1") (Some NaN) (Some "ok") (Some "-1") (Some "Asia/Tokyo"))
           DemoRun.demoWorld ThrownOther 540).
  - vm_compute. reflexivity.
  - reflexivity.
  - reflexivity.
Defined.

Lemma takeWhile_all (p : ascii -> bool) (l : list ascii) :
  forallb p l = true -> takeWhile p l = l.
Proof.
  induction l as [|c l IH]; [reflexivity|]. cbn [forallb takeWhile].
  destruct (p c); [|discriminate]. cbn [andb]. intros H. now rewrite IH.
Qed.

Lemma parseIntJs_digits (ds : list ascii) :
  ds <> [] -> forallb isDigit ds = true ->
  parseIntJs (string_of_list_ascii ds) = roundDouble (inject_Z (parseInt ds)).
Proof.
  intros Hne Hds. unfold parseIntJs. rewrite list_ascii_of_string_of_list_ascii.
  destruct ds as [|c ds]; [congruence|]. clear Hne.
  cbn [forallb] in Hds. apply andb_true_iff in Hds as (Hc & Hds).
  rewrite (RegexFacts.dropSpaces_digit c ds Hc).
  assert (Hsign : match c :: ds with
                  | "-"%char :: r => (true, r)
                  | "+"%char :: r => (false, r)
                  | _ => (false, c :: ds)
                  end = (false, c :: ds)).
  { destruct c as [[] [] [] [] [] [] [] []]; try reflexivity; discriminate Hc. }
  rewrite Hsign.
  assert (Hhex : match c :: ds with
                 | "0"%char :: "x"%char :: r => (true, r)
                 | "0"%char :: "X"%char :: r => (true, r)
                 | _ => (false, c :: ds)
                 end = (false, c :: ds)).
  { destruct ds as [|d ds]; [destruct c as [[] [] [] [] [] [] [] []]; reflexivity|].
    cbn [forallb] in Hds. apply andb_true_iff in Hds as (Hd & _).
    destruct d as [[] [] [] [] [] [] [] []]; try discriminate Hd;
      destruct c as [[] [] [] [] [] [] [] []]; reflexivity. }
  rewrite Hhex.
  rewrite takeWhile_all by (cbn [forallb]; rewrite Hc, Hds; reflexivity).
  reflexivity.
Qed.

(** Beyond 2^53 the number read is the nearest double, and an infinity
    when there is none. *)
Example parseIntJs_rounds :
  parseIntJs "9007199254740993" = numZ 9007199254740992 /\
  parseIntJs ("-1" ++ string_of_list_ascii (repeat "0"%char 400)) = Infinity true.
Proof. split; vm_compute; reflexivity. Qed.

(** X29: an option [--wait-minutes] made of decimal digits only is read
    in base 10 by [parseCliArgs], whatever the environment holds: a
    leading zero does not change the base, and below 2^53 the number of
    minutes is the number written. *)
Theorem parseCliArgs_wait_minutes_digits (values : Values) (positionals : list string)
    (env : ProcessEnv) (c : CliConfig) (ds : list ascii) :
  parseCliArgs values positionals env = Config c ->
  ds <> [] -> forallb isDigit ds = true -> parseInt ds < 2 ^ 53 ->
  wait_minutes values = Some (string_of_list_ascii ds) ->
  cliWaitMinutes c = Some (numZ (parseInt ds)).
Proof.
  intros H Hne Hds Hlt Hopt. apply parseCliArgs_Config in H
    as (_ & p & e & rest & _ & _ & _ & _ & _ & ->).
  cbn [cliWaitMinutes]. rewrite Hopt. cbn [falsy orString].
  assert (T : truthyString (string_of_list_ascii ds) = true).
  { destruct ds as [|d ds']; [congruence|]. reflexivity. }
  rewrite T. cbn [negb]. rewrite (parseIntJs_digits ds Hne Hds).
  f_equal. apply NumberFacts.roundDouble_Z.
  pose proof (ScheduleParserMore.parseInt_nonneg ds Hds). lia.
Qed.

Lemma parseCliArgs_wait_minutes_digits_witness :
  cliWaitMinutes
    (mkCliConfig "my-app" "staging" None "C123" "{}" "xoxb-1" "sheet-id"
       (Some "シート1") (Some (numZ 30)) (Some "ok") (Some "-1") (Some "Asia/Tokyo"))
    = Some (numZ (parseInt (list_ascii_of_string "030"))).
Proof.
  apply (parseCliArgs_wait_minutes_digits
           (mkValues false None (Some "C123") (Some "{}") (Some "xoxb-1") (Some "sheet-id")
                     None (Some "030") None None None)
           DemoClients.demoPositionals DemoClients.demoProcessEnv
           (mkCliConfig "my-app" "staging" None "C123" "{}" "xoxb-1" "sheet-id"
              (Some "シート1") (Some (numZ 30)) (Some "ok") (Some "-1") (Some "Asia/Tokyo"))
           (list_ascii_of_string "030")).
  - vm_compute. reflexivity.
  - discriminate.
  - reflexivity.
  - vm_compute. reflexivity.
  - reflexivity.
Defined.

End CliFacts.

(* ------------------------------------------------------------------ *)
(** ** utils/logger.ts: which messages are written, and how *)

Module LoggerFacts.
Import Logger.

(** X30: a message is dropped exactly when its level is below the level
    of the logger; otherwise it goes to the console method of its own
    level, with the context if one was given, and its text ends with the
    name of the level in brackets followed by the message.  The default
    logger drops the messages of level [DEBUG] and no others. *)
Theorem log_level_filter (config : LoggerConfig) (now : string) (l : LogLevel)
    (message_ : string) (hasContext : bool) :
  (log config now l message_ hasContext = None <->
   levelNumber l < levelNumber (level config)) /\
  (forall c, log config now l message_ hasContext = Some c ->
     consoleMethod c = l /\ consoleContext c = hasContext /\
     exists p, consoleText c = (p ++ "[" ++ levelName l ++ "] " ++ message_)%string) /\
  (log (createLogger None None) now l message_ hasContext = None <-> l = DEBUG).
Proof.
  split; [|split].
  - unfold log. destruct (Z.ltb_spec (levelNumber l) (levelNumber (level config)));
      split; try discriminate; try lia; auto.
  - unfold log. destruct (levelNumber l <? levelNumber (level config)); [discriminate|].
    intros c H. injection H as <-. cbn [consoleMethod consoleContext consoleText].
    split; [reflexivity|]. split; [reflexivity|].
    destruct (includeTimestamp config).
    + exists (now ++ " ")%string.
      destruct l; rewrite !ReleaseCheckerMore.append_assoc; reflexivity.
    + exists ""%string. destruct l; reflexivity.
  - destruct l; cbn; split; congruence.
Qed.

End LoggerFacts.
